(** * vscode-tslinter: the lint server (server.ts) and its client
      (extension.ts), embedded and verified

    The server keeps three caches (document to library, library path to
    library, document to configuration), answers two requests (run tslint,
    fix tslint) and one notification (watched configuration files changed).
    Everything the server reaches through Node, the language-server
    library, tslint and semver is gathered in the record [Env]; the server's
    own functions are transcribed one by one over a small state-and-exception
    monad whose state also records the calls made to the outside world.
    The client's two commands and [applyTextEdits] are transcribed over a
    record of what they do to the editor and to the language client. *)

From stdpp Require Import base strings list gmap.
From Stdlib Require Import Ascii ZArith Lia.

Set Default Proof Using "Type".

(** ** JavaScript strings: [split] and [join] on a one-character separator *)

Module JsString.

(** [s.split(sep)] for a separator of length one: never an empty array. *)
Fixpoint split (sep : ascii) (s : string) : list string :=
  match s with
  | EmptyString => [EmptyString]
  | String c rest =>
      if decide (c = sep) then EmptyString :: split sep rest
      else match split sep rest with
           | [] => [String c EmptyString]
           | piece :: pieces => String c piece :: pieces
           end
  end.

(** [pieces.join(sep)]. *)
Fixpoint join (sep : ascii) (pieces : list string) : string :=
  match pieces with
  | [] => EmptyString
  | [piece] => piece
  | piece :: more => piece +:+ String sep (join sep more)
  end.

(** [pieces.slice(0, pieces.length - 1)]. *)
Definition slice_init (pieces : list string) : list string :=
  take (length pieces - 1) pieces.

(** [c] does not occur in [s]. *)
Fixpoint free_of (c : ascii) (s : string) : Prop :=
  match s with
  | EmptyString => True
  | String d rest => d ≠ c ∧ free_of c rest
  end.

(** [s.substring(from, to)] for [from <= to]. *)
Definition substring (from to : nat) (s : string) : string :=
  String.substring from (to - from) s.

End JsString.

(** ** The protocol's data (vscode-languageserver types) *)

Record Position := { line : nat; character : nat }.

Module Range.
Record t := create { start : Position; end_ : Position }.
End Range.

Module TextEdit.
Record t := replace { range : Range.t; newText : string }.
End TextEdit.

Inductive DiagnosticSeverity := Error | Warning | Information | Hint.

Module Diagnostic.
Record t := mk {
  severity : DiagnosticSeverity;
  message : string;
  range : Range.t;
  code : string;
  source : string
}.
End Diagnostic.

(** ** The open documents

    The document manager and its documents belong to the language-server
    library, not to this repository.  A document is its version and its
    text; the two position functions follow the library's full-text
    document: the offsets at which lines start are collected in one pass
    over the text (a line ends at a line feed, a carriage return, or the
    pair of them), an offset is clamped to the text and mapped to the last
    line starting at or before it, and a position is mapped back by adding
    its character to the start of its line, clamped to that line. *)

Module TextDocument.

Record t := mk { version : Z; getText : string }.

Definition is_eol (ch : ascii) : bool :=
  bool_decide (ch = "013"%char) || bool_decide (ch = "010"%char).

(** The loop of the line scan from index [i] on, [text] being what is left
    of the text and [isLineStart] the flag the loop carries. *)
Fixpoint scanLineOffsets (text : string) (i : nat) (isLineStart : bool)
  : list nat :=
  let here := if isLineStart then [i] else [] in
  match text with
  | EmptyString => here
  | String ch rest =>
      match rest with
      | String ch' rest' =>
          if bool_decide (ch = "013"%char) && bool_decide (ch' = "010"%char)
          then here ++ scanLineOffsets rest' (i + 2) true
          else here ++ scanLineOffsets rest (i + 1) (is_eol ch)
      | EmptyString => here ++ scanLineOffsets rest (i + 1) (is_eol ch)
      end
  end.

Definition getLineOffsets (doc : t) : list nat :=
  match getText doc with
  | EmptyString => []
  | text => scanLineOffsets text 0 true
  end.

(** The index the binary search of [positionAt] ends on: the least index
    whose line offset is larger than [offset], or the length of the array. *)
Fixpoint leastLarger (lineOffsets : list nat) (offset : nat) : nat :=
  match lineOffsets with
  | [] => 0
  | lineOffset :: more =>
      if decide (offset < lineOffset) then 0 else S (leastLarger more offset)
  end.

Definition positionAt (doc : t) (offset : nat) : Position :=
  let offset := offset `min` String.length (getText doc) in
  let lineOffsets := getLineOffsets doc in
  if decide (length lineOffsets = 0) then {| line := 0; character := offset |}
  else
    let line := leastLarger lineOffsets offset - 1 in
    {| line := line; character := offset - nth line lineOffsets 0 |}.

Definition offsetAt (doc : t) (position : Position) : nat :=
  let lineOffsets := getLineOffsets doc in
  if decide (length lineOffsets ≤ line position)
  then String.length (getText doc)
  else
    let lineOffset := nth (line position) lineOffsets 0 in
    let nextLineOffset :=
      if decide (line position + 1 < length lineOffsets)
      then nth (line position + 1) lineOffsets 0
      else String.length (getText doc) in
    ((lineOffset + character position) `min` nextLineOffset) `max` lineOffset.

End TextDocument.

(** ** What tslint hands back *)

Module Replacement.
Record t := mk { start : nat; end_ : nat; text : string }.
End Replacement.

(** The three shapes of a fix: an object with a [replacements] member
    (tslint 4), an array of replacements, or one replacement (tslint 5). *)
Inductive Fix :=
| FixWithReplacements (replacements : list Replacement.t)
| FixArray (items : list Replacement.t)
| FixSingle (item : Replacement.t).

Module RuleFailure.
(** [getFix] is [None] where the method does not exist (tslint before 3.17),
    [Some None] where it returns nothing. *)
Record t := mk {
  getFailure : string;
  getRuleName : string;
  getStartPosition : Position;
  getEndPosition : Position;
  getFix : option (option Fix)
}.
End RuleFailure.

Record LintResult := { failures : list RuleFailure.t }.

Record IConfigurationFile := { rulesDirectory : list string; rules : list string }.

(** A loaded tslint module.  A member that is not there reads as
    [undefined], here [None]; reading a member of [undefined] throws. *)
Record LinterClass := { VERSION : option string }.
Record Library := { resolvedFrom : string; Linter : option LinterClass }.

(** What [getLinterFromLibrary] returns: the module itself, or its [Linter]
    member (whatever that reads as). *)
Inductive LinterHandle :=
| ModuleAsLinter (library : Library)
| LinterMember (member : option LinterClass).

(** ** The world outside the server *)

Module Uri.
Record t := mk { scheme : string; fsPath : string }.
End Uri.

(** The three places [loadLibrary] asks for tslint, in its order. *)
Inductive ResolveFrom := ProjectLocal | GlobalNodePath | GlobalYarnPath.

Record Env := {
  (** [Uri.parse] *)
  Uri_parse : string → Uri.t;
  (** [path.sep], [path.dirname], [path.parse(p).dir], [path.join(a, b)] *)
  path_sep : ascii;
  path_dirname : string → string;
  path_parse_dir : string → string;
  path_join : string → string → string;
  (** [fs.existsSync] *)
  fs_existsSync : string → bool;
  (** [Files.resolve('tslint', nodePath, directory, trace)]: the path the
      promise resolves to, or [None] when the promise is rejected *)
  Files_resolve : ResolveFrom → string → option string;
  (** [require]; [None] when it throws (the module does not load) *)
  require : string → option Library;
  (** [semver.satisfies(version, range)], the version being a string or
      [undefined]; [None] when it throws (semver throws a [TypeError] for a
      version string that does not parse) *)
  semver_satisfies : option string → string → option bool;
  (** [linter.loadConfigurationFromPath(path)]; [None] when it throws *)
  loadConfigurationFromPath : LinterHandle → string → option IConfigurationFile;
  (** one lint pass through the handle, in the calling convention chosen by
      the flag (true: tslint 4 and later); [None] when tslint throws *)
  lint : LinterHandle → bool → string → string → IConfigurationFile
         → option LintResult;
  (** what the document manager does to the open documents while a request
      is suspended at an [await] *)
  whileSuspended : gmap string TextDocument.t → gmap string TextDocument.t
}.

(** ** The server's state and the calls it makes *)

Record Caches := {
  document2Library : gmap string Library;
  path2Library : gmap string Library;
  document2Configuration : gmap string IConfigurationFile
}.

(** The calls made so far, oldest first.  [console_error] is the error
    channel of the connection's console; [console_log] gathers what goes to
    the connection's console and to the process's own. *)
Record Calls := {
  existsSync_calls : list string;
  resolve_calls : list (ResolveFrom * string);
  require_calls : list string;
  loadConfiguration_calls : list string;
  isTsLintVersion4_calls : nat;
  lint_calls : list string;
  console_error : list string;
  console_log : list string;
  sendDiagnostics_calls : list (string * list Diagnostic.t)
}.

Record World := {
  caches : Caches;
  documents : gmap string TextDocument.t;
  calls : Calls
}.

Definition no_calls : Calls :=
  {| existsSync_calls := []; resolve_calls := []; require_calls := [];
     loadConfiguration_calls := []; isTsLintVersion4_calls := 0;
     lint_calls := []; console_error := []; console_log := [];
     sendDiagnostics_calls := [] |}.

Definition with_caches (f : Caches → Caches) (w : World) : World :=
  {| caches := f (caches w); documents := documents w; calls := calls w |}.

Definition with_documents
  (f : gmap string TextDocument.t → gmap string TextDocument.t) (w : World)
  : World :=
  {| caches := caches w; documents := f (documents w); calls := calls w |}.

Definition with_calls (f : Calls → Calls) (w : World) : World :=
  {| caches := caches w; documents := documents w; calls := f (calls w) |}.

(** ** What a call or a cache update leaves behind *)

(** The world after [fs.existsSync] was called on each of [paths]. *)
Definition probe_all (paths : list string) (w : World) : World :=
  with_calls (λ c,
    {| existsSync_calls := existsSync_calls c ++ paths;
       resolve_calls := resolve_calls c; require_calls := require_calls c;
       loadConfiguration_calls := loadConfiguration_calls c;
       isTsLintVersion4_calls := isTsLintVersion4_calls c;
       lint_calls := lint_calls c; console_error := console_error c;
       console_log := console_log c;
       sendDiagnostics_calls := sendDiagnostics_calls c |}) w.

(** The world after [Files.resolve] was asked from [directory]. *)
Definition resolve_asked (from : ResolveFrom) (directory : string) (w : World)
  : World :=
  with_calls (λ c,
    {| existsSync_calls := existsSync_calls c;
       resolve_calls := resolve_calls c ++ [(from, directory)];
       require_calls := require_calls c;
       loadConfiguration_calls := loadConfiguration_calls c;
       isTsLintVersion4_calls := isTsLintVersion4_calls c;
       lint_calls := lint_calls c; console_error := console_error c;
       console_log := console_log c;
       sendDiagnostics_calls := sendDiagnostics_calls c |}) w.

(** The world after the module at [p] was required. *)
Definition require_asked (p : string) (w : World) : World :=
  with_calls (λ c,
    {| existsSync_calls := existsSync_calls c;
       resolve_calls := resolve_calls c;
       require_calls := require_calls c ++ [p];
       loadConfiguration_calls := loadConfiguration_calls c;
       isTsLintVersion4_calls := isTsLintVersion4_calls c;
       lint_calls := lint_calls c; console_error := console_error c;
       console_log := console_log c;
       sendDiagnostics_calls := sendDiagnostics_calls c |}) w.

(** The world after the configuration at [p] was asked for. *)
Definition configuration_asked (p : string) (w : World) : World :=
  with_calls (λ c,
    {| existsSync_calls := existsSync_calls c;
       resolve_calls := resolve_calls c; require_calls := require_calls c;
       loadConfiguration_calls := loadConfiguration_calls c ++ [p];
       isTsLintVersion4_calls := isTsLintVersion4_calls c;
       lint_calls := lint_calls c; console_error := console_error c;
       console_log := console_log c;
       sendDiagnostics_calls := sendDiagnostics_calls c |}) w.

(** The world after one more call of [isTsLintVersion4]. *)
Definition version_probed (w : World) : World :=
  with_calls (λ c,
    {| existsSync_calls := existsSync_calls c;
       resolve_calls := resolve_calls c; require_calls := require_calls c;
       loadConfiguration_calls := loadConfiguration_calls c;
       isTsLintVersion4_calls := S (isTsLintVersion4_calls c);
       lint_calls := lint_calls c; console_error := console_error c;
       console_log := console_log c;
       sendDiagnostics_calls := sendDiagnostics_calls c |}) w.

(** The world after the lint pass on [filePath] was asked for. *)
Definition lint_asked (filePath : string) (w : World) : World :=
  with_calls (λ c,
    {| existsSync_calls := existsSync_calls c;
       resolve_calls := resolve_calls c; require_calls := require_calls c;
       loadConfiguration_calls := loadConfiguration_calls c;
       isTsLintVersion4_calls := isTsLintVersion4_calls c;
       lint_calls := lint_calls c ++ [filePath];
       console_error := console_error c; console_log := console_log c;
       sendDiagnostics_calls := sendDiagnostics_calls c |}) w.

(** The world after [text] went to the error console. *)
Definition error_logged (text : string) (w : World) : World :=
  with_calls (λ c,
    {| existsSync_calls := existsSync_calls c;
       resolve_calls := resolve_calls c; require_calls := require_calls c;
       loadConfiguration_calls := loadConfiguration_calls c;
       isTsLintVersion4_calls := isTsLintVersion4_calls c;
       lint_calls := lint_calls c;
       console_error := console_error c ++ [text];
       console_log := console_log c;
       sendDiagnostics_calls := sendDiagnostics_calls c |}) w.

(** The world after [text] went to the process's standard output. *)
Definition logged (texts : list string) (w : World) : World :=
  with_calls (λ c,
    {| existsSync_calls := existsSync_calls c;
       resolve_calls := resolve_calls c; require_calls := require_calls c;
       loadConfiguration_calls := loadConfiguration_calls c;
       isTsLintVersion4_calls := isTsLintVersion4_calls c;
       lint_calls := lint_calls c; console_error := console_error c;
       console_log := console_log c ++ texts;
       sendDiagnostics_calls := sendDiagnostics_calls c |}) w.

(** The world after a diagnostics event went out. *)
Definition diagnostics_sent (uri : string) (diagnostics : list Diagnostic.t)
  (w : World) : World :=
  with_calls (λ c,
    {| existsSync_calls := existsSync_calls c;
       resolve_calls := resolve_calls c; require_calls := require_calls c;
       loadConfiguration_calls := loadConfiguration_calls c;
       isTsLintVersion4_calls := isTsLintVersion4_calls c;
       lint_calls := lint_calls c; console_error := console_error c;
       console_log := console_log c;
       sendDiagnostics_calls :=
         sendDiagnostics_calls c ++ [(uri, diagnostics)] |}) w.

(** The worlds after an entry went into one of the per-document caches. *)
Definition library_cached (filePath : string) (library : Library)
  (w : World) : World :=
  with_caches (λ c,
    {| document2Library := <[filePath := library]> (document2Library c);
       path2Library := path2Library c;
       document2Configuration := document2Configuration c |}) w.

Definition configuration_cached (filePath : string)
  (configuration : IConfigurationFile) (w : World) : World :=
  with_caches (λ c,
    {| document2Library := document2Library c;
       path2Library := path2Library c;
       document2Configuration :=
         <[filePath := configuration]> (document2Configuration c) |}) w.

Definition path2Library_cached (tslintPath : string) (library : Library)
  (w : World) : World :=
  with_caches (λ c,
    {| document2Library := document2Library c;
       path2Library := <[tslintPath := library]> (path2Library c);
       document2Configuration := document2Configuration c |}) w.

(** The world after the configuration cache was emptied. *)
Definition configurations_cleared (w : World) : World :=
  with_caches (λ c,
    {| document2Library := document2Library c;
       path2Library := path2Library c;
       document2Configuration := ∅ |}) w.

(** ** The monad: state, exceptions, and a loop budget *)

Inductive Outcome (A : Type) : Type :=
| Returned (a : A)
| Threw (e : string)
| Diverged.
Arguments Returned {A} a.
Arguments Threw {A} e.
Arguments Diverged {A}.

Definition M (A : Type) : Type := World → Outcome A * World.

#[global] Instance M_ret : MRet M := λ A a w, (Returned a, w).

#[global] Instance M_bind : MBind M := λ A B f m w,
  match m w with
  | (Returned a, w') => f a w'
  | (Threw e, w') => (Threw e, w')
  | (Diverged, w') => (Diverged, w')
  end.

Definition throw {A : Type} (e : string) : M A := λ w, (Threw e, w).
Definition diverge {A : Type} : M A := λ w, (Diverged, w).
Definition reads {A : Type} (f : World → A) : M A := λ w, (Returned (f w), w).
Definition modify (f : World → World) : M () := λ w, (Returned (), f w).

(** ** The server's own records *)

Module TSLintAutofixEdit.
Record t := mk { range : Position * Position; text : string }.
End TSLintAutofixEdit.

Record FixTSLintResult := {
  documentVersion : Z;
  edits : list TextEdit.t
}.

(** ** The server (server.ts) *)

Section Server.
Variable env : Env.

(** *** Calls to the outside, each leaving its record *)

Definition fs_existsSync_call (p : string) : M bool :=
  modify (probe_all [p]);;
  mret (fs_existsSync env p).

Definition Files_resolve_call (from : ResolveFrom) (directory : string)
  : M (option string) :=
  modify (resolve_asked from directory);;
  mret (Files_resolve env from directory).

Definition require_call (p : string) : M Library :=
  modify (require_asked p);;
  match require env p with
  | Some library => mret library
  | None => throw "Error: Cannot find module"
  end.

Definition loadConfigurationFromPath_call (linter : LinterHandle) (p : string)
  : M IConfigurationFile :=
  modify (configuration_asked p);;
  match loadConfigurationFromPath env linter p with
  | Some configuration => mret configuration
  | None => throw "loadConfigurationFromPath failed"
  end.

Definition lint_call (linter : LinterHandle) (isTsLint4 : bool)
  (filePath contents : string) (configuration : IConfigurationFile)
  : M LintResult :=
  modify (lint_asked filePath);;
  match lint env linter isTsLint4 filePath contents configuration with
  | Some result => mret result
  | None => throw "tslint failed"
  end.

Definition console_error_call (text : string) : M () :=
  modify (error_logged text).

Definition console_log_call (text : string) : M () :=
  modify (logged [text]).

Definition sendDiagnostics (uri : string) (diagnostics : list Diagnostic.t)
  : M () :=
  modify (diagnostics_sent uri diagnostics).

(** An [await] on work done outside the process: other messages are served
    meanwhile, and the document manager applies them to the documents. *)
Definition await_suspended : M () :=
  modify (with_documents (whileSuspended env)).

(** *** The caches *)

Definition document2Library_set (filePath : string) (library : Library)
  : M () :=
  modify (library_cached filePath library).

Definition path2Library_set (tslintPath : string) (library : Library)
  : M () :=
  modify (path2Library_cached tslintPath library).

Definition document2Configuration_set (filePath : string)
  (configuration : IConfigurationFile) : M () :=
  modify (configuration_cached filePath configuration).

Definition document2Configuration_clear : M () :=
  modify configurations_cleared.

(** *** onDidChangeWatchedFiles *)

Definition onDidChangeWatchedFiles (changes : list string) : M () :=
  document2Configuration_clear;;
  foldl (λ (sofar : M ()) (uri : string),
           sofar;; console_log_call ("Detect tslint.json file change " +:+ uri))
        (mret ()) changes.

(** *** onDidClose *)

Definition onDidClose (uri : string) : M () := sendDiagnostics uri [].

(** *** loadLibrary *)

Definition loadLibrary (filePath : string) : M (option Library) :=
  let directory := path_dirname env filePath in
  found ← Files_resolve_call ProjectLocal directory;
  tslintPath ←
    match found with
    | Some p => mret p
    | None =>
        found ← Files_resolve_call GlobalNodePath directory;
        match found with
        | Some p => mret p
        | None =>
            found ← Files_resolve_call GlobalYarnPath directory;
            match found with
            | Some p => mret p
            | None => throw "Failed to resolve module: tslint"
            end
        end
    end;
  await_suspended;;
  console_log_call ("Found tslint path: " +:+ tslintPath);;
  if decide (tslintPath = "") then mret None
  else
    cached ← reads (λ w, path2Library (caches w) !! tslintPath);
    match cached with
    | Some library => mret (Some library)
    | None =>
        library ← require_call tslintPath;
        path2Library_set tslintPath library;;
        mret (Some library)
    end.

(** *** isTsLintVersion4 and getLinterFromLibrary *)

(** The value of the local [version] after the [try]: the default survives
    only when reading [library.Linter.VERSION] throws, that is when the
    module has no [Linter] member. *)
Definition probedVersion (library : Library) : option string :=
  match Linter library with
  | Some linterClass => VERSION linterClass
  | None => Some "1.0.0"
  end.

(** [semver.satisfies] is called after the [try], so what it throws leaves
    the function: [None]. *)
Definition isTsLintVersion4 (library : Library) : option bool :=
  negb <$> semver_satisfies env (probedVersion library) "<= 3.x.x".

Definition isTsLintVersion4_call (library : Library) : M bool :=
  modify version_probed;;
  match isTsLintVersion4 library with
  | Some isTsLint4 => mret isTsLint4
  | None => throw "TypeError: Invalid Version"
  end.

Definition getLinterFromLibrary (library : Library) : M LinterHandle :=
  isTsLint4 ← isTsLintVersion4_call library;
  if negb isTsLint4 then mret (ModuleAsLinter library)
  else mret (LinterMember (Linter library)).

(** *** getConfiguration *)

(** The [while] loop, on a budget of iterations: [None] is returned at the
    root, [Some currentDirectory] where the loop ends on a directory holding
    the file. *)
Fixpoint getConfiguration_loop (budget : nat) (currentDirectory : string)
  : M (option string) :=
  match budget with
  | 0 => diverge
  | S budget =>
      present ← fs_existsSync_call (path_join env currentDirectory "tslint.json");
      if (present : bool) then mret (Some currentDirectory)
      else
        let splits := JsString.split (path_sep env) currentDirectory in
        if decide (length splits = 1) then mret None
        else getConfiguration_loop budget
               (JsString.join (path_sep env) (JsString.slice_init splits))
  end.

Definition getConfiguration (filePath : string) (library : Library)
  : M (option IConfigurationFile) :=
  let currentDirectory := path_parse_dir env filePath in
  found ← getConfiguration_loop
             (length (JsString.split (path_sep env) currentDirectory))
             currentDirectory;
  match found with
  | None => mret None
  | Some currentDirectory =>
      linter ← getLinterFromLibrary library;
      configuration ← loadConfigurationFromPath_call linter
                         (path_join env currentDirectory "tslint.json");
      mret (Some configuration)
  end.

(** *** makeDiagnostic *)

Definition makeDiagnostic (problem : RuleFailure.t) : Diagnostic.t :=
  let message :=
    if decide (RuleFailure.getRuleName problem = "")
    then RuleFailure.getFailure problem
    else RuleFailure.getFailure problem +:+ " (" +:+
         RuleFailure.getRuleName problem +:+ ")" in
  {| Diagnostic.severity := Warning;
     Diagnostic.message := message;
     Diagnostic.range :=
       {| Range.start :=
            {| line := line (RuleFailure.getStartPosition problem);
               character := character (RuleFailure.getStartPosition problem) |};
          Range.end_ :=
            {| line := line (RuleFailure.getEndPosition problem);
               character := character (RuleFailure.getEndPosition problem) |} |};
     Diagnostic.code := RuleFailure.getRuleName problem;
     Diagnostic.source := "tslinter" |}.

(** *** runTSLint *)

Definition runTSLint (documentUri : string) : M (option LintResult) :=
  let parsedUri := Uri_parse env documentUri in
  if decide (Uri.scheme parsedUri ≠ "file") then
    console_error_call
      ("Failed to run tslint. The provided document URI " +:+ documentUri
       +:+ " is not a file.");;
    mret None
  else
    let filePath := Uri.fsPath parsedUri in
    (* Get tslint library *)
    cached ← reads (λ w, document2Library (caches w) !! filePath);
    library ←
      match cached with
      | Some library => mret (Some library)
      | None =>
          loaded ← loadLibrary filePath;
          match loaded with
          | None =>
              console_error_call
                "Failed to run tslint. Can't find tslint module.";;
              mret None
          | Some library =>
              document2Library_set filePath library;;
              mret (Some library)
          end
      end;
    match library with
    | None => mret None
    | Some library =>
        (* Get tslint config *)
        cached ← reads (λ w, document2Configuration (caches w) !! filePath);
        configuration ←
          match cached with
          | Some configuration => mret (Some configuration)
          | None =>
              loaded ← getConfiguration filePath library;
              match loaded with
              | None =>
                  console_error_call
                    "Failed to run tslint. No tslint configuration file.";;
                  mret None
              | Some configuration =>
                  document2Configuration_set filePath configuration;;
                  mret (Some configuration)
              end
          end;
        match configuration with
        | None => mret None
        | Some configuration =>
            (* Run tslint on document *)
            document ← reads (λ w, documents w !! documentUri);
            match document with
            | None => throw "TypeError: Cannot read property 'getText' of undefined"
            | Some document =>
                let contents := TextDocument.getText document in
                linter ← getLinterFromLibrary library;
                isTsLint4 ← isTsLintVersion4_call library;
                result ← lint_call linter isTsLint4 filePath contents
                           configuration;
                mret (Some result)
            end
        end
    end.

(** *** The run request *)

(** The [forEach] that pushes one diagnostic per failure. *)
Definition diagnosticsOf (lintErrors : option LintResult)
  : list Diagnostic.t :=
  match lintErrors with
  | Some result =>
      foldl (λ diagnostics failure, diagnostics ++ [makeDiagnostic failure])
            [] (failures result)
  | None => []
  end.

Definition onRunTSLintRequest (uri : string) : M () :=
  lintErrors ← runTSLint uri;
  sendDiagnostics uri (diagnosticsOf lintErrors).

(** *** The run request of the earlier server (server/src/server.ts)

    The earlier server has neither the fix request nor [runTSLint]: its run
    request goes through the same steps itself, leaves at each failure
    without a word to the client, and sends diagnostics only after a lint
    pass.  Its other functions are those above, letter for letter. *)

Definition onRunTSLintRequest_earlier (documentUri : string) : M () :=
  let parsedUri := Uri_parse env documentUri in
  if decide (Uri.scheme parsedUri ≠ "file") then
    console_error_call
      ("Failed to run tslint. The provided document URI " +:+ documentUri
       +:+ " is not a file.")
  else
    let filePath := Uri.fsPath parsedUri in
    cached ← reads (λ w, document2Library (caches w) !! filePath);
    library ←
      match cached with
      | Some library => mret (Some library)
      | None =>
          loaded ← loadLibrary filePath;
          match loaded with
          | None =>
              console_error_call
                "Failed to run tslint. Can't find tslint module.";;
              mret None
          | Some library =>
              document2Library_set filePath library;;
              mret (Some library)
          end
      end;
    match library with
    | None => mret ()
    | Some library =>
        cached ← reads (λ w, document2Configuration (caches w) !! filePath);
        configuration ←
          match cached with
          | Some configuration => mret (Some configuration)
          | None =>
              loaded ← getConfiguration filePath library;
              match loaded with
              | None =>
                  console_error_call
                    "Failed to run tslint. No tslint configuration file.";;
                  mret None
              | Some configuration =>
                  document2Configuration_set filePath configuration;;
                  mret (Some configuration)
              end
          end;
        match configuration with
        | None => mret ()
        | Some configuration =>
            document ← reads (λ w, documents w !! documentUri);
            match document with
            | None => throw "TypeError: Cannot read property 'getText' of undefined"
            | Some document =>
                let contents := TextDocument.getText document in
                linter ← getLinterFromLibrary library;
                isTsLint4 ← isTsLintVersion4_call library;
                result ← lint_call linter isTsLint4 filePath contents
                           configuration;
                sendDiagnostics documentUri (diagnosticsOf (Some result))
            end
        end
    end.

(** *** The fix request *)

Definition convertReplacementToAutoFix (document : TextDocument.t)
  (repl : Replacement.t) : TSLintAutofixEdit.t :=
  let start := TextDocument.positionAt document (Replacement.start repl) in
  let end_ := TextDocument.positionAt document (Replacement.end_ repl) in
  {| TSLintAutofixEdit.range := (start, end_);
     TSLintAutofixEdit.text := Replacement.text repl |}.

(** One round of the first [forEach]: what a failure adds to [autoFixes].
    A fix with a [replacements] member is the tslint 4 shape; of the two
    others, the one that is not an array is first put into one. *)
Definition autoFixes_step (document : TextDocument.t)
  (autoFixes : list (list TSLintAutofixEdit.t)) (failure : RuleFailure.t)
  : list (list TSLintAutofixEdit.t) :=
  match RuleFailure.getFix failure with
  | Some (Some (FixWithReplacements replacements)) =>
      let edits := convertReplacementToAutoFix document <$> replacements in
      if decide (0 < length edits) then autoFixes ++ [edits] else autoFixes
  | Some (Some (FixArray items)) =>
      let edits := convertReplacementToAutoFix document <$> items in
      if decide (0 < length edits) then autoFixes ++ [edits] else autoFixes
  | Some (Some (FixSingle item)) =>
      let fix_ := [item] in
      let edits := convertReplacementToAutoFix document <$> fix_ in
      if decide (0 < length edits) then autoFixes ++ [edits] else autoFixes
  | Some None | None => autoFixes
  end.

(** One round of the second [forEach]. *)
Definition textEdits_step (textEdits : list TextEdit.t)
  (fix_ : list TSLintAutofixEdit.t) : list TextEdit.t :=
  let currentFixTextEdits :=
    (λ each,
       TextEdit.replace
         (Range.create (TSLintAutofixEdit.range each).1
                       (TSLintAutofixEdit.range each).2)
         (if decide (TSLintAutofixEdit.text each = "") then ""
          else TSLintAutofixEdit.text each)) <$> fix_ in
  textEdits ++ currentFixTextEdits.

(** The edits the handler answers with, from the failures of a lint run. *)
Definition textEditsOf (document : TextDocument.t)
  (failures : list RuleFailure.t) : list TextEdit.t :=
  let autoFixes := foldl (autoFixes_step document) [] failures in
  foldl textEdits_step [] autoFixes.

(** The document manager updates a document object in place, so the
    handler's [document] shows, when it is used after the lint run, what the
    manager then holds for the URI. *)
Definition onFixTSLintRequest (uri : string) : M FixTSLintResult :=
  document ← reads (λ w, documents w !! uri);
  match document with
  | None => throw "TypeError: Cannot read property 'version' of undefined"
  | Some document =>
      let documentVersion := TextDocument.version document in
      lintErrors ← runTSLint uri;
      match lintErrors with
      | None => mret {| documentVersion := documentVersion; edits := [] |}
      | Some result =>
          document ← reads (λ w, default document (documents w !! uri));
          mret {| documentVersion := documentVersion;
                  edits := textEditsOf document (failures result) |}
      end
  end.

End Server.

(** ** A small Windows workspace to run the server on

    Two TypeScript files side by side in [c:\proj\src], a [tslint.json]
    next to them and another one at the root of the drive, tslint 5.8.0
    installed in the project. *)

Module Demo.

Definition backslash : ascii := "\"%char.

Definition uri_a : string := "file:///c%3A/proj/src/a.ts".
Definition uri_b : string := "file:///c%3A/proj/src/b.ts".
Definition uri_untitled : string := "untitled:Untitled-1".
Definition path_a : string := "c:\proj\src\a.ts".
Definition path_b : string := "c:\proj\src\b.ts".
Definition tslint_module : string := "c:\proj\node_modules\tslint\lib\index.js".

Definition parse_uri (uri : string) : Uri.t :=
  if decide (uri = uri_a) then Uri.mk "file" path_a
  else if decide (uri = uri_b) then Uri.mk "file" path_b
  else Uri.mk "untitled" "Untitled-1".

(** Everything before the last separator; enough for the paths used here. *)
Definition dirname (p : string) : string :=
  JsString.join backslash (JsString.slice_init (JsString.split backslash p)).

Definition join2 (a b : string) : string := a +:+ String backslash b.

Definition on_disk : list string :=
  ["c:\proj\src\tslint.json"; "c:\tslint.json"].

Definition is_on_disk (p : string) : bool := bool_decide (p ∈ on_disk).

Definition resolve_installed (from : ResolveFrom) (directory : string)
  : option string :=
  match from with
  | ProjectLocal => Some tslint_module
  | _ => None
  end.

Definition resolve_nowhere (from : ResolveFrom) (directory : string)
  : option string := None.

Definition tslint_5_8 (p : string) : Library :=
  {| resolvedFrom := p; Linter := Some {| VERSION := Some "5.8.0" |} |}.

(** The major number of a version string: its digits up to the first dot. *)
Fixpoint major_of (sofar : nat) (v : string) : option nat :=
  match v with
  | EmptyString => None
  | String c rest =>
      if decide (c = "."%char) then Some sofar
      else match Ascii.is_nat c with
           | Some d => major_of (10 * sofar + d) rest
           | None => None
           end
  end.

(** Whether [v] is made of digits and dots, with [dots] dots left to come
    and a digit before and after each. *)
Fixpoint plain_version (dots : nat) (digit_seen : bool) (v : string) : bool :=
  match v with
  | EmptyString => digit_seen && bool_decide (dots = 0)
  | String c rest =>
      if decide (c = "."%char) then
        match dots with
        | S dots' => digit_seen && plain_version dots' false rest
        | 0 => false
        end
      else match Ascii.is_nat c with
           | Some _ => plain_version dots true rest
           | None => false
           end
  end.

(** semver's answer for the one range the server asks about, on a missing
    version and on versions of three numbers (pre-release and build tags
    are not used here): a missing version satisfies nothing, a version
    satisfies [<= 3.x.x] when its major number is at most 3, and for a
    string that is not a version semver throws. *)
Definition satisfies (version : option string) (range : string)
  : option bool :=
  match version with
  | None => Some false
  | Some v =>
      if plain_version 2 false v then
        match major_of 0 v with
        | Some major => Some (bool_decide (major ≤ 3))
        | None => None
        end
      else None
  end.

Definition load_configuration (linter : LinterHandle) (p : string)
  : option IConfigurationFile :=
  Some {| rulesDirectory := [p]; rules := ["no-var-keyword"] |}.

Definition no_var_keyword : RuleFailure.t :=
  {| RuleFailure.getFailure := "Forbidden 'var' keyword, use 'let' or 'const' instead";
     RuleFailure.getRuleName := "no-var-keyword";
     RuleFailure.getStartPosition := {| line := 0; character := 0 |};
     RuleFailure.getEndPosition := {| line := 0; character := 3 |};
     RuleFailure.getFix :=
       Some (Some (FixSingle (Replacement.mk 0 3 "let"))) |}.

(** One failure for a text that starts with [var], none otherwise. *)
Definition lint_pass (linter : LinterHandle) (isTsLint4 : bool)
  (filePath contents : string) (configuration : IConfigurationFile)
  : option LintResult :=
  if decide (String.substring 0 3 contents = "var")
  then Some {| failures := [no_var_keyword] |}
  else Some {| failures := [] |}.


Definition env_with
  (resolve : ResolveFrom → string → option string)
  (linting : LinterHandle → bool → string → string → IConfigurationFile
             → option LintResult)
  (meanwhile : gmap string TextDocument.t → gmap string TextDocument.t)
  : Env :=
  {| Uri_parse := parse_uri;
     path_sep := backslash;
     path_dirname := dirname;
     path_parse_dir := dirname;
     path_join := join2;
     fs_existsSync := is_on_disk;
     Files_resolve := resolve;
     require := λ p, Some (tslint_5_8 p);
     semver_satisfies := satisfies;
     loadConfigurationFromPath := load_configuration;
     lint := linting;
     whileSuspended := meanwhile |}.

Definition env : Env := env_with resolve_installed lint_pass id.

(** The user types while the request is suspended: version 8 of [a.ts]. *)
Definition user_edits (docs : gmap string TextDocument.t)
  : gmap string TextDocument.t :=
  <[uri_a := TextDocument.mk 8 "let y = 2;"]> docs.

Definition open_documents : gmap string TextDocument.t :=
  <[uri_a := TextDocument.mk 7 "var x = 1;"]>
  (<[uri_b := TextDocument.mk 1 "let z = 3;"]>
  (<[uri_untitled := TextDocument.mk 2 "notes"]> ∅)).

(** A text of two lines, the first ended by a carriage return and a line
    feed. *)
Definition two_lines : TextDocument.t :=
  TextDocument.mk 1
    ("let a;" +:+ String "013"%char (String "010"%char "var x = 1;")).

Definition failure_with (fix_ : option (option Fix)) : RuleFailure.t :=
  {| RuleFailure.getFailure := "Forbidden 'var' keyword, use 'let' or 'const' instead";
     RuleFailure.getRuleName := "no-var-keyword";
     RuleFailure.getStartPosition := {| line := 1; character := 0 |};
     RuleFailure.getEndPosition := {| line := 1; character := 3 |};
     RuleFailure.getFix := fix_ |}.

Definition fresh : World :=
  {| caches := {| document2Library := ∅; path2Library := ∅;
                  document2Configuration := ∅ |};
     documents := open_documents;
     calls := no_calls |}.

End Demo.

(** ** The fix synthesizer as the specification words it

    A fix is first brought to one list of replacements: the [replacements]
    member where the fix has one, the fix itself where it is a list, a
    one-element list where it is a single replacement, nothing where the
    failure has no fix.  Each replacement then becomes one text edit. *)

Definition replacementsOf (failure : RuleFailure.t) : list Replacement.t :=
  match RuleFailure.getFix failure with
  | Some (Some (FixWithReplacements replacements)) => replacements
  | Some (Some (FixArray items)) => items
  | Some (Some (FixSingle item)) => [item]
  | Some None | None => []
  end.

Definition textEditOf (document : TextDocument.t) (repl : Replacement.t)
  : TextEdit.t :=
  TextEdit.replace
    (Range.create
       (TextDocument.positionAt document (Replacement.start repl))
       (TextDocument.positionAt document (Replacement.end_ repl)))
    (Replacement.text repl).

(** ** The directory ascent, level by level

    The directory a file lies in is cut at the separators into [pieces];
    level [k] is the directory made of the first [k] pieces, so that the
    file's own directory is the deepest level and level 1, a single piece,
    is where the ascent ends. *)

Definition ancestor (env : Env) (pieces : list string) (k : nat) : string :=
  JsString.join (path_sep env) (take k pieces).

Definition candidate (env : Env) (pieces : list string) (k : nat) : string :=
  path_join env (ancestor env pieces k) "tslint.json".

(** The deepest level at or below [k] whose directory holds the file. *)
Fixpoint nearest (env : Env) (pieces : list string) (k : nat) : option nat :=
  match k with
  | 0 => None
  | S k' =>
      if fs_existsSync env (candidate env pieces k) then Some k
      else nearest env pieces k'
  end.

(** The levels looked at when the ascent starts at level [k]. *)
Fixpoint probed_levels (env : Env) (pieces : list string) (k : nat)
  : list nat :=
  match k with
  | 0 => []
  | S k' =>
      k :: (if fs_existsSync env (candidate env pieces k) then []
            else probed_levels env pieces k')
  end.

(** The handle [getLinterFromLibrary] picks on the answer of the version
    probe, and the handle it returns, if the probe does not throw. *)
Definition handleOf (library : Library) (isTsLint4 : bool) : LinterHandle :=
  if negb isTsLint4 then ModuleAsLinter library
  else LinterMember (Linter library).

Definition linterOf (env : Env) (library : Library) : option LinterHandle :=
  handleOf library <$> isTsLintVersion4 env library.

(** The directory [getConfiguration] starts from, in pieces. *)
Definition pieces_of (env : Env) (filePath : string) : list string :=
  JsString.split (path_sep env) (path_parse_dir env filePath).

(** The end of [runTSLint], from "Run tslint on document" on. *)
Definition lintStage (env : Env) (documentUri filePath : string)
  (library : Library) (configuration : IConfigurationFile) (w : World)
  : Outcome (option LintResult) * World :=
  match documents w !! documentUri with
  | None =>
      (Threw "TypeError: Cannot read property 'getText' of undefined", w)
  | Some document =>
      match isTsLintVersion4 env library with
      | None => (Threw "TypeError: Invalid Version", version_probed w)
      | Some isTsLint4 =>
          let w' := lint_asked filePath (version_probed (version_probed w)) in
          match lint env (handleOf library isTsLint4) isTsLint4
                  filePath (TextDocument.getText document) configuration with
          | Some result => (Returned (Some result), w')
          | None => (Threw "tslint failed", w')
          end
      end
  end.

(** The rest of [runTSLint] once it holds the library, from "Get tslint
    config" on. *)
Definition configurationStage (env : Env) (documentUri filePath : string)
  (library : Library) (w : World) : Outcome (option LintResult) * World :=
  match document2Configuration (caches w) !! filePath with
  | Some configuration =>
      lintStage env documentUri filePath library configuration w
  | None =>
      match getConfiguration env filePath library w with
      | (Returned (Some configuration), w') =>
          lintStage env documentUri filePath library configuration
            (configuration_cached filePath configuration w')
      | (Returned None, w') =>
          (Returned None,
           error_logged "Failed to run tslint. No tslint configuration file." w')
      | (Threw e, w') => (Threw e, w')
      | (Diverged, w') => (Diverged, w')
      end
  end.

(** ** Library resolution, in one piece *)

(** The path [loadLibrary] ends up with: that of the first of the three
    resolutions that is not rejected. *)
Definition resolvedPath (env : Env) (directory : string) : option string :=
  match Files_resolve env ProjectLocal directory with
  | Some p => Some p
  | None =>
      match Files_resolve env GlobalNodePath directory with
      | Some p => Some p
      | None => Files_resolve env GlobalYarnPath directory
      end
  end.

(** The resolutions it asks for on the way. *)
Definition resolutions_tried (env : Env) (directory : string)
  : list (ResolveFrom * string) :=
  match Files_resolve env ProjectLocal directory with
  | Some _ => [(ProjectLocal, directory)]
  | None =>
      match Files_resolve env GlobalNodePath directory with
      | Some _ => [(ProjectLocal, directory); (GlobalNodePath, directory)]
      | None => [(ProjectLocal, directory); (GlobalNodePath, directory);
                 (GlobalYarnPath, directory)]
      end
  end.

Definition resolves_asked (tried : list (ResolveFrom * string)) (w : World)
  : World :=
  foldl (λ w t, resolve_asked t.1 t.2 w) w tried.

(** The world in which [loadLibrary] looks into [path2Library]. *)
Definition path_found (env : Env) (directory tslintPath : string) (w : World)
  : World :=
  logged ["Found tslint path: " +:+ tslintPath]
    (with_documents (whileSuspended env)
       (resolves_asked (resolutions_tried env directory) w)).

(** ** The server as a process

    The messages the server is sent, and the world they leave whatever the
    outcome.  Opening, changing and closing a document are handled by the
    document manager of the language-server library, which keeps its store
    in step and, on a close, calls the server's own handler. *)

Inductive Message :=
| RunTSLint (uri : string)
| FixTSLint (uri : string)
| DidChangeWatchedFiles (changes : list string)
| DidOpenOrChange (uri : string) (document : TextDocument.t)
| DidClose (uri : string).

Definition serve (env : Env) (m : Message) (w : World) : World :=
  match m with
  | RunTSLint uri => (onRunTSLintRequest env uri w).2
  | FixTSLint uri => (onFixTSLintRequest env uri w).2
  | DidChangeWatchedFiles changes => (onDidChangeWatchedFiles changes w).2
  | DidOpenOrChange uri document =>
      with_documents (<[uri := document]>) w
  | DidClose uri => (onDidClose uri (with_documents (delete uri) w)).2
  end.

(** The server right after its start: empty caches, no document, no call. *)
Definition started : World :=
  {| caches := {| document2Library := ∅; path2Library := ∅;
                  document2Configuration := ∅ |};
     documents := ∅;
     calls := no_calls |}.

Definition after (env : Env) (ms : list Message) : World :=
  foldl (λ w m, serve env m w) started ms.

(** The same world with its caches emptied. *)
Definition uncached (w : World) : World :=
  with_caches (λ _, {| document2Library := ∅; path2Library := ∅;
                       document2Configuration := ∅ |}) w.

(** What the caches hold, measured against the world outside: a library
    under a path is the module required from that path; the library of a
    file is the one under the path tslint resolves to from the file's
    directory; the configuration of a file is what the loader makes, through
    the file's library, of the nearest configuration file; and the modules
    that loaded are those under the paths of [path2Library], each required
    once. *)
Record coherent (env : Env) (w : World) : Prop := {
  libraries_as_required :
    ∀ p library, path2Library (caches w) !! p = Some library →
      p ≠ "" ∧ require env p = Some library;
  libraries_as_resolved :
    ∀ f library, document2Library (caches w) !! f = Some library →
      ∃ p, resolvedPath env (path_dirname env f) = Some p ∧
           path2Library (caches w) !! p = Some library;
  configurations_as_resolved :
    ∀ f configuration,
      document2Configuration (caches w) !! f = Some configuration →
      ∃ library j linter,
        document2Library (caches w) !! f = Some library ∧
        nearest env (pieces_of env f) (length (pieces_of env f)) = Some j ∧
        linterOf env library = Some linter ∧
        loadConfigurationFromPath env linter
          (candidate env (pieces_of env f) j) = Some configuration;
  required_once :
    NoDup (filter (λ p, is_Some (require env p)) (require_calls (calls w))) ∧
    ∀ p, is_Some (path2Library (caches w) !! p) ↔
         p ∈ require_calls (calls w) ∧ is_Some (require env p)
}.

(** What a lint run answers when no cache is consulted: a function of the
    world outside and of the open documents alone. *)
Definition lintAnswer (env : Env) (docs : gmap string TextDocument.t)
  (documentUri : string) : Outcome (option LintResult) :=
  if decide (Uri.scheme (Uri_parse env documentUri) ≠ "file")
  then Returned None
  else
    let filePath := Uri.fsPath (Uri_parse env documentUri) in
    match resolvedPath env (path_dirname env filePath) with
    | None => Threw "Failed to resolve module: tslint"
    | Some tslintPath =>
        if decide (tslintPath = "") then Returned None
        else
          match require env tslintPath with
          | None => Threw "Error: Cannot find module"
          | Some library =>
              let pieces := pieces_of env filePath in
              match nearest env pieces (length pieces) with
              | None => Returned None
              | Some j =>
                  match isTsLintVersion4 env library with
                  | None => Threw "TypeError: Invalid Version"
                  | Some isTsLint4 =>
                      match loadConfigurationFromPath env
                              (handleOf library isTsLint4)
                              (candidate env pieces j) with
                      | None => Threw "loadConfigurationFromPath failed"
                      | Some configuration =>
                          match docs !! documentUri with
                          | None =>
                              Threw "TypeError: Cannot read property 'getText' of undefined"
                          | Some document =>
                              match lint env (handleOf library isTsLint4)
                                      isTsLint4 filePath
                                      (TextDocument.getText document)
                                      configuration
                              with
                              | Some result => Returned (Some result)
                              | None => Threw "tslint failed"
                              end
                          end
                      end
                  end
              end
          end
    end.

(** ** A workspace without any configuration file

    The workspace of [Demo] with no [tslint.json] anywhere on the disk. *)

Module Bare.

Definition env : Env :=
  {| Uri_parse := Demo.parse_uri;
     path_sep := Demo.backslash;
     path_dirname := Demo.dirname;
     path_parse_dir := Demo.dirname;
     path_join := Demo.join2;
     fs_existsSync := λ _, false;
     Files_resolve := Demo.resolve_installed;
     require := λ p, Some (Demo.tslint_5_8 p);
     semver_satisfies := Demo.satisfies;
     loadConfigurationFromPath := Demo.load_configuration;
     lint := Demo.lint_pass;
     whileSuspended := id |}.

End Bare.

(** ** The client (extension.ts)

    The two commands of the extension and [applyTextEdits].  The editor,
    the message boxes and the language client belong to VS Code: what the
    client does to them is recorded, oldest first, and what they answer is
    given from outside, as a function of what has happened so far.  A
    promise the client waits for is settled either way; while it waits, the
    user may turn to another editor or go on typing. *)

Module Client.

(** The active text editor, as far as the client looks at it:
    [document.uri.toString()] and [document.version]. *)
Record TextEditor := { uri : string; version : Z }.

Inductive Event :=
| RunTSLintRequested (uri : string)
| FixTSLintRequested (uri : string)
| ErrorMessageShown (text : string)
| InformationMessageShown (text : string)
| EditSubmitted (uri : string) (replaces : list (Range.t * string)).

Inductive Settled (A : Type) : Type :=
| Fulfilled (a : A)
| Rejected (error : string).
Arguments Fulfilled {A} a.
Arguments Rejected {A} error.

Record Env := {
  (** how [client.sendRequest] settles for the run request and for the fix
      request; a fix request may be fulfilled with nothing *)
  runTSLint_answer : list Event → string → Settled ();
  fixTSLint_answer : list Event → string → Settled (option FixTSLintResult);
  (** how [textEditor.edit] settles: with its success flag, or rejected *)
  edit_answer :
    list Event → TextEditor → list (Range.t * string) → Settled bool;
  (** what becomes of [window.activeTextEditor] while a promise is awaited *)
  whileAwaiting : list Event → option TextEditor → option TextEditor
}.

Record State := {
  activeTextEditor : option TextEditor;
  events : list Event
}.

Definition recorded (e : Event) (s : State) : State :=
  {| activeTextEditor := activeTextEditor s; events := events s ++ [e] |}.

Definition awaited (env : Env) (s : State) : State :=
  {| activeTextEditor := whileAwaiting env (events s) (activeTextEditor s);
     events := events s |}.

(** [client.sendRequest(RunTSLintRequest.type, ...)] with its rejection
    handler, as both commands have it. *)
Definition sendRunTSLintRequest (env : Env) (uri : string) (s : State)
  : State :=
  let s1 := recorded (RunTSLintRequested uri) s in
  match runTSLint_answer env (events s1) uri with
  | Fulfilled _ => awaited env s1
  | Rejected error =>
      recorded (ErrorMessageShown ("Failed to run tslint. " +:+ error))
        (awaited env s1)
  end.

Definition runTSLint (env : Env) (s : State) : State :=
  match activeTextEditor s with
  | None => s
  | Some textEditor => sendRunTSLintRequest env (uri textEditor) s
  end.

(** The [for] loop of the edit callback: one [mutator.replace] per edit. *)
Definition replacesOf (edits : list TextEdit.t) : list (Range.t * string) :=
  foldl (λ replaces edit,
           replaces ++ [(TextEdit.range edit, TextEdit.newText edit)])
        [] edits.

Definition applyTextEdits (env : Env) (uri : string) (documentVersion : Z)
  (edits : list TextEdit.t) (s : State) : Settled () * State :=
  match activeTextEditor s with
  | Some textEditor =>
      if decide (Client.uri textEditor = uri) then
        let s1 :=
          if decide (version textEditor ≠ documentVersion)
          then recorded
                 (InformationMessageShown
                    "TSLint fixes are outdated and can't be applied to the document.")
                 s
          else s in
        let replaces := replacesOf edits in
        let s2 := recorded (EditSubmitted (Client.uri textEditor) replaces) s1 in
        match edit_answer env (events s2) textEditor replaces with
        | Fulfilled success =>
            if (success : bool) then (Fulfilled (), awaited env s2)
            else
              (Fulfilled (),
               recorded
                 (ErrorMessageShown
                    "Failed to apply TSLint fixes to the document. Please consider opening an issue with steps to reproduce.")
                 (awaited env s2))
        | Rejected error => (Rejected error, awaited env s2)
        end
      else (Fulfilled (), s)
  | None => (Fulfilled (), s)
  end.

Definition fixTSLintError (env : Env) (s : State) : State :=
  match activeTextEditor s with
  | None => s
  | Some textEditor =>
      let uri := Client.uri textEditor in
      let s1 := recorded (FixTSLintRequested uri) s in
      match fixTSLint_answer env (events s1) uri with
      | Fulfilled (Some result) =>
          match applyTextEdits env uri (documentVersion result) (edits result)
                  (awaited env s1) with
          | (Fulfilled _, s2) =>
              (* Run tslint again to update the diagnostics *)
              sendRunTSLintRequest env uri s2
          | (Rejected _, s2) => s2
          end
      | Fulfilled None => awaited env s1
      | Rejected error =>
          recorded
            (ErrorMessageShown ("Failed to fix tslint error. " +:+ error))
            (awaited env s1)
      end
  end.

(** What a command has added to the record. *)
Definition added (before after : State) : list Event :=
  drop (length (events before)) (events after).

(** The document an event is about, for a request or an edit. *)
Definition about (e : Event) : option string :=
  match e with
  | RunTSLintRequested uri | FixTSLintRequested uri | EditSubmitted uri _ =>
      Some uri
  | ErrorMessageShown _ | InformationMessageShown _ => None
  end.

(** A session: the fix is answered with one edit for version 7 of [a.ts];
    the edit goes through; meanwhile the user has typed, or has turned to
    [b.ts]. *)
Definition one_fix : FixTSLintResult :=
  {| documentVersion := 7;
     edits := [TextEdit.replace
                 (Range.create {| line := 0; character := 0 |}
                               {| line := 0; character := 3 |}) "let"] |}.

Definition env_with (meanwhile : option TextEditor → option TextEditor) : Env :=
  {| runTSLint_answer := λ _ _, Fulfilled ();
     fixTSLint_answer := λ _ _, Fulfilled (Some one_fix);
     edit_answer := λ _ _ _, Fulfilled true;
     whileAwaiting := λ _, meanwhile |}.

Definition on_a : State :=
  {| activeTextEditor := Some {| uri := Demo.uri_a; version := 7 |};
     events := [] |}.

End Client.

(** ** A network share

    A file on a share, the paths as [path.win32] has them: the directory of
    [\\server\share\proj\a.ts] is [\\server\share\proj]; [path.join] puts a
    separator between its two arguments and normalizes, which leaves an
    empty first argument out, makes one separator of the two in
    [\\tslint.json], and closes a share root that has nothing after it with
    a separator.  The one configuration file is [tslint.json] in the working
    directory of the server process. *)

Module Unc.

Definition server : string := "\\server".
Definition share : string := "\\server\share".
Definition path_a : string := "\\server\share\proj\a.ts".

Definition join2 (a b : string) : string :=
  if decide (a = "") then b
  else if decide (a = "\") then a +:+ b
  else if decide (a = server) then a +:+ "\" +:+ b +:+ "\"
  else a +:+ "\" +:+ b.

Definition env : Env :=
  {| Uri_parse := Demo.parse_uri;
     path_sep := Demo.backslash;
     path_dirname := Demo.dirname;
     path_parse_dir := Demo.dirname;
     path_join := join2;
     fs_existsSync := λ p, bool_decide (p = "tslint.json");
     Files_resolve := Demo.resolve_installed;
     require := λ p, Some (Demo.tslint_5_8 p);
     semver_satisfies := Demo.satisfies;
     loadConfigurationFromPath := Demo.load_configuration;
     lint := Demo.lint_pass;
     whileSuspended := id |}.

End Unc.

(** ** A file at the root of a drive

    For [c:\a.ts], [path.parse] gives the directory [c:\], the root with
    its separator; [path.join] puts no second separator after it.  No
    configuration file anywhere. *)

Module DriveRoot.

Definition path_a : string := "c:\a.ts".

Fixpoint ends_with (c : ascii) (s : string) : bool :=
  match s with
  | EmptyString => false
  | String d EmptyString => bool_decide (d = c)
  | String _ rest => ends_with c rest
  end.

Definition parse_dir (p : string) : string :=
  if decide (p = path_a) then "c:\" else Demo.dirname p.

Definition join2 (a b : string) : string :=
  if ends_with Demo.backslash a then a +:+ b else a +:+ "\" +:+ b.

Definition env : Env :=
  {| Uri_parse := Demo.parse_uri;
     path_sep := Demo.backslash;
     path_dirname := parse_dir;
     path_parse_dir := parse_dir;
     path_join := join2;
     fs_existsSync := λ _, false;
     Files_resolve := Demo.resolve_installed;
     require := λ p, Some (Demo.tslint_5_8 p);
     semver_satisfies := Demo.satisfies;
     loadConfigurationFromPath := Demo.load_configuration;
     lint := Demo.lint_pass;
     whileSuspended := id |}.

End DriveRoot.

(** * Facts *)

(** ** Strings *)

Section JsStringFacts.
Import JsString.
Variable sep : ascii.

Lemma split_nonempty (s : string) : split sep s ≠ [].
Proof.
  destruct s as [|c rest]; simpl; [done|].
  case_decide; [done|]. by destruct (split sep rest).
Qed.

Lemma split_length_pos (s : string) : 1 ≤ length (split sep s).
Proof.
  pose proof (split_nonempty s). destruct (split sep s); simpl; [done|lia].
Qed.

Lemma split_pieces_free (s : string) : Forall (free_of sep) (split sep s).
Proof.
  induction s as [|c rest IH]; simpl.
  - by repeat constructor.
  - case_decide.
    + by constructor.
    + destruct (split sep rest) as [|piece pieces] eqn:E.
      * by repeat constructor.
      * inversion IH; subst. constructor; [by split|done].
Qed.

Lemma split_free (s : string) : free_of sep s → split sep s = [s].
Proof.
  induction s as [|c rest IH]; simpl; [done|].
  intros [Hc Hrest]. rewrite decide_False by done. by rewrite IH.
Qed.

Lemma split_app_sep (piece rest : string) :
  free_of sep piece →
  split sep (piece +:+ String sep rest) = piece :: split sep rest.
Proof.
  induction piece as [|c piece IH]; simpl.
  - intros _. by rewrite decide_True.
  - intros [Hc Hp]. rewrite decide_False by done. by rewrite IH.
Qed.

(** Splitting what was joined gives the pieces back. *)
Lemma split_join (pieces : list string) :
  pieces ≠ [] → Forall (free_of sep) pieces →
  split sep (join sep pieces) = pieces.
Proof.
  induction pieces as [|piece more IH]; [done|].
  intros _ Hfree. inversion Hfree as [|? ? Hp Hmore]; subst.
  destruct more as [|next more'].
  - simpl. by apply split_free.
  - change (join sep (piece :: next :: more'))
      with (piece +:+ String sep (join sep (next :: more'))).
    rewrite split_app_sep by done. f_equal. by apply IH.
Qed.

(** Joining what was split gives the string back. *)
Lemma join_split (s : string) : join sep (split sep s) = s.
Proof.
  induction s as [|c rest IH]; simpl; [done|].
  case_decide as Hc.
  - subst c. pose proof (split_nonempty rest) as Hne.
    destruct (split sep rest) as [|piece pieces] eqn:E; [done|].
    simpl in *. by rewrite IH.
  - pose proof (split_nonempty rest) as Hne.
    destruct (split sep rest) as [|piece pieces] eqn:E; [done|].
    destruct pieces as [|next pieces']; simpl in *; by rewrite <- IH.
Qed.

End JsStringFacts.

(** ** Documents: offsets and positions *)

Section TextDocumentFacts.
Import TextDocument.

Lemma leastLarger_bound (lineOffsets : list nat) (offset : nat) :
  leastLarger lineOffsets offset ≤ length lineOffsets.
Proof.
  induction lineOffsets as [|x more IH]; simpl; [lia|].
  case_decide; lia.
Qed.

(** Every line before the one found starts at or before the offset. *)
Lemma leastLarger_before (lineOffsets : list nat) (offset i : nat) :
  i < leastLarger lineOffsets offset → nth i lineOffsets 0 ≤ offset.
Proof.
  revert i. induction lineOffsets as [|x more IH]; simpl; intros i Hi; [lia|].
  case_decide; [lia|]. destruct i as [|i]; [lia|]. apply IH. lia.
Qed.

(** The line found, when there is one, starts after the offset. *)
Lemma leastLarger_at (lineOffsets : list nat) (offset : nat) :
  leastLarger lineOffsets offset < length lineOffsets →
  offset < nth (leastLarger lineOffsets offset) lineOffsets 0.
Proof.
  induction lineOffsets as [|x more IH]; simpl; [lia|].
  case_decide; [done|]. intros ?. apply IH. lia.
Qed.

Lemma scanLineOffsets_head (text : string) (i : nat) :
  ∃ more, scanLineOffsets text i true = i :: more.
Proof.
  destruct text as [|ch [|ch' rest']]; simpl; eauto.
  destruct (_ && _); eauto.
Qed.

Lemma getLineOffsets_empty (doc : t) :
  getLineOffsets doc = [] → String.length (getText doc) = 0.
Proof.
  unfold getLineOffsets. destruct (getText doc) as [|ch rest] eqn:E; [done|].
  destruct (scanLineOffsets_head (String ch rest) 0) as [more ->]. done.
Qed.

Lemma getLineOffsets_head (doc : t) :
  getLineOffsets doc ≠ [] → ∃ more, getLineOffsets doc = 0 :: more.
Proof.
  unfold getLineOffsets. destruct (getText doc) as [|ch rest]; [done|].
  intros _. apply scanLineOffsets_head.
Qed.

(** An offset inside the text survives the trip to a position and back. *)
Lemma offsetAt_positionAt (doc : t) (offset : nat) :
  offset ≤ String.length (getText doc) →
  offsetAt doc (positionAt doc offset) = offset.
Proof.
  intros Hin. unfold positionAt, offsetAt.
  rewrite Nat.min_l by done.
  destruct (getLineOffsets doc) as [|first more] eqn:Hoffsets.
  - apply getLineOffsets_empty in Hoffsets. simpl. lia.
  - destruct (getLineOffsets_head doc) as [more' Hhead]; [by rewrite Hoffsets|].
    assert (first = 0) as -> by congruence.
    set (lineOffsets := 0 :: more) in *.
    set (low := leastLarger lineOffsets offset).
    assert (1 ≤ low) as Hlow.
    { subst low lineOffsets. cbn [leastLarger]. destruct (decide (offset < 0)); lia. }
    pose proof (leastLarger_bound lineOffsets offset) as Hbound.
    pose proof (leastLarger_before lineOffsets offset (low - 1)) as Hbefore.
    pose proof (leastLarger_at lineOffsets offset) as Hat.
    fold low in Hbound, Hbefore, Hat.
    destruct (decide (length lineOffsets = 0)) as [Hzero|_]; [lia|].
    cbn [line character].
    replace (low - 1 + 1) with low by lia.
    destruct (decide (length lineOffsets ≤ low - 1)); [lia|].
    destruct (decide (low < length lineOffsets)); lia.
Qed.

End TextDocumentFacts.

(** ** The fix synthesizer *)

Section FixFacts.
Variable document : TextDocument.t.

Lemma or_empty_string (t : string) : (if decide (t = "") then "" else t) = t.
Proof. by case_decide. Qed.

Lemma autoFixes_step_push
  (autoFixes : list (list TSLintAutofixEdit.t)) (failure : RuleFailure.t) :
  let edits := convertReplacementToAutoFix document <$> replacementsOf failure in
  autoFixes_step document autoFixes failure =
    autoFixes ++ (if decide (0 < length edits) then [edits] else []).
Proof.
  unfold autoFixes_step, replacementsOf.
  destruct (RuleFailure.getFix failure) as [[[l|l|r]|]|]; simpl;
    try case_decide; by rewrite ?app_nil_r.
Qed.

Lemma textEdits_of_converted (repls : list Replacement.t) :
  textEdits_step [] (convertReplacementToAutoFix document <$> repls) =
    textEditOf document <$> repls.
Proof.
  unfold textEdits_step. simpl. rewrite <- list_fmap_compose.
  apply list_fmap_ext. intros _ repl _. simpl.
  unfold textEditOf. by rewrite or_empty_string.
Qed.

Lemma textEdits_foldl (autoFixes : list (list TSLintAutofixEdit.t))
  (failures : list RuleFailure.t) :
  foldl textEdits_step [] (foldl (autoFixes_step document) autoFixes failures) =
    foldl textEdits_step [] autoFixes ++
    concat ((λ failure, textEditOf document <$> replacementsOf failure)
            <$> failures).
Proof.
  revert autoFixes.
  induction failures as [|failure more IH]; intros autoFixes; simpl.
  - by rewrite app_nil_r.
  - rewrite IH, autoFixes_step_push, foldl_app, app_assoc. f_equal.
    simpl. case_decide as Hlen; simpl.
    + rewrite <- textEdits_of_converted. by unfold textEdits_step.
    + rewrite length_fmap in Hlen.
      destruct (replacementsOf failure); simpl in *; [|lia].
      by rewrite app_nil_r.
Qed.

End FixFacts.

Lemma textEditsOf_in_failure_order_aux
  (document : TextDocument.t) (failures : list RuleFailure.t) :
  textEditsOf document failures =
    concat ((λ failure, textEditOf document <$> replacementsOf failure)
            <$> failures).
Proof. unfold textEditsOf. by rewrite textEdits_foldl. Qed.

(** ** Running the monad *)

Ltac run :=
  unfold mbind, M_bind, mret, M_ret, reads, modify, throw, diverge; simpl.

Lemma probe_all_app (first second : list string) (w : World) :
  probe_all second (probe_all first w) = probe_all (first ++ second) w.
Proof.
  destruct w as [cs ds []]. unfold probe_all, with_calls. simpl.
  by rewrite app_assoc.
Qed.

(** ** The directory ascent *)

Section AscentFacts.
Variable env : Env.
Variable pieces : list string.
Hypothesis pieces_free : Forall (JsString.free_of (path_sep env)) pieces.

Lemma fs_existsSync_call_run (p : string) (w : World) :
  fs_existsSync_call env p w = (Returned (fs_existsSync env p), probe_all [p] w).
Proof. reflexivity. Qed.

Lemma split_ancestor (k : nat) :
  1 ≤ k ≤ length pieces →
  JsString.split (path_sep env) (ancestor env pieces k) = take k pieces.
Proof using pieces_free.
  intros Hk. unfold ancestor. apply split_join.
  - destruct pieces; simpl in *; [lia|]. destruct k; [lia|done].
  - by apply Forall_take.
Qed.

Lemma getConfiguration_loop_run (k : nat) (w : World) :
  1 ≤ k ≤ length pieces →
  getConfiguration_loop env k (ancestor env pieces k) w =
    (Returned (ancestor env pieces <$> nearest env pieces k),
     probe_all (candidate env pieces <$> probed_levels env pieces k) w).
Proof using pieces_free.
  revert w. induction k as [|k IH]; intros w Hk; [lia|].
  cbn [getConfiguration_loop nearest probed_levels].
  unfold mbind at 1. unfold M_bind at 1.
  rewrite fs_existsSync_call_run. fold (candidate env pieces (S k)).
  destruct (fs_existsSync env (candidate env pieces (S k))) eqn:Hpresent.
  - reflexivity.
  - rewrite split_ancestor by done.
    rewrite length_take, Nat.min_l by lia.
    destruct (decide (S k = 1)) as [Hroot|Hdeeper].
    + assert (k = 0) as -> by lia. reflexivity.
    + unfold JsString.slice_init.
      rewrite length_take, Nat.min_l by lia.
      rewrite take_take, Nat.min_l by lia.
      replace (S k - 1) with k by lia.
      fold (ancestor env pieces k).
      rewrite IH by lia. rewrite probe_all_app. reflexivity.
Qed.

Lemma nearest_None (k : nat) :
  nearest env pieces k = None →
  ∀ j, 1 ≤ j ≤ k → fs_existsSync env (candidate env pieces j) = false.
Proof.
  induction k as [|k IH]; intros Hnone j Hj; [lia|].
  cbn [nearest] in Hnone.
  destruct (fs_existsSync env (candidate env pieces (S k))) eqn:Hpresent;
    [done|].
  destruct (decide (j = S k)) as [->|]; [done|]. apply IH; [done|lia].
Qed.

Lemma nearest_Some (k j : nat) :
  nearest env pieces k = Some j →
  1 ≤ j ≤ k ∧ fs_existsSync env (candidate env pieces j) = true ∧
  ∀ j', j < j' ≤ k → fs_existsSync env (candidate env pieces j') = false.
Proof.
  induction k as [|k IH]; intros Hsome; [done|].
  cbn [nearest] in Hsome.
  destruct (fs_existsSync env (candidate env pieces (S k))) eqn:Hpresent.
  - injection Hsome as <-. repeat split; [lia|lia|done|lia].
  - destruct (IH Hsome) as (Hj & Hpj & Habove).
    repeat split; [lia|lia|done|].
    intros j' Hj'. destruct (decide (j' = S k)) as [->|]; [done|].
    apply Habove. lia.
Qed.

(** The levels looked at go down one by one from the starting level. *)
Lemma probed_levels_descend (k i : nat) :
  i < length (probed_levels env pieces k) →
  probed_levels env pieces k !! i = Some (k - i).
Proof.
  revert i. induction k as [|k IH]; intros i Hi; simpl in *; [lia|].
  destruct i as [|i]; [done|]. simpl.
  destruct (fs_existsSync env (candidate env pieces (S k))); simpl in *;
    [lia|].
  apply IH. lia.
Qed.

Lemma probed_levels_length (k : nat) :
  length (probed_levels env pieces k) ≤ k.
Proof.
  induction k as [|k IH]; simpl; [lia|].
  destruct (fs_existsSync env (candidate env pieces (S k))); simpl; lia.
Qed.

Lemma probed_levels_all (k : nat) :
  nearest env pieces k = None → length (probed_levels env pieces k) = k.
Proof.
  induction k as [|k IH]; simpl; [done|].
  destruct (fs_existsSync env (candidate env pieces (S k))); simpl; [done|].
  intros ?. f_equal. by apply IH.
Qed.

Lemma probed_levels_stop (k j : nat) :
  nearest env pieces k = Some j →
  length (probed_levels env pieces k) = k - j + 1.
Proof.
  induction k as [|k IH]; simpl; [done|].
  destruct (fs_existsSync env (candidate env pieces (S k))) eqn:Hpresent.
  - intros [= <-]. simpl. lia.
  - intros Hsome. pose proof (nearest_Some _ _ Hsome) as [? _].
    simpl. rewrite IH by done. lia.
Qed.

(** When no level holds the file, the levels looked at are all of them,
    from the deepest to the first. *)
Lemma probed_levels_none (k : nat) :
  nearest env pieces k = None →
  probed_levels env pieces k = reverse (seq 1 k).
Proof.
  induction k as [|k IH]; [done|]. cbn [nearest probed_levels].
  destruct (fs_existsSync env (candidate env pieces (S k))); [done|].
  intros Hnone. rewrite IH by done.
  rewrite seq_S, reverse_app. reflexivity.
Qed.

Lemma nearest_none_of (k : nat) :
  (∀ j, 1 ≤ j ≤ k → fs_existsSync env (candidate env pieces j) = false) →
  nearest env pieces k = None.
Proof.
  intros Hnowhere.
  destruct (nearest env pieces k) as [j|] eqn:Hnearest; [|done].
  destruct (nearest_Some _ _ Hnearest) as (Hj & Hpresent & _).
  rewrite Hnowhere in Hpresent by done. done.
Qed.

End AscentFacts.

(** ** getConfiguration, loadLibrary: what they return and what they touch *)

Section ResolverFacts.
Variable env : Env.

Lemma getLinterFromLibrary_run (library : Library) (w : World) :
  getLinterFromLibrary env library w =
    match linterOf env library with
    | Some linter => (Returned linter, version_probed w)
    | None => (Threw "TypeError: Invalid Version", version_probed w)
    end.
Proof.
  unfold getLinterFromLibrary, linterOf, handleOf, isTsLintVersion4_call. run.
  by destruct (isTsLintVersion4 env library) as [[]|].
Qed.

Lemma getConfiguration_run (filePath : string) (library : Library) (w : World) :
  let pieces := pieces_of env filePath in
  let probed :=
    probe_all (candidate env pieces <$> probed_levels env pieces (length pieces)) w in
  getConfiguration env filePath library w =
    match nearest env pieces (length pieces) with
    | None => (Returned None, probed)
    | Some j =>
        match linterOf env library with
        | None => (Threw "TypeError: Invalid Version", version_probed probed)
        | Some linter =>
            let asked :=
              configuration_asked (candidate env pieces j)
                (version_probed probed) in
            match loadConfigurationFromPath env linter
                    (candidate env pieces j) with
            | Some configuration => (Returned (Some configuration), asked)
            | None => (Threw "loadConfigurationFromPath failed", asked)
            end
        end
    end.
Proof.
  intros pieces probed. unfold getConfiguration.
  pose proof (split_length_pos (path_sep env) (path_parse_dir env filePath))
    as Hdepth.
  fold (pieces_of env filePath) in Hdepth |- *. fold pieces in Hdepth |- *.
  unfold mbind at 1. unfold M_bind at 1.
  replace (path_parse_dir env filePath)
    with (ancestor env pieces (length pieces)).
  2:{ unfold ancestor. rewrite firstn_all. apply join_split. }
  rewrite (getConfiguration_loop_run env pieces);
    [|apply split_pieces_free|lia].
  fold probed.
  destruct (nearest env pieces (length pieces)) as [j|]; [|reflexivity].
  cbn [fmap option_fmap option_map].
  unfold mbind at 1. unfold M_bind at 1.
  rewrite getLinterFromLibrary_run.
  fold (candidate env pieces j).
  destruct (linterOf env library) as [linter|]; [|reflexivity].
  unfold loadConfigurationFromPath_call. run.
  by destruct (loadConfigurationFromPath env linter
                 (candidate env pieces j)).
Qed.

End ResolverFacts.

(** ** runTSLint: what it touches *)

Section RunFacts.
Variable env : Env.

(** [loadLibrary] asks [Files.resolve] and [require]; it leaves the two
    per-document caches and every other record alone. *)
Lemma loadLibrary_frame (filePath : string) (w : World) :
  let w' := (loadLibrary env filePath w).2 in
  document2Library (caches w') = document2Library (caches w) ∧
  document2Configuration (caches w') = document2Configuration (caches w) ∧
  existsSync_calls (calls w') = existsSync_calls (calls w) ∧
  loadConfiguration_calls (calls w') = loadConfiguration_calls (calls w) ∧
  isTsLintVersion4_calls (calls w') = isTsLintVersion4_calls (calls w) ∧
  lint_calls (calls w') = lint_calls (calls w) ∧
  console_error (calls w') = console_error (calls w) ∧
  sendDiagnostics_calls (calls w') = sendDiagnostics_calls (calls w).
Proof.
  unfold loadLibrary, Files_resolve_call, await_suspended, console_log_call,
    require_call, path2Library_set. run.
  repeat case_match; simplify_eq/=; done.
Qed.

Lemma lintStage_run (documentUri filePath : string) (library : Library)
  (configuration : IConfigurationFile) (w : World) :
  (document ← reads (λ w, documents w !! documentUri);
   match document with
   | None => throw "TypeError: Cannot read property 'getText' of undefined"
   | Some document =>
       let contents := TextDocument.getText document in
       linter ← getLinterFromLibrary env library;
       isTsLint4 ← isTsLintVersion4_call env library;
       result ← lint_call env linter isTsLint4 filePath contents configuration;
       mret (Some result)
   end) w = lintStage env documentUri filePath library configuration w.
Proof.
  unfold lintStage. unfold mbind at 1. unfold M_bind at 1. unfold reads.
  destruct (documents w !! documentUri) as [document|]; [|done].
  cbv zeta. unfold mbind at 1. unfold M_bind at 1.
  rewrite getLinterFromLibrary_run. unfold linterOf.
  destruct (isTsLintVersion4 env library) as [isTsLint4|] eqn:Hprobe;
    [|reflexivity].
  unfold isTsLintVersion4_call, lint_call. run. rewrite Hprobe.
  by destruct (lint env _ _ _ _ _).
Qed.

(** [runTSLint], stage by stage. *)
Lemma runTSLint_stages (documentUri : string) (w : World) :
  let filePath := Uri.fsPath (Uri_parse env documentUri) in
  runTSLint env documentUri w =
    if decide (Uri.scheme (Uri_parse env documentUri) ≠ "file") then
      (Returned None,
       error_logged ("Failed to run tslint. The provided document URI "
                     +:+ documentUri +:+ " is not a file.") w)
    else
      match document2Library (caches w) !! filePath with
      | Some library => configurationStage env documentUri filePath library w
      | None =>
          match loadLibrary env filePath w with
          | (Returned (Some library), w') =>
              configurationStage env documentUri filePath library
                (library_cached filePath library w')
          | (Returned None, w') =>
              (Returned None,
               error_logged "Failed to run tslint. Can't find tslint module." w')
          | (Threw e, w') => (Threw e, w')
          | (Diverged, w') => (Diverged, w')
          end
      end.
Proof.
  intros filePath. unfold runTSLint. fold filePath.
  destruct (decide _) as [Hscheme|Hscheme]; [reflexivity|].
  assert (∀ library w0,
    (cached ← reads (λ w, document2Configuration (caches w) !! filePath);
     configuration ←
       match cached with
       | Some configuration => mret (Some configuration)
       | None =>
           loaded ← getConfiguration env filePath library;
           match loaded with
           | None =>
               console_error_call
                 "Failed to run tslint. No tslint configuration file.";;
               mret None
           | Some configuration =>
               document2Configuration_set filePath configuration;;
               mret (Some configuration)
           end
       end;
     match configuration with
     | None => mret None
     | Some configuration =>
         document ← reads (λ w, documents w !! documentUri);
         match document with
         | None => throw "TypeError: Cannot read property 'getText' of undefined"
         | Some document =>
             let contents := TextDocument.getText document in
             linter ← getLinterFromLibrary env library;
             isTsLint4 ← isTsLintVersion4_call env library;
             result ← lint_call env linter isTsLint4 filePath contents
                        configuration;
             mret (Some result)
         end
     end) w0 = configurationStage env documentUri filePath library w0)
    as Hstage.
  { intros library w0. unfold configurationStage.
    unfold mbind at 1. unfold M_bind at 1. unfold reads at 1.
    destruct (document2Configuration (caches w0) !! filePath)
      as [configuration|].
    - unfold mbind at 1. unfold M_bind at 1. unfold mret at 1, M_ret at 1.
      apply lintStage_run.
    - unfold mbind at 1. unfold M_bind at 1.
      unfold mbind at 1. unfold M_bind at 1.
      destruct (getConfiguration env filePath library w0)
        as [[[configuration|]| |] w1]; try reflexivity.
      unfold document2Configuration_set. unfold mbind at 1, M_bind at 1.
      unfold modify at 1. unfold mret at 1, M_ret at 1.
      apply lintStage_run. }
  unfold mbind at 1. unfold M_bind at 1. unfold reads at 1.
  destruct (document2Library (caches w) !! filePath) as [library|].
  - unfold mbind at 1. unfold M_bind at 1. unfold mret at 1, M_ret at 1.
    apply Hstage.
  - unfold mbind at 1. unfold M_bind at 1.
    unfold mbind at 1. unfold M_bind at 1.
    destruct (loadLibrary env filePath w) as [[[library|]| |] w1];
      try reflexivity.
    unfold document2Library_set. unfold mbind at 1, M_bind at 1.
    unfold modify at 1. unfold mret at 1, M_ret at 1.
    apply Hstage.
Qed.

End RunFacts.

(** ** The stages of runTSLint: what they touch *)

Section StageFacts.
Variable env : Env.

Lemma candidate_deepest (filePath : string) :
  candidate env (pieces_of env filePath) (length (pieces_of env filePath)) =
    path_join env (path_parse_dir env filePath) "tslint.json".
Proof.
  unfold candidate, ancestor, pieces_of. by rewrite firstn_all, join_split.
Qed.

Lemma probed_levels_first (filePath : string) :
  ∃ more,
    candidate env (pieces_of env filePath)
      <$> probed_levels env (pieces_of env filePath)
            (length (pieces_of env filePath)) =
    path_join env (path_parse_dir env filePath) "tslint.json" :: more.
Proof.
  pose proof (split_length_pos (path_sep env) (path_parse_dir env filePath))
    as Hdepth.
  fold (pieces_of env filePath) in Hdepth.
  destruct (length (pieces_of env filePath)) as [|k] eqn:Hk; [lia|].
  cbn [probed_levels fmap list_fmap]. rewrite <- Hk, candidate_deepest.
  eauto.
Qed.

Ltac stage_cases :=
  unfold lintStage in *; repeat case_match; simplify_eq/=.

(** The configuration stage leaves the libraries, the documents, and the
    records of library resolution and of diagnostics alone. *)
Lemma configurationStage_frame (documentUri filePath : string)
  (library : Library) (w : World) :
  let w' := (configurationStage env documentUri filePath library w).2 in
  document2Library (caches w') = document2Library (caches w) ∧
  path2Library (caches w') = path2Library (caches w) ∧
  documents w' = documents w ∧
  resolve_calls (calls w') = resolve_calls (calls w) ∧
  require_calls (calls w') = require_calls (calls w) ∧
  sendDiagnostics_calls (calls w') = sendDiagnostics_calls (calls w).
Proof.
  unfold configurationStage.
  destruct (document2Configuration (caches w) !! filePath) as [found|].
  - stage_cases; done.
  - rewrite getConfiguration_run. stage_cases; done.
Qed.

(** With the configuration cached, no directory is looked at. *)
Lemma configurationStage_hit (documentUri filePath : string)
  (library : Library) (w : World) (configuration : IConfigurationFile) :
  document2Configuration (caches w) !! filePath = Some configuration →
  let w' := (configurationStage env documentUri filePath library w).2 in
  existsSync_calls (calls w') = existsSync_calls (calls w) ∧
  loadConfiguration_calls (calls w') = loadConfiguration_calls (calls w) ∧
  document2Configuration (caches w') = document2Configuration (caches w).
Proof.
  intros Hhit. unfold configurationStage. rewrite Hhit. stage_cases; done.
Qed.

(** Without it, the ascent starts at the file's own directory. *)
Lemma configurationStage_miss (documentUri filePath : string)
  (library : Library) (w : World) :
  document2Configuration (caches w) !! filePath = None →
  let w' := (configurationStage env documentUri filePath library w).2 in
  ∃ more,
    existsSync_calls (calls w') =
      existsSync_calls (calls w) ++
      path_join env (path_parse_dir env filePath) "tslint.json" :: more.
Proof.
  intros Hmiss. unfold configurationStage. rewrite Hmiss.
  rewrite getConfiguration_run.
  destruct (probed_levels_first filePath) as [more Hmore].
  exists more. stage_cases; by rewrite Hmore.
Qed.

(** What a configuration stage that ends in a lint result has done. *)
Lemma configurationStage_success (documentUri filePath : string)
  (library : Library) (w w' : World) (result : LintResult) :
  configurationStage env documentUri filePath library w
    = (Returned (Some result), w') →
  (∃ configuration,
     document2Configuration (caches w') !! filePath = Some configuration) ∧
  (∀ other, other ≠ filePath →
     document2Configuration (caches w') !! other
       = document2Configuration (caches w) !! other) ∧
  isTsLintVersion4_calls (calls w') =
    isTsLintVersion4_calls (calls w) +
    match document2Configuration (caches w) !! filePath with
     | Some _ => 2
     | None => 3
     end ∧
  (document2Configuration (caches w) !! filePath = None →
   ∃ p, loadConfiguration_calls (calls w') =
          loadConfiguration_calls (calls w) ++ [p]).
Proof.
  unfold configurationStage.
  destruct (document2Configuration (caches w) !! filePath) as [found|] eqn:Hc.
  - intros Hrun. stage_cases. split_and!; [by eauto|done|lia|done].
  - rewrite getConfiguration_run. intros Hrun. stage_cases.
    split_and!.
    + rewrite lookup_insert_eq. by eauto.
    + intros other Hother. by rewrite lookup_insert_ne.
    + lia.
    + by eauto.
Qed.

End StageFacts.

(** ** runTSLint as a whole *)

Section RunTSLintFacts.
Variable env : Env.

(** Where the library comes from when a run gets past the library stage:
    the world in which the configuration stage starts. *)
Lemma runTSLint_success (uri : string) (w w' : World) (result : LintResult) :
  runTSLint env uri w = (Returned (Some result), w') →
  let filePath := Uri.fsPath (Uri_parse env uri) in
  ∃ library w1,
    configurationStage env uri filePath library w1
      = (Returned (Some result), w') ∧
    document2Configuration (caches w1) = document2Configuration (caches w) ∧
    existsSync_calls (calls w1) = existsSync_calls (calls w) ∧
    isTsLintVersion4_calls (calls w1) = isTsLintVersion4_calls (calls w) ∧
    loadConfiguration_calls (calls w1) = loadConfiguration_calls (calls w).
Proof.
  rewrite runTSLint_stages. intros Hrun filePath. fold filePath in Hrun.
  destruct (decide _) as [Hscheme|Hscheme]; [done|].
  destruct (document2Library (caches w) !! filePath) as [library|].
  - by exists library, w.
  - pose proof (loadLibrary_frame env filePath w) as Hframe.
    destruct (loadLibrary env filePath w) as [[[library|]| |] w1]; try done.
    simpl in Hframe. destruct Hframe as (?&?&?&?&?&?&?&?).
    exists library, (library_cached filePath library w1). by split_and!.
Qed.

Lemma runTSLint_sendDiagnostics (uri : string) (w : World) :
  sendDiagnostics_calls (calls (runTSLint env uri w).2) =
    sendDiagnostics_calls (calls w).
Proof.
  rewrite runTSLint_stages.
  destruct (decide _) as [Hscheme|Hscheme]; [done|].
  set (filePath := Uri.fsPath (Uri_parse env uri)).
  destruct (document2Library (caches w) !! filePath) as [library|].
  - apply configurationStage_frame.
  - pose proof (loadLibrary_frame env filePath w) as Hframe.
    destruct (loadLibrary env filePath w) as [[[library|]| |] w1];
      simpl in Hframe; destruct Hframe as (?&?&?&?&?&?&?&?); try done.
    pose proof (configurationStage_frame env uri filePath library
                  (library_cached filePath library w1)) as Hstage.
    simpl in Hstage. destruct Hstage as (?&?&?&?&?&Hsent).
    by rewrite Hsent.
Qed.

(** A request for a file whose configuration is cached looks at no
    directory and loads no configuration. *)
Lemma runTSLint_cached_configuration (uri : string) (w : World)
  (configuration : IConfigurationFile) :
  document2Configuration (caches w) !! Uri.fsPath (Uri_parse env uri)
    = Some configuration →
  existsSync_calls (calls (runTSLint env uri w).2) = existsSync_calls (calls w) ∧
  loadConfiguration_calls (calls (runTSLint env uri w).2)
    = loadConfiguration_calls (calls w).
Proof.
  intros Hhit. rewrite runTSLint_stages.
  destruct (decide _) as [Hscheme|Hscheme]; [done|].
  set (filePath := Uri.fsPath (Uri_parse env uri)) in *.
  destruct (document2Library (caches w) !! filePath) as [library|].
  - pose proof (configurationStage_hit env uri filePath library w
                  configuration Hhit) as Hstage.
    simpl in Hstage. by destruct Hstage as (?&?&?).
  - pose proof (loadLibrary_frame env filePath w) as Hframe.
    destruct (loadLibrary env filePath w) as [[[library|]| |] w1];
      simpl in Hframe; destruct Hframe as (?&Hconf&Hprobes&Hloads&?&?&?&?);
      try done.
    pose proof (configurationStage_hit env uri filePath library
                  (library_cached filePath library w1) configuration)
      as Hstage.
    simpl in Hstage. rewrite Hconf in Hstage.
    destruct (Hstage Hhit) as (Hp&Hl&?). by rewrite Hp, Hl.
Qed.

(** A request for a file whose library is cached asks neither
    [Files.resolve] nor [require]. *)
Lemma runTSLint_cached_library (uri : string) (w : World)
  (library : Library) :
  document2Library (caches w) !! Uri.fsPath (Uri_parse env uri)
    = Some library →
  resolve_calls (calls (runTSLint env uri w).2) = resolve_calls (calls w) ∧
  require_calls (calls (runTSLint env uri w).2) = require_calls (calls w) ∧
  runTSLint env uri w =
    if decide (Uri.scheme (Uri_parse env uri) ≠ "file")
    then (Returned None,
          error_logged ("Failed to run tslint. The provided document URI "
                        +:+ uri +:+ " is not a file.") w)
    else configurationStage env uri (Uri.fsPath (Uri_parse env uri)) library w.
Proof.
  intros Hhit. rewrite runTSLint_stages.
  destruct (decide _) as [Hscheme|Hscheme]; [done|].
  rewrite Hhit.
  pose proof (configurationStage_frame env uri
                (Uri.fsPath (Uri_parse env uri)) library w) as Hstage.
  simpl in Hstage. by destruct Hstage as (?&?&?&?&?&?).
Qed.

End RunTSLintFacts.

(** ** The handlers *)

Section HandlerFacts.
Variable env : Env.

Lemma diagnosticsOf_fmap (result : LintResult) :
  diagnosticsOf (Some result) = makeDiagnostic <$> failures result.
Proof.
  unfold diagnosticsOf.
  assert (∀ sofar problems,
            foldl (λ diagnostics failure,
                     diagnostics ++ [makeDiagnostic failure]) sofar problems
            = sofar ++ (makeDiagnostic <$> problems)) as Hpush.
  { intros sofar problems. revert sofar.
    induction problems as [|problem more IH]; intros sofar; simpl.
    - by rewrite app_nil_r.
    - rewrite IH. by rewrite <- app_assoc. }
  apply Hpush.
Qed.

Lemma onRunTSLintRequest_run (uri : string) (w : World) :
  onRunTSLintRequest env uri w =
    match runTSLint env uri w with
    | (Returned lintErrors, w1) =>
        (Returned (), diagnostics_sent uri (diagnosticsOf lintErrors) w1)
    | (Threw e, w1) => (Threw e, w1)
    | (Diverged, w1) => (Diverged, w1)
    end.
Proof.
  unfold onRunTSLintRequest. unfold mbind at 1. unfold M_bind at 1.
  by destruct (runTSLint env uri w) as [[lintErrors| |] w1].
Qed.

Lemma onFixTSLintRequest_run (uri : string) (w : World) :
  onFixTSLintRequest env uri w =
    match documents w !! uri with
    | None =>
        (Threw "TypeError: Cannot read property 'version' of undefined", w)
    | Some document =>
        match runTSLint env uri w with
        | (Returned None, w1) =>
            (Returned {| documentVersion := TextDocument.version document;
                         edits := [] |}, w1)
        | (Returned (Some result), w1) =>
            (Returned
               {| documentVersion := TextDocument.version document;
                  edits := textEditsOf (default document (documents w1 !! uri))
                             (failures result) |}, w1)
        | (Threw e, w1) => (Threw e, w1)
        | (Diverged, w1) => (Diverged, w1)
        end
    end.
Proof.
  unfold onFixTSLintRequest. unfold mbind at 1. unfold M_bind at 1.
  unfold reads at 1.
  destruct (documents w !! uri) as [document|]; [|done].
  unfold mbind at 1. unfold M_bind at 1.
  by destruct (runTSLint env uri w) as [[[result|]| |] w1].
Qed.

Lemma onDidChangeWatchedFiles_run (changes : list string) (w : World) :
  onDidChangeWatchedFiles changes w =
    (Returned (),
     logged ((λ uri, "Detect tslint.json file change " +:+ uri) <$> changes)
       (configurations_cleared w)).
Proof.
  unfold onDidChangeWatchedFiles.
  assert (∀ (sofar : M ()) texts w0 w1,
            sofar w0 = (Returned (), logged texts w1) →
            foldl (λ (sofar : M ()) (uri : string),
                     sofar;;
                     console_log_call
                       ("Detect tslint.json file change " +:+ uri))
                  sofar changes w0
            = (Returned (),
               logged (texts ++
                       ((λ uri, "Detect tslint.json file change " +:+ uri)
                          <$> changes)) w1)) as Hlogs.
  { induction changes as [|uri more IH]; intros sofar texts w0 w1 Hsofar.
    - simpl. by rewrite app_nil_r.
    - cbn [foldl fmap list_fmap].
      rewrite (IH _ (texts ++ ["Detect tslint.json file change " +:+ uri])
                 w0 w1).
      + by rewrite <- app_assoc.
      + unfold mbind, M_bind. rewrite Hsofar.
        unfold console_log_call, modify, logged, with_calls. simpl.
        by rewrite <- app_assoc. }
  unfold mbind at 1. unfold M_bind at 1.
  unfold document2Configuration_clear, modify.
  erewrite (Hlogs _ [] _ _); [reflexivity|].
  unfold mret, M_ret, logged, with_calls, with_caches. simpl.
  destruct w as [cs ds []]. simpl. by rewrite app_nil_r.
Qed.

(** The earlier server's run request is [runTSLint] followed by a
    diagnostics event where, and only where, the run returned a result. *)
Lemma onRunTSLintRequest_earlier_run (uri : string) (w : World) :
  onRunTSLintRequest_earlier env uri w =
    match runTSLint env uri w with
    | (Returned (Some result), w1) =>
        (Returned (), diagnostics_sent uri (diagnosticsOf (Some result)) w1)
    | (Returned None, w1) => (Returned (), w1)
    | (Threw e, w1) => (Threw e, w1)
    | (Diverged, w1) => (Diverged, w1)
    end.
Proof.
  unfold onRunTSLintRequest_earlier, runTSLint.
  destruct (decide _) as [Hscheme|Hscheme]; [reflexivity|].
  unfold mbind, M_bind, mret, M_ret, reads, throw, console_error_call,
    document2Library_set, document2Configuration_set, sendDiagnostics, modify.
  repeat (case_match; simplify_eq; try reflexivity).
Qed.

End HandlerFacts.

(** * The claims *)

(** C1, as stated, fails: [a.ts] and [b.ts] lie in the same directory, the
    request for [a.ts] caches its configuration, and the request for
    [b.ts] that follows looks at the directory again. *)
Lemma sibling_request_walks_again :
  let w1 := (runTSLint Demo.env Demo.uri_a Demo.fresh).2 in
  let w2 := (runTSLint Demo.env Demo.uri_b w1).2 in
  path_parse_dir Demo.env (Uri.fsPath (Uri_parse Demo.env Demo.uri_a)) =
    path_parse_dir Demo.env (Uri.fsPath (Uri_parse Demo.env Demo.uri_b)) ∧
  document2Configuration (caches w1) !! Demo.path_a =
    Some {| rulesDirectory := ["c:\proj\src\tslint.json"];
            rules := ["no-var-keyword"] |} ∧
  existsSync_calls (calls w1) = ["c:\proj\src\tslint.json"] ∧
  existsSync_calls (calls w2) =
    ["c:\proj\src\tslint.json"; "c:\proj\src\tslint.json"] ∧
  existsSync_calls (calls w2) ≠ existsSync_calls (calls w1).
Proof. vm_compute. split_and!; done. Qed.

(** C1, amended. A configuration is cached under the path of the file it
    was resolved for, and under no other: after a lint request for a file
    has cached its configuration, a later request for the same file looks at
    no directory, while a request that finds no entry for its own file, as
    the first request for a sibling does, starts a walk at that file's
    directory. *)
Theorem configuration_cached_under_file_path
  (env : Env) (uri : string) (w w' : World) (result : LintResult) :
  runTSLint env uri w = (Returned (Some result), w') →
  let filePath := Uri.fsPath (Uri_parse env uri) in
  (∃ configuration,
     document2Configuration (caches w') !! filePath = Some configuration) ∧
  (∀ other, other ≠ filePath →
     document2Configuration (caches w') !! other =
       document2Configuration (caches w) !! other) ∧
  existsSync_calls (calls (runTSLint env uri w').2) =
    existsSync_calls (calls w') ∧
  (document2Configuration (caches w) !! filePath = None →
   ∃ more,
     existsSync_calls (calls w') =
       existsSync_calls (calls w) ++
       path_join env (path_parse_dir env filePath) "tslint.json" :: more).
Proof.
  intros Hrun filePath.
  destruct (runTSLint_success env uri w w' result Hrun)
    as (library & w1 & Hstage & Hconf & Hprobes & _ & _).
  fold filePath in Hstage.
  destruct (configurationStage_success env uri filePath library w1 w' result
              Hstage) as ([configuration Hcached] & Hothers & _ & _).
  split_and!.
  - by exists configuration.
  - intros other Hother. by rewrite Hothers, Hconf.
  - by apply (runTSLint_cached_configuration env uri w' configuration).
  - intros Hmiss. rewrite <- Hconf in Hmiss.
    destruct (configurationStage_miss env uri filePath library w1 Hmiss)
      as [more Hmore].
    rewrite Hstage in Hmore. simpl in Hmore.
    exists more. by rewrite <- Hprobes.
Qed.

Lemma configuration_cached_under_file_path_witness :
  runTSLint Demo.env Demo.uri_a Demo.fresh =
    (Returned (Some {| failures := [Demo.no_var_keyword] |}),
     (runTSLint Demo.env Demo.uri_a Demo.fresh).2) ∧
  existsSync_calls
    (calls (runTSLint Demo.env Demo.uri_a
              (runTSLint Demo.env Demo.uri_a Demo.fresh).2).2) =
  existsSync_calls (calls (runTSLint Demo.env Demo.uri_a Demo.fresh).2).
Proof.
  assert (runTSLint Demo.env Demo.uri_a Demo.fresh =
            (Returned (Some {| failures := [Demo.no_var_keyword] |}),
             (runTSLint Demo.env Demo.uri_a Demo.fresh).2)) as Hrun
    by (vm_compute; reflexivity).
  split; [exact Hrun|].
  apply (configuration_cached_under_file_path Demo.env Demo.uri_a Demo.fresh
           (runTSLint Demo.env Demo.uri_a Demo.fresh).2
           {| failures := [Demo.no_var_keyword] |} Hrun).
Defined.

(** C2, as stated, fails: one library is loaded, and each request that
    follows the first runs the version probe again, for the same file and
    for another file on the same library. *)
Lemma version_probe_runs_again :
  let w1 := (runTSLint Demo.env Demo.uri_a Demo.fresh).2 in
  let w2 := (runTSLint Demo.env Demo.uri_a w1).2 in
  let w3 := (runTSLint Demo.env Demo.uri_b w2).2 in
  require_calls (calls w3) = [Demo.tslint_module] ∧
  isTsLintVersion4_calls (calls w1) = 3 ∧
  isTsLintVersion4_calls (calls w2) = 5 ∧
  isTsLintVersion4_calls (calls w3) = 8.
Proof. vm_compute. split_and!; done. Qed.

(** C2, amended. The classification is not kept with the library: every
    lint run that returns a lint result has derived it anew with the
    version probe, twice when the configuration was cached and three times
    when the configuration is resolved in that run; the probe reads nothing
    but the library, so its outcome, an answer or the exception of semver,
    is the same each time. *)
Theorem classification_probed_on_every_run
  (env : Env) (uri : string) (w w' : World) (result : LintResult) :
  runTSLint env uri w = (Returned (Some result), w') →
  isTsLintVersion4_calls (calls w') =
    isTsLintVersion4_calls (calls w) +
    match document2Configuration (caches w) !! Uri.fsPath (Uri_parse env uri)
    with
    | Some _ => 2
    | None => 3
    end ∧
  ∀ library w0,
    (isTsLintVersion4_call env library w0).1 =
      match isTsLintVersion4 env library with
      | Some isTsLint4 => Returned isTsLint4
      | None => Threw "TypeError: Invalid Version"
      end.
Proof.
  intros Hrun.
  destruct (runTSLint_success env uri w w' result Hrun)
    as (library & w1 & Hstage & Hconf & _ & Hticks & _).
  destruct (configurationStage_success env uri _ library w1 w' result Hstage)
    as (_ & _ & Hcount & _).
  split; [by rewrite Hcount, Hconf, Hticks|].
  intros library0 w0. unfold isTsLintVersion4_call. run.
  by destruct (isTsLintVersion4 env library0).
Qed.

Lemma classification_probed_on_every_run_witness :
  let cached := (runTSLint Demo.env Demo.uri_a Demo.fresh).2 in
  runTSLint Demo.env Demo.uri_a cached =
    (Returned (Some {| failures := [Demo.no_var_keyword] |}),
     (runTSLint Demo.env Demo.uri_a cached).2) ∧
  isTsLintVersion4_calls (calls (runTSLint Demo.env Demo.uri_a cached).2) =
    isTsLintVersion4_calls (calls cached) + 2.
Proof.
  intros cached.
  assert (runTSLint Demo.env Demo.uri_a cached =
            (Returned (Some {| failures := [Demo.no_var_keyword] |}),
             (runTSLint Demo.env Demo.uri_a cached).2)) as Hrun
    by (vm_compute; reflexivity).
  split; [exact Hrun|].
  apply (classification_probed_on_every_run Demo.env Demo.uri_a cached
           (runTSLint Demo.env Demo.uri_a cached).2
           {| failures := [Demo.no_var_keyword] |} Hrun).
Defined.

(** C3 at the failing input: a file on a network share,
    [\\server\share\proj\a.ts], no configuration file anywhere on the
    share, and one in the working directory of the server process.  The
    ascent does not end at the root of the share: it goes on to [\\server],
    to [\] and to the empty directory, where [path.join] gives the bare
    [tslint.json], a path relative to the working directory; the file found
    there, in no ancestor of [a.ts], is loaded and returned. *)
Lemma ascent_leaves_the_share :
  let library := Demo.tslint_5_8 Demo.tslint_module in
  path_parse_dir Unc.env Unc.path_a = "\\server\share\proj" ∧
  existsSync_calls
    (calls (getConfiguration Unc.env Unc.path_a library Demo.fresh).2) =
    ["\\server\share\proj\tslint.json"; "\\server\share\tslint.json";
     "\\server\tslint.json\"; "\tslint.json"; "tslint.json"] ∧
  (getConfiguration Unc.env Unc.path_a library Demo.fresh).1 =
    Returned (Some {| rulesDirectory := ["tslint.json"];
                      rules := ["no-var-keyword"] |}) ∧
  loadConfiguration_calls
    (calls (getConfiguration Unc.env Unc.path_a library Demo.fresh).2) =
    ["tslint.json"].
Proof. vm_compute. split_and!; done. Qed.

(** The same stop test at the root of a drive: for [c:\a.ts] the directory
    is [c:\], two pieces, so the root is asked about twice, once as [c:\]
    and once as [c:]. *)
Example root_of_a_drive_is_probed_twice :
  let library := Demo.tslint_5_8 Demo.tslint_module in
  path_parse_dir DriveRoot.env DriveRoot.path_a = "c:\" ∧
  existsSync_calls
    (calls (getConfiguration DriveRoot.env DriveRoot.path_a library
              Demo.fresh).2) =
    ["c:\tslint.json"; "c:\tslint.json"] ∧
  (getConfiguration DriveRoot.env DriveRoot.path_a library Demo.fresh).1 =
    Returned None.
Proof. vm_compute. done. Qed.

(** The ascent on a drive: [a.ts] has a configuration next to it and another at the
    root of the drive; the nearer one is loaded after a single look. *)
Example nearer_configuration_wins :
  (getConfiguration Demo.env Demo.path_a (Demo.tslint_5_8 Demo.tslint_module)
     Demo.fresh).1 =
    Returned (Some {| rulesDirectory := ["c:\proj\src\tslint.json"];
                      rules := ["no-var-keyword"] |}) ∧
  existsSync_calls
    (calls (getConfiguration Demo.env Demo.path_a
              (Demo.tslint_5_8 Demo.tslint_module) Demo.fresh).2) =
    ["c:\proj\src\tslint.json"].
Proof. vm_compute. done. Qed.

Example no_configuration_up_to_the_root :
  (getConfiguration Demo.env "d:\x\y.ts" (Demo.tslint_5_8 Demo.tslint_module)
     Demo.fresh).1 = Returned None ∧
  existsSync_calls
    (calls (getConfiguration Demo.env "d:\x\y.ts"
              (Demo.tslint_5_8 Demo.tslint_module) Demo.fresh).2) =
    ["d:\x\tslint.json"; "d:\tslint.json"].
Proof. vm_compute. done. Qed.

Example configuration_at_the_root_is_reached :
  (getConfiguration Demo.env "c:\proj\other\deep\y.ts"
     (Demo.tslint_5_8 Demo.tslint_module) Demo.fresh).1 =
    Returned (Some {| rulesDirectory := ["c:\tslint.json"];
                      rules := ["no-var-keyword"] |}) ∧
  existsSync_calls
    (calls (getConfiguration Demo.env "c:\proj\other\deep\y.ts"
              (Demo.tslint_5_8 Demo.tslint_module) Demo.fresh).2) =
    ["c:\proj\other\deep\tslint.json"; "c:\proj\other\tslint.json";
     "c:\proj\tslint.json"; "c:\tslint.json"].
Proof. vm_compute. done. Qed.

(** C4 at the failing input: tslint is installed nowhere, so each of the
    three resolutions is rejected; the request for the open document
    [a.ts] ends in the rejection of the last one, not in an answer. *)
Lemma fix_request_without_tslint_throws :
  let env := Demo.env_with Demo.resolve_nowhere Demo.lint_pass id in
  documents Demo.fresh !! Demo.uri_a = Some (TextDocument.mk 7 "var x = 1;") ∧
  Uri.scheme (Uri_parse env Demo.uri_a) = "file" ∧
  (onFixTSLintRequest env Demo.uri_a Demo.fresh).1 =
    Threw "Failed to resolve module: tslint" ∧
  resolve_calls (calls (onFixTSLintRequest env Demo.uri_a Demo.fresh).2) =
    [(ProjectLocal, "c:\proj\src"); (GlobalNodePath, "c:\proj\src");
     (GlobalYarnPath, "c:\proj\src")] ∧
  console_error (calls (onFixTSLintRequest env Demo.uri_a Demo.fresh).2) = [].
Proof. vm_compute. split_and!; done. Qed.

(** What does hold of the fix request: for an open document, a lint run
    that returns nothing is answered with no edits, and every answer
    carries the version read before the run, whatever happened to the
    document while the run was suspended. *)
Lemma fix_request_version (env : Env) (uri : string) (w : World)
  (document : TextDocument.t) :
  documents w !! uri = Some document →
  (∀ w1, runTSLint env uri w = (Returned None, w1) →
         onFixTSLintRequest env uri w =
           (Returned {| documentVersion := TextDocument.version document;
                        edits := [] |}, w1)) ∧
  (∀ answer w1, onFixTSLintRequest env uri w = (Returned answer, w1) →
                documentVersion answer = TextDocument.version document).
Proof.
  intros Hopen. rewrite onFixTSLintRequest_run, Hopen. split.
  - by intros w1 ->.
  - intros answer w1.
    destruct (runTSLint env uri w) as [[[result|]| |] w2]; by intros [= <- _].
Qed.

Example fix_request_keeps_version_under_edits :
  (onFixTSLintRequest
     (Demo.env_with Demo.resolve_installed Demo.lint_pass Demo.user_edits)
     Demo.uri_a Demo.fresh).1 =
    Returned {| documentVersion := 7; edits := [] |} ∧
  TextDocument.version <$>
    documents (onFixTSLintRequest
                 (Demo.env_with Demo.resolve_installed Demo.lint_pass
                    Demo.user_edits)
                 Demo.uri_a Demo.fresh).2 !! Demo.uri_a = Some 8%Z.
Proof. vm_compute. done. Qed.

(** C5. The fix synthesizer brings every fix to one list of replacements (the
    [replacements] member, the list itself, or the single replacement in a
    one-element list) and answers with the edits of the failures one after
    the other, in the order of the failures, nothing sorted or merged. *)
Theorem textEditsOf_in_failure_order
  (document : TextDocument.t) (failures : list RuleFailure.t) :
  textEditsOf document failures =
    concat ((λ failure, textEditOf document <$> replacementsOf failure)
            <$> failures).
Proof. apply textEditsOf_in_failure_order_aux. Qed.

(** C6. A fix that is one replacement of the span from [s] to [e] of the
    document's text by [X] becomes one text edit; its range, taken back to
    offsets in that text, starts at [s] and ends at [e], so covers the same
    characters, and its new text is [X]. *)
Theorem single_replacement_round_trip
  (document : TextDocument.t) (failure : RuleFailure.t) (s e : nat)
  (X : string) :
  s ≤ e → e ≤ String.length (TextDocument.getText document) →
  RuleFailure.getFix failure = Some (Some (FixSingle (Replacement.mk s e X))) →
  ∃ edit,
    textEditsOf document [failure] = [edit] ∧
    TextDocument.offsetAt document (Range.start (TextEdit.range edit)) = s ∧
    TextDocument.offsetAt document (Range.end_ (TextEdit.range edit)) = e ∧
    JsString.substring
      (TextDocument.offsetAt document (Range.start (TextEdit.range edit)))
      (TextDocument.offsetAt document (Range.end_ (TextEdit.range edit)))
      (TextDocument.getText document)
    = JsString.substring s e (TextDocument.getText document) ∧
    TextEdit.newText edit = X.
Proof.
  intros Hse He Hfix.
  exists (textEditOf document (Replacement.mk s e X)).
  assert (TextDocument.offsetAt document
            (TextDocument.positionAt document s) = s) as Hs
    by (apply offsetAt_positionAt; lia).
  assert (TextDocument.offsetAt document
            (TextDocument.positionAt document e) = e) as Hend
    by (by apply offsetAt_positionAt).
  split.
  - rewrite textEditsOf_in_failure_order_aux. cbn [fmap list_fmap concat].
    unfold replacementsOf. by rewrite Hfix.
  - simpl. by rewrite Hs, Hend.
Qed.

Lemma single_replacement_round_trip_witness :
  0 ≤ 3 ∧
  3 ≤ String.length (TextDocument.getText (TextDocument.mk 7 "var x = 1;")) ∧
  RuleFailure.getFix Demo.no_var_keyword =
    Some (Some (FixSingle (Replacement.mk 0 3 "let"))) ∧
  ∃ edit,
    textEditsOf (TextDocument.mk 7 "var x = 1;") [Demo.no_var_keyword] = [edit] ∧
    TextDocument.offsetAt (TextDocument.mk 7 "var x = 1;")
      (Range.start (TextEdit.range edit)) = 0 ∧
    TextDocument.offsetAt (TextDocument.mk 7 "var x = 1;")
      (Range.end_ (TextEdit.range edit)) = 3 ∧
    JsString.substring
      (TextDocument.offsetAt (TextDocument.mk 7 "var x = 1;")
         (Range.start (TextEdit.range edit)))
      (TextDocument.offsetAt (TextDocument.mk 7 "var x = 1;")
         (Range.end_ (TextEdit.range edit)))
      (TextDocument.getText (TextDocument.mk 7 "var x = 1;"))
    = JsString.substring 0 3
        (TextDocument.getText (TextDocument.mk 7 "var x = 1;")) ∧
    TextEdit.newText edit = "let".
Proof.
  assert (0 ≤ 3) as Hse by lia.
  assert (3 ≤ String.length
                (TextDocument.getText (TextDocument.mk 7 "var x = 1;")))
    as He by (simpl; lia).
  split_and!; [exact Hse|exact He|reflexivity|].
  exact (single_replacement_round_trip (TextDocument.mk 7 "var x = 1;")
           Demo.no_var_keyword 0 3 "let" Hse He eq_refl).
Defined.

(** C5 and C6 at work on a text of two lines: a failure without a fix and
    a fix with no replacements add nothing, the others add their edits in
    the order of the failures, and offsets on the second line come out as
    positions on that line. *)
Example edits_in_failure_order :
  textEditsOf Demo.two_lines
    [Demo.failure_with (Some (Some (FixSingle (Replacement.mk 8 11 "let"))));
     Demo.failure_with None;
     Demo.failure_with (Some None);
     Demo.failure_with
       (Some (Some (FixArray [Replacement.mk 4 5 "b"; Replacement.mk 5 6 ""])));
     Demo.failure_with (Some (Some (FixWithReplacements [])));
     Demo.failure_with
       (Some (Some (FixWithReplacements [Replacement.mk 0 3 "const"])))] =
    [TextEdit.replace (Range.create {| line := 1; character := 0 |}
                                    {| line := 1; character := 3 |}) "let";
     TextEdit.replace (Range.create {| line := 0; character := 4 |}
                                    {| line := 0; character := 5 |}) "b";
     TextEdit.replace (Range.create {| line := 0; character := 5 |}
                                    {| line := 0; character := 6 |}) "";
     TextEdit.replace (Range.create {| line := 0; character := 0 |}
                                    {| line := 0; character := 3 |}) "const"].
Proof. vm_compute. done. Qed.

Example line_offsets_of_two_lines :
  TextDocument.getLineOffsets Demo.two_lines = [0; 8] ∧
  TextDocument.positionAt Demo.two_lines 7 = {| line := 0; character := 7 |} ∧
  TextDocument.positionAt Demo.two_lines 8 = {| line := 1; character := 0 |} ∧
  TextDocument.offsetAt Demo.two_lines {| line := 1; character := 3 |} = 11 ∧
  TextDocument.offsetAt Demo.two_lines {| line := 0; character := 40 |} = 8.
Proof. vm_compute. done. Qed.



(** tslint 5.8.0 is taken for tslint 4 or later, tslint 3.15.1 for an
    earlier one. *)
Example tslint_5_8_is_modern :
  isTsLintVersion4 Demo.env (Demo.tslint_5_8 Demo.tslint_module) = Some true ∧
  isTsLintVersion4 Demo.env
    {| resolvedFrom := Demo.tslint_module;
       Linter := Some {| VERSION := Some "3.15.1" |} |} = Some false.
Proof. vm_compute. done. Qed.

(** C8. The diagnostic mapper makes one diagnostic per failure, in the
    order of the failures, from the failure alone: the message is the
    failure's message followed by the rule name in parentheses where there
    is a rule name and the bare message where there is none, the severity is
    always [Warning], the range repeats the failure's start and end
    positions; what the run request sends is this list, whatever the state
    of the server. *)
Theorem diagnostics_mapper (result : LintResult) :
  diagnosticsOf (Some result) = makeDiagnostic <$> failures result ∧
  length (diagnosticsOf (Some result)) = length (failures result) ∧
  (∀ i problem, failures result !! i = Some problem →
     diagnosticsOf (Some result) !! i = Some (makeDiagnostic problem)) ∧
  (∀ problem,
     Diagnostic.severity (makeDiagnostic problem) = Warning ∧
     Diagnostic.message (makeDiagnostic problem) =
       (if decide (RuleFailure.getRuleName problem = "")
        then RuleFailure.getFailure problem
        else RuleFailure.getFailure problem +:+ " (" +:+
             RuleFailure.getRuleName problem +:+ ")") ∧
     Diagnostic.range (makeDiagnostic problem) =
       Range.create
         {| line := line (RuleFailure.getStartPosition problem);
            character := character (RuleFailure.getStartPosition problem) |}
         {| line := line (RuleFailure.getEndPosition problem);
            character := character (RuleFailure.getEndPosition problem) |} ∧
     Range.start (Diagnostic.range (makeDiagnostic problem)) =
       RuleFailure.getStartPosition problem ∧
     Range.end_ (Diagnostic.range (makeDiagnostic problem)) =
       RuleFailure.getEndPosition problem) ∧
  (∀ env uri w1 w2 w1' w2',
     runTSLint env uri w1 = (Returned (Some result), w1') →
     runTSLint env uri w2 = (Returned (Some result), w2') →
     last (sendDiagnostics_calls (calls (onRunTSLintRequest env uri w1).2)) =
       Some (uri, makeDiagnostic <$> failures result) ∧
     last (sendDiagnostics_calls (calls (onRunTSLintRequest env uri w2).2)) =
       Some (uri, makeDiagnostic <$> failures result)).
Proof.
  split_and!.
  - apply diagnosticsOf_fmap.
  - by rewrite diagnosticsOf_fmap, length_fmap.
  - intros i problem Hi. by rewrite diagnosticsOf_fmap, list_lookup_fmap, Hi.
  - intros problem. split_and!; try done.
    + simpl. by destruct (RuleFailure.getStartPosition problem).
    + simpl. by destruct (RuleFailure.getEndPosition problem).
  - intros env uri w1 w2 w1' w2' Hrun1 Hrun2.
    rewrite !onRunTSLintRequest_run, Hrun1, Hrun2, diagnosticsOf_fmap.
    simpl. by rewrite !last_snoc.
Qed.

(** C9. A configuration-change notification empties the configuration
    cache and leaves both library caches and the documents as they were
    (it also prints one line per changed file).  A lint request that
    follows, for a file whose library was cached, asks for no library
    resolution and no [require], looks at the file's directory again, and
    where it ends in a lint result it has loaded the configuration again. *)
Theorem configuration_change_clears_configurations_only
  (env : Env) (changes : list string) (w : World) :
  let w' := (onDidChangeWatchedFiles changes w).2 in
  (onDidChangeWatchedFiles changes w).1 = Returned () ∧
  w' = logged ((λ uri, "Detect tslint.json file change " +:+ uri) <$> changes)
         (configurations_cleared w) ∧
  document2Configuration (caches w') = ∅ ∧
  document2Library (caches w') = document2Library (caches w) ∧
  path2Library (caches w') = path2Library (caches w) ∧
  documents w' = documents w ∧
  ∀ uri library,
    Uri.scheme (Uri_parse env uri) = "file" →
    document2Library (caches w) !! Uri.fsPath (Uri_parse env uri)
      = Some library →
    let w'' := (runTSLint env uri w').2 in
    resolve_calls (calls w'') = resolve_calls (calls w') ∧
    require_calls (calls w'') = require_calls (calls w') ∧
    (∃ more,
       existsSync_calls (calls w'') =
         existsSync_calls (calls w') ++
         path_join env (path_parse_dir env (Uri.fsPath (Uri_parse env uri)))
           "tslint.json" :: more) ∧
    (∀ result, (runTSLint env uri w').1 = Returned (Some result) →
       ∃ p, loadConfiguration_calls (calls w'') =
              loadConfiguration_calls (calls w') ++ [p]).
Proof.
  rewrite onDidChangeWatchedFiles_run. cbn [fst snd].
  split_and!; try done.
  intros uri library Hscheme Hlibrary.
  set (w' := logged _ _).
  assert (document2Library (caches w') !! Uri.fsPath (Uri_parse env uri)
            = Some library) as Hlibrary' by done.
  assert (document2Configuration (caches w') !! Uri.fsPath (Uri_parse env uri)
            = None) as Hmiss by apply lookup_empty.
  destruct (runTSLint_cached_library env uri w' library Hlibrary')
    as (Hresolve & Hrequire & Hrun).
  rewrite decide_False in Hrun by (intros Hne; by apply Hne).
  cbv zeta. split_and!; [done|done| |].
  - rewrite Hrun. by apply configurationStage_miss.
  - intros result Hresult. rewrite Hrun in Hresult |- *.
    destruct (configurationStage env uri _ library w') as [out w''] eqn:Hstage.
    simpl in Hresult. subst out.
    destruct (configurationStage_success env uri _ library w' w'' result
                Hstage) as (_ & _ & _ & Hloaded).
    by apply Hloaded.
Qed.

Lemma configuration_change_clears_configurations_only_witness :
  let w := (runTSLint Demo.env Demo.uri_a Demo.fresh).2 in
  let w' := (onDidChangeWatchedFiles ["file:///c%3A/proj/src/tslint.json"] w).2 in
  Uri.scheme (Uri_parse Demo.env Demo.uri_a) = "file" ∧
  document2Library (caches w) !! Uri.fsPath (Uri_parse Demo.env Demo.uri_a) =
    Some (Demo.tslint_5_8 Demo.tslint_module) ∧
  resolve_calls (calls (runTSLint Demo.env Demo.uri_a w').2) =
    resolve_calls (calls w') ∧
  require_calls (calls (runTSLint Demo.env Demo.uri_a w').2) =
    require_calls (calls w') ∧
  (∃ more,
     existsSync_calls (calls (runTSLint Demo.env Demo.uri_a w').2) =
       existsSync_calls (calls w') ++
       path_join Demo.env
         (path_parse_dir Demo.env (Uri.fsPath (Uri_parse Demo.env Demo.uri_a)))
         "tslint.json" :: more) ∧
  (∀ result,
     (runTSLint Demo.env Demo.uri_a w').1 = Returned (Some result) →
     ∃ p, loadConfiguration_calls (calls (runTSLint Demo.env Demo.uri_a w').2) =
            loadConfiguration_calls (calls w') ++ [p]).
Proof.
  intros w w'.
  assert (Uri.scheme (Uri_parse Demo.env Demo.uri_a) = "file") as Hscheme
    by reflexivity.
  assert (document2Library (caches w)
            !! Uri.fsPath (Uri_parse Demo.env Demo.uri_a) =
          Some (Demo.tslint_5_8 Demo.tslint_module)) as Hlibrary
    by (vm_compute; reflexivity).
  split; [exact Hscheme|]. split; [exact Hlibrary|].
  exact (proj2 (proj2 (proj2 (proj2 (proj2 (proj2
           (configuration_change_clears_configurations_only Demo.env
              ["file:///c%3A/proj/src/tslint.json"] w))))))
           Demo.uri_a (Demo.tslint_5_8 Demo.tslint_module) Hscheme Hlibrary).
Defined.




(** The earlier server, for contrast with C10: a request it cannot lint
    sends nothing, where the server above sends an empty list. *)
Example earlier_server_leaves_diagnostics_alone :
  sendDiagnostics_calls
    (calls (onRunTSLintRequest_earlier Demo.env Demo.uri_untitled Demo.fresh).2)
    = [] ∧
  sendDiagnostics_calls
    (calls (onRunTSLintRequest Demo.env Demo.uri_untitled Demo.fresh).2)
    = [(Demo.uri_untitled, [])].
Proof. vm_compute. done. Qed.

(** * Further properties of the server *)

(** ** loadLibrary *)

Section LoadLibraryFacts.
Variable env : Env.

Lemma resolve_calls_resolves_asked (tried : list (ResolveFrom * string))
  (w : World) :
  resolve_calls (calls (resolves_asked tried w)) =
    resolve_calls (calls w) ++ tried.
Proof.
  revert w. induction tried as [|[from directory] more IH]; intros w.
  - simpl. by rewrite app_nil_r.
  - unfold resolves_asked in *. cbn [foldl]. rewrite IH. simpl.
    by rewrite <- app_assoc.
Qed.

(** [loadLibrary] in one equation. *)
Lemma loadLibrary_run (filePath : string) (w : World) :
  let directory := path_dirname env filePath in
  loadLibrary env filePath w =
    match resolvedPath env directory with
    | None =>
        (Threw "Failed to resolve module: tslint",
         resolves_asked (resolutions_tried env directory) w)
    | Some tslintPath =>
        let w1 := path_found env directory tslintPath w in
        if decide (tslintPath = "") then (Returned None, w1)
        else
          match path2Library (caches w) !! tslintPath with
          | Some library => (Returned (Some library), w1)
          | None =>
              match require env tslintPath with
              | Some library =>
                  (Returned (Some library),
                   path2Library_cached tslintPath library
                     (require_asked tslintPath w1))
              | None =>
                  (Threw "Error: Cannot find module",
                   require_asked tslintPath w1)
              end
          end
    end.
Proof.
  intros directory.
  unfold loadLibrary, path_found, resolvedPath, resolutions_tried, resolves_asked.
  fold directory.
  unfold Files_resolve_call, await_suspended, console_log_call, require_call,
    path2Library_set. run.
  destruct (Files_resolve env ProjectLocal directory) as [p|]; simpl;
    [|destruct (Files_resolve env GlobalNodePath directory) as [p|]; simpl;
      [|destruct (Files_resolve env GlobalYarnPath directory) as [p|]; simpl;
        [|reflexivity]]];
    (destruct (decide (p = "")); [reflexivity|];
     change (path2Library (caches (logged ?l ?w0)) !! p)
       with (path2Library (caches w) !! p);
     destruct (path2Library (caches w) !! p); [reflexivity|];
     destruct (require env p); reflexivity).
Qed.

Lemma resolves_asked_frame (tried : list (ResolveFrom * string)) (w : World) :
  caches (resolves_asked tried w) = caches w ∧
  documents (resolves_asked tried w) = documents w ∧
  require_calls (calls (resolves_asked tried w)) = require_calls (calls w) ∧
  existsSync_calls (calls (resolves_asked tried w))
    = existsSync_calls (calls w) ∧
  sendDiagnostics_calls (calls (resolves_asked tried w))
    = sendDiagnostics_calls (calls w).
Proof.
  revert w. induction tried as [|t more IH]; intros w; [done|].
  unfold resolves_asked in *. cbn [foldl].
  destruct (IH (resolve_asked t.1 t.2 w)) as (-> & -> & -> & -> & ->). done.
Qed.

Lemma path_found_frame (directory tslintPath : string) (w : World) :
  let w1 := path_found env directory tslintPath w in
  caches w1 = caches w ∧
  documents w1 = whileSuspended env (documents w) ∧
  require_calls (calls w1) = require_calls (calls w) ∧
  existsSync_calls (calls w1) = existsSync_calls (calls w) ∧
  sendDiagnostics_calls (calls w1) = sendDiagnostics_calls (calls w) ∧
  resolve_calls (calls w1) =
    resolve_calls (calls w) ++ resolutions_tried env directory.
Proof.
  pose proof (resolves_asked_frame (resolutions_tried env directory) w)
    as (Hcaches & Hdocuments & Hrequire & Hprobes & Hsent).
  pose proof (resolve_calls_resolves_asked (resolutions_tried env directory) w)
    as Hresolve.
  unfold path_found. simpl.
  by rewrite Hcaches, Hdocuments, Hrequire, Hprobes, Hsent, Hresolve.
Qed.

(** What a load that returns a library has done. *)
Lemma loadLibrary_loaded (filePath : string) (w w' : World)
  (library : Library) :
  loadLibrary env filePath w = (Returned (Some library), w') →
  ∃ tslintPath,
    resolvedPath env (path_dirname env filePath) = Some tslintPath ∧
    tslintPath ≠ "" ∧
    path2Library (caches w') !! tslintPath = Some library ∧
    document2Library (caches w') = document2Library (caches w) ∧
    document2Configuration (caches w') = document2Configuration (caches w) ∧
    documents w' = whileSuspended env (documents w) ∧
    ((path2Library (caches w) !! tslintPath = Some library ∧
      path2Library (caches w') = path2Library (caches w) ∧
      require_calls (calls w') = require_calls (calls w)) ∨
     (path2Library (caches w) !! tslintPath = None ∧
      require env tslintPath = Some library ∧
      path2Library (caches w') =
        <[tslintPath := library]> (path2Library (caches w)) ∧
      require_calls (calls w') = require_calls (calls w) ++ [tslintPath])).
Proof.
  rewrite loadLibrary_run. cbv zeta.
  destruct (resolvedPath env (path_dirname env filePath)) as [p|]; [|done].
  destruct (decide (p = "")) as [|Hp]; [done|].
  pose proof (path_found_frame (path_dirname env filePath) p w)
    as (Hcaches & Hdocuments & Hrequire & _).
  revert Hcaches Hdocuments Hrequire.
  generalize (path_found env (path_dirname env filePath) p w).
  intros w1 Hcaches Hdocuments Hrequire.
  destruct (path2Library (caches w) !! p) as [cached|] eqn:Hcached.
  - intros [= <- <-]; exists p; simpl;
      rewrite ?Hcaches, ?Hdocuments, ?Hrequire.
    split_and!; try done. left. by split_and!.
  - destruct (require env p) as [required|] eqn:Hrequired; [|done].
    intros [= <- <-]; exists p; simpl;
      rewrite ?Hcaches, ?Hdocuments, ?Hrequire.
    split_and!; try done.
    + apply lookup_insert_eq.
    + right. by split_and!.
Qed.

(** A load that does not return a library leaves the caches as they were;
    if it has required a module, the module did not load. *)
Lemma loadLibrary_not_loaded (filePath : string) (w : World) :
  (∀ library, (loadLibrary env filePath w).1 ≠ Returned (Some library)) →
  caches (loadLibrary env filePath w).2 = caches w ∧
  (require_calls (calls (loadLibrary env filePath w).2) =
     require_calls (calls w) ∨
   ∃ p, require env p = None ∧
        require_calls (calls (loadLibrary env filePath w).2) =
          require_calls (calls w) ++ [p]).
Proof.
  rewrite loadLibrary_run. cbv zeta.
  pose proof (resolves_asked_frame
                (resolutions_tried env (path_dirname env filePath)) w)
    as (Hcaches & Hdocuments & Hrequire & _).
  destruct (resolvedPath env (path_dirname env filePath)) as [p|].
  - pose proof (path_found_frame (path_dirname env filePath) p w)
      as (Hcaches1 & _ & Hrequire1 & _).
    destruct (decide (p = "")) as [|Hp].
    + intros _. cbn [fst snd]. rewrite Hcaches1, Hrequire1. by split; [|left].
    + revert Hcaches1 Hrequire1.
      generalize (path_found env (path_dirname env filePath) p w).
      intros w1 Hcaches1 Hrequire1.
      destruct (path2Library (caches w) !! p) as [cached|] eqn:Hcached.
      { intros Hnot. by edestruct Hnot. }
      destruct (require env p) as [required|] eqn:Hrequired.
      { intros Hnot. by edestruct Hnot. }
      intros _. cbn [fst snd]. simpl. rewrite Hcaches1, Hrequire1.
      split; [done|]. right. by exists p.
  - intros _. cbn [fst snd]. rewrite Hcaches, Hrequire. by split; [|left].
Qed.

End LoadLibraryFacts.

(** X1. [loadLibrary] asks for tslint in a fixed order: in the project
    first, under the global npm path only when that is rejected, under the
    global yarn path only when both are rejected.  It stops at the first
    resolution that is not rejected.  For an empty path it answers with
    nothing; for a path that is in [path2Library] it answers with the
    library found there and requires nothing; otherwise it requires the
    module at that path, once, and either answers with the module, which is
    then in [path2Library] under the path, or, where [require] throws, ends
    with that exception and leaves the caches alone.  When all three
    resolutions are rejected it throws, requires nothing and leaves the
    caches alone. *)
Theorem loadLibrary_resolution_order
  (env : Env) (filePath : string) (w : World) :
  let directory := path_dirname env filePath in
  let out := (loadLibrary env filePath w).1 in
  let w' := (loadLibrary env filePath w).2 in
  let order := [(ProjectLocal, directory); (GlobalNodePath, directory);
                (GlobalYarnPath, directory)] in
  ∃ n, 1 ≤ n ≤ 3 ∧
    resolve_calls (calls w') = resolve_calls (calls w) ++ take n order ∧
    (∀ i t, i < n - 1 → order !! i = Some t →
            Files_resolve env t.1 t.2 = None) ∧
    match order !! (n - 1) with
    | Some t =>
        match Files_resolve env t.1 t.2 with
        | Some tslintPath =>
            if decide (tslintPath = "") then
              out = Returned None ∧ caches w' = caches w ∧
              require_calls (calls w') = require_calls (calls w)
            else
              match path2Library (caches w) !! tslintPath with
              | Some library =>
                  out = Returned (Some library) ∧ caches w' = caches w ∧
                  require_calls (calls w') = require_calls (calls w)
              | None =>
                  require_calls (calls w') =
                    require_calls (calls w) ++ [tslintPath] ∧
                  match require env tslintPath with
                  | Some library =>
                      out = Returned (Some library) ∧
                      path2Library (caches w') =
                        <[tslintPath := library]> (path2Library (caches w))
                  | None =>
                      out = Threw "Error: Cannot find module" ∧
                      caches w' = caches w
                  end
              end
        | None =>
            n = 3 ∧ out = Threw "Failed to resolve module: tslint" ∧
            caches w' = caches w ∧
            require_calls (calls w') = require_calls (calls w)
        end
    | None => False
    end.
Proof.
  intros directory out w' order.
  assert (∀ p, resolvedPath env directory = Some p →
               resolve_calls (calls w') =
                 resolve_calls (calls w) ++ resolutions_tried env directory ∧
               if decide (p = "") then
                 out = Returned None ∧ caches w' = caches w ∧
                 require_calls (calls w') = require_calls (calls w)
               else
                 match path2Library (caches w) !! p with
                 | Some library =>
                     out = Returned (Some library) ∧ caches w' = caches w ∧
                     require_calls (calls w') = require_calls (calls w)
                 | None =>
                     require_calls (calls w') = require_calls (calls w) ++ [p] ∧
                     match require env p with
                     | Some library =>
                         out = Returned (Some library) ∧
                         path2Library (caches w') =
                           <[p := library]> (path2Library (caches w))
                     | None =>
                         out = Threw "Error: Cannot find module" ∧
                         caches w' = caches w
                     end
                 end)
    as Hfound.
  { intros p Hp. subst out w'. rewrite loadLibrary_run. fold directory.
    rewrite Hp. cbv zeta.
    pose proof (path_found_frame env directory p w)
      as (Hcaches & _ & Hrequire & _ & _ & Hresolve).
    revert Hcaches Hrequire Hresolve.
    generalize (path_found env directory p w).
    intros w1 Hcaches Hrequire Hresolve.
    destruct (decide (p = "")) as [|Hne]; [done|].
    destruct (path2Library (caches w) !! p) as [cached|] eqn:Hcached;
      [done|].
    destruct (require env p) as [required|]; simpl;
      rewrite ?Hcaches, ?Hrequire; done. }
  assert (resolvedPath env directory = None →
          resolve_calls (calls w') =
            resolve_calls (calls w) ++ resolutions_tried env directory ∧
          out = Threw "Failed to resolve module: tslint" ∧
          caches w' = caches w ∧
          require_calls (calls w') = require_calls (calls w)) as Hnone.
  { intros Hp. subst out w'. rewrite loadLibrary_run. fold directory.
    rewrite Hp. cbn [fst snd].
    pose proof (resolves_asked_frame (resolutions_tried env directory) w)
      as (Hcaches & _ & Hrequire & _).
    by rewrite resolve_calls_resolves_asked. }
  unfold resolvedPath, resolutions_tried in Hfound, Hnone. subst order.
  destruct (Files_resolve env ProjectLocal directory) as [p1|] eqn:H1.
  { exists 1. destruct (Hfound p1 eq_refl) as [Hcalls Hout].
    split_and!; [lia|lia|done|intros i t Hi; lia|].
    simpl. by rewrite H1. }
  destruct (Files_resolve env GlobalNodePath directory) as [p2|] eqn:H2.
  { exists 2. destruct (Hfound p2 eq_refl) as [Hcalls Hout].
    split_and!; [lia|lia|done| |].
    - intros i t Hi Ht. assert (i = 0) as -> by lia.
      injection Ht as <-. done.
    - simpl. by rewrite H2. }
  exists 3.
  assert (∀ i t, i < 3 - 1 →
                 [(ProjectLocal, directory); (GlobalNodePath, directory);
                  (GlobalYarnPath, directory)] !! i = Some t →
                 Files_resolve env t.1 t.2 = None) as Hrejected.
  { intros i t Hi Ht. destruct i as [|[|i]]; [| |lia]; by injection Ht as <-. }
  destruct (Files_resolve env GlobalYarnPath directory) as [p3|] eqn:H3.
  - destruct (Hfound p3 eq_refl) as [Hcalls Hout].
    split_and!; [lia|lia|done|done|].
    simpl. by rewrite H3.
  - destruct (Hnone eq_refl) as (Hcalls & Hout & Hcaches & Hrequire).
    split_and!; [lia|lia|done|done|].
    simpl. by rewrite H3.
Qed.

(** X2. A tslint module is required once per resolved path: when a load
    has returned a library, a load that follows for any file that resolves
    to the same path returns the same library from [path2Library], without
    a call of [require] and without a change to the cache. *)
Theorem loadLibrary_requires_once
  (env : Env) (filePath another : string) (w w' : World) (library : Library) :
  loadLibrary env filePath w = (Returned (Some library), w') →
  resolvedPath env (path_dirname env another) =
    resolvedPath env (path_dirname env filePath) →
  (loadLibrary env another w').1 = Returned (Some library) ∧
  require_calls (calls (loadLibrary env another w').2) =
    require_calls (calls w') ∧
  path2Library (caches (loadLibrary env another w').2) =
    path2Library (caches w').
Proof.
  intros Hfirst Hsame.
  destruct (loadLibrary_loaded env filePath w w' library Hfirst)
    as (p & Hp & Hne & Hcached & _).
  rewrite loadLibrary_run. cbv zeta. rewrite Hsame, Hp.
  rewrite decide_False by done. rewrite Hcached. cbn [fst snd].
  pose proof (path_found_frame env (path_dirname env another) p w')
    as (Hcaches & _ & Hrequire & _).
  by rewrite Hcaches, Hrequire.
Qed.

Lemma loadLibrary_requires_once_witness :
  loadLibrary Demo.env Demo.path_a Demo.fresh =
    (Returned (Some (Demo.tslint_5_8 Demo.tslint_module)),
     (loadLibrary Demo.env Demo.path_a Demo.fresh).2) ∧
  resolvedPath Demo.env (path_dirname Demo.env Demo.path_b) =
    resolvedPath Demo.env (path_dirname Demo.env Demo.path_a) ∧
  (loadLibrary Demo.env Demo.path_b
     (loadLibrary Demo.env Demo.path_a Demo.fresh).2).1 =
    Returned (Some (Demo.tslint_5_8 Demo.tslint_module)) ∧
  require_calls
    (calls (loadLibrary Demo.env Demo.path_b
              (loadLibrary Demo.env Demo.path_a Demo.fresh).2).2) =
    require_calls (calls (loadLibrary Demo.env Demo.path_a Demo.fresh).2) ∧
  path2Library
    (caches (loadLibrary Demo.env Demo.path_b
               (loadLibrary Demo.env Demo.path_a Demo.fresh).2).2) =
    path2Library (caches (loadLibrary Demo.env Demo.path_a Demo.fresh).2).
Proof.
  assert (loadLibrary Demo.env Demo.path_a Demo.fresh =
            (Returned (Some (Demo.tslint_5_8 Demo.tslint_module)),
             (loadLibrary Demo.env Demo.path_a Demo.fresh).2)) as Hfirst
    by (vm_compute; reflexivity).
  assert (resolvedPath Demo.env (path_dirname Demo.env Demo.path_b) =
            resolvedPath Demo.env (path_dirname Demo.env Demo.path_a))
    as Hsame by reflexivity.
  split; [exact Hfirst|]. split; [exact Hsame|].
  exact (loadLibrary_requires_once Demo.env Demo.path_a Demo.path_b Demo.fresh
           _ _ Hfirst Hsame).
Defined.

(** ** The caches against the world outside *)

Section CoherenceFacts.
Variable env : Env.

Lemma coherent_started : coherent env started.
Proof.
  split; simpl.
  - intros p library Hp. by rewrite lookup_empty in Hp.
  - intros f library Hf. by rewrite lookup_empty in Hf.
  - intros f configuration Hf. by rewrite lookup_empty in Hf.
  - split; [constructor|]. intros p. rewrite lookup_empty. split.
    + by intros [? ?].
    + by intros [?%elem_of_nil _].
Qed.

(** Coherence looks at the caches and at the record of [require] only. *)
Lemma coherent_frame (w w' : World) :
  caches w' = caches w →
  require_calls (calls w') = require_calls (calls w) →
  coherent env w → coherent env w'.
Proof.
  intros Hcaches Hrequire [H1 H2 H3 H4].
  split; rewrite ?Hcaches, ?Hrequire; done.
Qed.

(** A module that did not load leaves no trace in the caches. *)
Lemma coherent_not_loaded (w w' : World) (p : string) :
  caches w' = caches w →
  require env p = None →
  require_calls (calls w') = require_calls (calls w) ++ [p] →
  coherent env w → coherent env w'.
Proof.
  intros Hcaches Hfailed Hrequire [H1 H2 H3 [Hnodup Hin]].
  split; rewrite ?Hcaches, ?Hrequire; try done.
  split.
  - rewrite filter_app, filter_cons_False, filter_nil;
      [by rewrite app_nil_r|].
    by rewrite Hfailed; intros [? ?].
  - intros q. rewrite Hin, elem_of_app, list_elem_of_singleton.
    split; [by intros [? ?]; split; [left|]|].
    intros [[?| ->] Hloads]; [done|].
    rewrite Hfailed in Hloads. by destruct Hloads.
Qed.

Lemma coherent_required (w w' : World) (p : string) (library : Library) :
  coherent env w →
  path2Library (caches w) !! p = None → p ≠ "" →
  require env p = Some library →
  document2Library (caches w') = document2Library (caches w) →
  document2Configuration (caches w') = document2Configuration (caches w) →
  path2Library (caches w') = <[p := library]> (path2Library (caches w)) →
  require_calls (calls w') = require_calls (calls w) ++ [p] →
  coherent env w'.
Proof.
  intros [H1 H2 H3 [Hnodup Hin]] Hfree Hne Hloaded Hd2l Hd2c Hp2l Hrequire.
  split; rewrite ?Hd2l, ?Hd2c, ?Hp2l, ?Hrequire.
  - intros q library'. destruct (decide (p = q)) as [<-|Hpq].
    + rewrite lookup_insert_eq. by intros [= <-].
    + rewrite lookup_insert_ne by done. apply H1.
  - intros f library' Hf. destruct (H2 f library' Hf) as (q & Hq & Hlib).
    exists q. split; [done|].
    rewrite lookup_insert_ne; [done|]. intros <-. congruence.
  - done.
  - split.
    + rewrite filter_app, filter_cons_True, filter_nil
        by (by rewrite Hloaded).
      apply NoDup_app. split_and!; [done| |apply NoDup_singleton].
      intros q [_ Hq]%list_elem_of_filter ->%list_elem_of_singleton.
      assert (is_Some (path2Library (caches w) !! p)) as Hsome.
      { apply Hin. split; [done|]. by rewrite Hloaded. }
      rewrite Hfree in Hsome. by destruct Hsome.
    + intros q. rewrite elem_of_app, list_elem_of_singleton.
      destruct (decide (p = q)) as [<-|Hpq].
      * rewrite lookup_insert_eq. split; [|by eauto].
        intros _. split; [by right|]. by rewrite Hloaded.
      * rewrite lookup_insert_ne by done. rewrite Hin.
        split; [by intros [? ?]; split; [left|]|].
        by intros [[?|?] ?].
Qed.

Lemma coherent_library_cached (w w' : World) (f p : string)
  (library : Library) :
  coherent env w →
  document2Library (caches w) !! f = None →
  resolvedPath env (path_dirname env f) = Some p →
  path2Library (caches w) !! p = Some library →
  caches w' = caches (library_cached f library w) →
  require_calls (calls w') = require_calls (calls w) →
  coherent env w'.
Proof.
  intros [H1 H2 H3 H4] Hfree Hp Hlib Hcaches Hrequire.
  split; rewrite ?Hcaches, ?Hrequire; simpl.
  - done.
  - intros g library'. destruct (decide (f = g)) as [<-|Hfg].
    + rewrite lookup_insert_eq. intros [= <-]. by exists p.
    + rewrite lookup_insert_ne by done. apply H2.
  - intros g configuration Hg.
    destruct (H3 g configuration Hg) as (library' & j & linter & Hlib' & Hrest).
    exists library', j, linter. split; [|done].
    rewrite lookup_insert_ne; [done|]. intros <-. congruence.
  - done.
Qed.

Lemma coherent_configuration_cached (w w' : World) (f : string)
  (library : Library) (j : nat) (linter : LinterHandle)
  (configuration : IConfigurationFile) :
  coherent env w →
  document2Library (caches w) !! f = Some library →
  nearest env (pieces_of env f) (length (pieces_of env f)) = Some j →
  linterOf env library = Some linter →
  loadConfigurationFromPath env linter
    (candidate env (pieces_of env f) j) = Some configuration →
  caches w' = caches (configuration_cached f configuration w) →
  require_calls (calls w') = require_calls (calls w) →
  coherent env w'.
Proof.
  intros [H1 H2 H3 H4] Hlib Hnearest Hlinter Hload Hcaches Hrequire.
  split; rewrite ?Hcaches, ?Hrequire; simpl; try done.
  intros g configuration'. destruct (decide (f = g)) as [<-|Hfg].
  - rewrite lookup_insert_eq. intros [= <-]. by exists library, j, linter.
  - rewrite lookup_insert_ne by done. apply H3.
Qed.

Lemma coherent_cleared (w w' : World) :
  coherent env w →
  caches w' = caches (configurations_cleared w) →
  require_calls (calls w') = require_calls (calls w) →
  coherent env w'.
Proof.
  intros [H1 H2 H3 H4] Hcaches Hrequire.
  split; rewrite ?Hcaches, ?Hrequire; simpl; done.
Qed.

End CoherenceFacts.

(** ** Coherence is kept, and makes the caches invisible *)

Section ProcessFacts.
Variable env : Env.

Lemma coherent_same_caches (w w' : World) :
  document2Library (caches w') = document2Library (caches w) →
  path2Library (caches w') = path2Library (caches w) →
  document2Configuration (caches w') = document2Configuration (caches w) →
  require_calls (calls w') = require_calls (calls w) →
  coherent env w → coherent env w'.
Proof.
  intros Hd2l Hp2l Hd2c Hrequire [H1 H2 H3 H4].
  split; rewrite ?Hd2l, ?Hp2l, ?Hd2c, ?Hrequire; done.
Qed.

Lemma configurationStage_coherent (uri f : string) (library : Library)
  (w : World) :
  coherent env w →
  document2Library (caches w) !! f = Some library →
  coherent env (configurationStage env uri f library w).2.
Proof.
  intros Hw Hlibrary. unfold configurationStage.
  destruct (document2Configuration (caches w) !! f) as [found|] eqn:Hfound.
  - unfold lintStage. repeat case_match; simplify_eq/=;
      by apply (coherent_frame env w).
  - rewrite getConfiguration_run.
    destruct (nearest env (pieces_of env f) _) as [j|] eqn:Hnearest;
      [|by apply (coherent_frame env w)].
    destruct (linterOf env library) as [linter|] eqn:Hlinter;
      [|by apply (coherent_frame env w)].
    destruct (loadConfigurationFromPath env linter _)
      as [configuration|] eqn:Hload;
      [|by apply (coherent_frame env w)].
    unfold lintStage. repeat case_match; simplify_eq/=;
      by apply (coherent_configuration_cached env w _ f library j linter
                  configuration).
Qed.

Lemma loadLibrary_not_loaded_coherent (f : string) (w : World) :
  (∀ library, (loadLibrary env f w).1 ≠ Returned (Some library)) →
  coherent env w → coherent env (loadLibrary env f w).2.
Proof.
  intros Hnot Hw.
  destruct (loadLibrary_not_loaded env f w Hnot)
    as [Hcaches [Hrequire|(p & Hfailed & Hrequire)]].
  - by apply (coherent_frame env w).
  - by apply (coherent_not_loaded env w _ p).
Qed.

Lemma runTSLint_coherent (uri : string) (w : World) :
  coherent env w → coherent env (runTSLint env uri w).2.
Proof.
  intros Hw. rewrite runTSLint_stages.
  destruct (decide _) as [Hscheme|Hscheme];
    [by apply (coherent_frame env w)|].
  set (f := Uri.fsPath (Uri_parse env uri)).
  destruct (document2Library (caches w) !! f) as [library|] eqn:Hlibrary.
  - by apply configurationStage_coherent.
  - pose proof (loadLibrary_not_loaded_coherent f w) as Hkept.
    destruct (loadLibrary env f w) as [out w1] eqn:Hload.
    destruct out as [[library|]| |]; cbn [fst snd] in Hkept.
    + destruct (loadLibrary_loaded env f w w1 library Hload)
        as (p & Hp & Hne & Hcached & Hd2l & Hd2c & _ & Hhow).
      assert (coherent env w1) as Hw1.
      { destruct Hhow as [(_ & Hp2l & Hrequire)
                         |(Hfree & Hloaded & Hp2l & Hrequire)].
        - by apply (coherent_same_caches w).
        - by apply (coherent_required env w w1 p library). }
      apply configurationStage_coherent.
      * apply (coherent_library_cached env w1 _ f p library); try done.
        by rewrite Hd2l.
      * simpl. apply lookup_insert_eq.
    + simpl. apply (coherent_frame env w1); [done|done|]. by apply Hkept.
    + by apply Hkept.
    + by apply Hkept.
Qed.

Lemma serve_coherent (m : Message) (w : World) :
  coherent env w → coherent env (serve env m w).
Proof.
  intros Hw. destruct m as [uri|uri|changes|uri document|uri]; simpl.
  - rewrite onRunTSLintRequest_run.
    pose proof (runTSLint_coherent uri w Hw) as Hrun.
    destruct (runTSLint env uri w) as [[lintErrors| |] w1]; simpl in *;
      try done.
    by apply (coherent_frame env w1).
  - rewrite onFixTSLintRequest_run.
    destruct (documents w !! uri) as [document|]; [|done].
    pose proof (runTSLint_coherent uri w Hw) as Hrun.
    by destruct (runTSLint env uri w) as [[[result|]| |] w1].
  - rewrite onDidChangeWatchedFiles_run. simpl.
    by apply (coherent_cleared env w).
  - by apply (coherent_frame env w).
  - by apply (coherent_frame env w).
Qed.

Lemma after_snoc (ms : list Message) (m : Message) :
  after env (ms ++ [m]) = serve env m (after env ms).
Proof. unfold after. by rewrite foldl_app. Qed.

Lemma after_coherent (ms : list Message) : coherent env (after env ms).
Proof.
  induction ms as [|m ms IH] using rev_ind.
  - apply coherent_started.
  - rewrite after_snoc. by apply serve_coherent.
Qed.

End ProcessFacts.

Section AnswerFacts.
Variable env : Env.

Lemma linterOf_Some (library : Library) (linter : LinterHandle) :
  linterOf env library = Some linter →
  ∃ isTsLint4, isTsLintVersion4 env library = Some isTsLint4 ∧
               linter = handleOf library isTsLint4.
Proof.
  unfold linterOf.
  destruct (isTsLintVersion4 env library) as [isTsLint4|]; [|done].
  intros [= <-]. by exists isTsLint4.
Qed.

Lemma lintStage_answer (uri f : string) (library : Library)
  (configuration : IConfigurationFile) (w : World) :
  (lintStage env uri f library configuration w).1 =
    match documents w !! uri with
    | None => Threw "TypeError: Cannot read property 'getText' of undefined"
    | Some document =>
        match isTsLintVersion4 env library with
        | None => Threw "TypeError: Invalid Version"
        | Some isTsLint4 =>
            match lint env (handleOf library isTsLint4) isTsLint4
                    f (TextDocument.getText document) configuration with
            | Some result => Returned (Some result)
            | None => Threw "tslint failed"
            end
        end
    end.
Proof. unfold lintStage. by repeat case_match. Qed.

(** The answer of the configuration stage, for a library that is the module
    at [p] and a cached configuration, if any, that is the nearest one. *)
Lemma configurationStage_answer (uri : string) (p : string)
  (library : Library) (w : World) :
  let f := Uri.fsPath (Uri_parse env uri) in
  Uri.scheme (Uri_parse env uri) = "file" →
  resolvedPath env (path_dirname env f) = Some p → p ≠ "" →
  require env p = Some library →
  (∀ configuration,
     document2Configuration (caches w) !! f = Some configuration →
     ∃ j linter,
       nearest env (pieces_of env f) (length (pieces_of env f)) = Some j ∧
       linterOf env library = Some linter ∧
       loadConfigurationFromPath env linter
         (candidate env (pieces_of env f) j) = Some configuration) →
  (configurationStage env uri f library w).1 =
    lintAnswer env (documents w) uri.
Proof.
  intros f Hscheme Hp Hne Hloaded Hcached.
  unfold lintAnswer. fold f.
  rewrite decide_False by (intros Hn; by apply Hn).
  rewrite Hp, decide_False by done. rewrite Hloaded. cbv zeta.
  unfold configurationStage.
  destruct (document2Configuration (caches w) !! f) as [configuration|].
  - destruct (Hcached configuration eq_refl) as (j & linter & -> & Hlinter & Hc).
    destruct (linterOf_Some library linter Hlinter) as (isTsLint4 & Hprobe & ->).
    by rewrite lintStage_answer, Hprobe, Hc.
  - rewrite getConfiguration_run.
    destruct (nearest env (pieces_of env f) _) as [j|]; [|done].
    unfold linterOf.
    destruct (isTsLintVersion4 env library) as [isTsLint4|] eqn:Hprobe;
      [|done].
    cbn [fmap option_fmap option_map].
    destruct (loadConfigurationFromPath env _ _) as [configuration|];
      [|done].
    cbv beta iota zeta. by rewrite lintStage_answer, Hprobe.
Qed.

(** With coherent caches, and no message served while a library is awaited,
    a lint run answers what it would answer without any cache. *)
Lemma runTSLint_answer (uri : string) (w : World) :
  (∀ p library, path2Library (caches w) !! p = Some library →
                p ≠ "" ∧ require env p = Some library) →
  (∀ f library, document2Library (caches w) !! f = Some library →
     ∃ p, resolvedPath env (path_dirname env f) = Some p ∧
          path2Library (caches w) !! p = Some library) →
  (∀ f configuration,
     document2Configuration (caches w) !! f = Some configuration →
     ∃ library j linter,
       document2Library (caches w) !! f = Some library ∧
       nearest env (pieces_of env f) (length (pieces_of env f)) = Some j ∧
       linterOf env library = Some linter ∧
       loadConfigurationFromPath env linter
         (candidate env (pieces_of env f) j) = Some configuration) →
  whileSuspended env (documents w) = documents w →
  (runTSLint env uri w).1 = lintAnswer env (documents w) uri.
Proof.
  intros H1 H2 H3 Hquiet. rewrite runTSLint_stages.
  set (f := Uri.fsPath (Uri_parse env uri)).
  destruct (decide (Uri.scheme (Uri_parse env uri) ≠ "file"))
    as [Hscheme|Hscheme].
  { unfold lintAnswer. by rewrite decide_True. }
  assert (Uri.scheme (Uri_parse env uri) = "file") as Hfile
    by (destruct (decide (Uri.scheme (Uri_parse env uri) = "file")); done).
  destruct (document2Library (caches w) !! f) as [library|] eqn:Hlibrary.
  - destruct (H2 f library Hlibrary) as (p & Hp & Hcached).
    destruct (H1 p library Hcached) as [Hne Hloaded].
    apply (configurationStage_answer uri p library w); try done.
    intros configuration Hconfiguration.
    destruct (H3 f configuration Hconfiguration)
      as (library' & j & linter & Hl & Hj & Hlinter & Hc).
    fold f in Hl. rewrite Hlibrary in Hl. injection Hl as <-.
    by exists j, linter.
  - assert (∀ p library w2,
              resolvedPath env (path_dirname env f) = Some p → p ≠ "" →
              require env p = Some library →
              document2Configuration (caches w2)
                = document2Configuration (caches w) →
              documents w2 = documents w →
              (configurationStage env uri f library w2).1 =
                lintAnswer env (documents w) uri) as Hstage.
    { intros p library w2 Hp Hne Hloaded Hc2 Hd2.
      pose proof (configurationStage_answer uri p library w2 Hfile Hp Hne
                    Hloaded) as Hanswer.
      fold f in Hanswer. rewrite Hanswer; [by rewrite Hd2|].
      intros configuration. rewrite Hc2. intros Hconfiguration.
      destruct (H3 f configuration Hconfiguration)
        as (library' & j & linter & Hl & _). congruence. }
    rewrite loadLibrary_run. cbv zeta.
    destruct (resolvedPath env (path_dirname env f)) as [p|] eqn:Hp.
    2:{ unfold lintAnswer. fold f. rewrite decide_False by done.
        by rewrite Hp. }
    destruct (decide (p = "")) as [Hempty|Hne].
    { unfold lintAnswer. fold f. rewrite decide_False by done.
      rewrite Hp. by rewrite decide_True. }
    pose proof (path_found_frame env (path_dirname env f) p w)
      as (Hcaches & Hdocuments & _).
    rewrite Hquiet in Hdocuments.
    revert Hcaches Hdocuments.
    generalize (path_found env (path_dirname env f) p w).
    intros w1 Hcaches Hdocuments.
    destruct (path2Library (caches w) !! p) as [cached|] eqn:Hcached.
    + destruct (H1 p cached Hcached) as [_ Hloaded].
      apply (Hstage p cached); try done; simpl; by rewrite ?Hcaches.
    + destruct (require env p) as [library|] eqn:Hloaded.
      * apply (Hstage p library); try done; simpl; by rewrite ?Hcaches.
      * unfold lintAnswer. fold f. rewrite decide_False by done.
        rewrite Hp, decide_False by done. by rewrite Hloaded.
Qed.

Lemma runTSLint_answer_coherent (uri : string) (w : World) :
  coherent env w →
  whileSuspended env (documents w) = documents w →
  (runTSLint env uri w).1 = lintAnswer env (documents w) uri.
Proof. intros [H1 H2 H3 _]. by apply runTSLint_answer. Qed.

Lemma runTSLint_answer_uncached (uri : string) (w : World) :
  whileSuspended env (documents w) = documents w →
  (runTSLint env uri (uncached w)).1 = lintAnswer env (documents w) uri.
Proof.
  intros Hquiet.
  apply (runTSLint_answer uri (uncached w)); simpl; done.
Qed.

End AnswerFacts.

(** ** More on strings and on the stages *)

Section MoreFacts.
Variable env : Env.

Lemma join_snoc (sep : ascii) (pieces : list string) (piece : string) :
  pieces ≠ [] →
  JsString.join sep (pieces ++ [piece]) =
    JsString.join sep pieces +:+ String sep piece.
Proof.
  induction pieces as [|first more IH]; [done|]. intros _.
  destruct more as [|second more'].
  - reflexivity.
  - change (JsString.join sep ((first :: second :: more') ++ [piece]))
      with (first +:+ String sep
              (JsString.join sep ((second :: more') ++ [piece]))).
    rewrite IH by done.
    change (JsString.join sep (first :: second :: more'))
      with (first +:+ String sep (JsString.join sep (second :: more'))).
    generalize (JsString.join sep (second :: more')). intros joined.
    clear. induction first as [|c first IHf]; [done|].
    change (String c (first +:+ String sep (joined +:+ String sep piece)) =
            String c ((first +:+ String sep joined) +:+ String sep piece)).
    by f_equal.
Qed.

Lemma length_append (s t : string) :
  String.length (s +:+ t) = String.length s + String.length t.
Proof.
  induction s as [|c s IH]; [done|].
  change (S (String.length (s +:+ t)) =
          S (String.length s) + String.length t).
  by rewrite IH.
Qed.

(** How the configuration stage leaves the configuration cache. *)
Lemma configurationStage_configurations (uri f : string) (library : Library)
  (w : World) :
  let w' := (configurationStage env uri f library w).2 in
  document2Configuration (caches w') = document2Configuration (caches w) ∨
  (document2Configuration (caches w) !! f = None ∧
   ∃ configuration,
     document2Configuration (caches w') =
       <[f := configuration]> (document2Configuration (caches w))).
Proof.
  unfold configurationStage.
  destruct (document2Configuration (caches w) !! f) as [found|] eqn:Hfound.
  - left. unfold lintStage. by repeat case_match.
  - rewrite getConfiguration_run.
    destruct (nearest env (pieces_of env f) _) as [j|]; [|by left].
    destruct (linterOf env library) as [linter|]; [|by left].
    destruct (loadConfigurationFromPath env _ _) as [configuration|];
      [|by left].
    right. split; [done|]. exists configuration.
    unfold lintStage. by repeat case_match.
Qed.

End MoreFacts.

(** ** The server over any sequence of messages *)

(** X3. Whatever messages the server has been sent since its start, its
    caches agree with the world outside: a library cached under a module
    path is the module at that path, the library cached for a file is the
    module at the path tslint resolves to from the file's directory, and the
    configuration cached for a file is what the loader makes, through the
    handle picked for the file's cached library, of the configuration file
    in the nearest level of the file's directory that holds one. *)
Theorem caches_agree_with_the_outside (env : Env) (ms : list Message) :
  let w := after env ms in
  (∀ p library, path2Library (caches w) !! p = Some library →
     p ≠ "" ∧ require env p = Some library) ∧
  (∀ f library, document2Library (caches w) !! f = Some library →
     ∃ p, resolvedPath env (path_dirname env f) = Some p ∧ p ≠ "" ∧
          require env p = Some library) ∧
  (∀ f configuration,
     document2Configuration (caches w) !! f = Some configuration →
     ∃ library j linter,
       document2Library (caches w) !! f = Some library ∧
       1 ≤ j ≤ length (pieces_of env f) ∧
       fs_existsSync env (candidate env (pieces_of env f) j) = true ∧
       (∀ j', j < j' ≤ length (pieces_of env f) →
              fs_existsSync env (candidate env (pieces_of env f) j') = false) ∧
       linterOf env library = Some linter ∧
       loadConfigurationFromPath env linter
         (candidate env (pieces_of env f) j) = Some configuration).
Proof.
  intros w. destruct (after_coherent env ms) as [H1 H2 H3 _].
  fold w in H1, H2, H3. split_and!.
  - done.
  - intros f library Hf. destruct (H2 f library Hf) as (p & Hp & Hlibrary).
    destruct (H1 p library Hlibrary) as [Hne Hloaded]. by exists p.
  - intros f configuration Hf.
    destruct (H3 f configuration Hf)
      as (library & j & linter & Hl & Hj & Hlinter & Hc).
    destruct (nearest_Some env _ _ _ Hj) as (Hrange & Hpresent & Habove).
    exists library, j, linter. split_and!; try done; lia.
Qed.

(** X4. A module that loads is required once.  Whatever messages the
    server has been sent since its start, the keys of [path2Library] are
    exactly the paths that were required and whose module loads, and no
    such path was required twice.  A module that does not load is required
    anew by every run that resolves to it: the run ends with the exception
    of [require], which is called once more, and the caches stay as they
    are. *)
Theorem modules_required_once (env : Env) (ms : list Message) :
  let w := after env ms in
  (∀ p, is_Some (path2Library (caches w) !! p) ↔
        p ∈ require_calls (calls w) ∧ is_Some (require env p)) ∧
  NoDup (filter (λ p, is_Some (require env p)) (require_calls (calls w))) ∧
  (∀ uri p,
     Uri.scheme (Uri_parse env uri) = "file" →
     resolvedPath env (path_dirname env (Uri.fsPath (Uri_parse env uri)))
       = Some p →
     p ≠ "" → require env p = None →
     (runTSLint env uri w).1 = Threw "Error: Cannot find module" ∧
     require_calls (calls (runTSLint env uri w).2) =
       require_calls (calls w) ++ [p] ∧
     caches (runTSLint env uri w).2 = caches w).
Proof.
  intros w. destruct (after_coherent env ms) as [H1 H2 _ [Hnodup Hin]].
  fold w in H1, H2, Hnodup, Hin. split_and!; [done|done|].
  intros uri p Hscheme Hp Hne Hfailed.
  set (f := Uri.fsPath (Uri_parse env uri)) in *.
  assert (path2Library (caches w) !! p = None) as Hfree.
  { destruct (path2Library (caches w) !! p) as [cached|] eqn:Hcached; [|done].
    destruct (H1 p cached Hcached) as [_ Hloaded]. congruence. }
  assert (document2Library (caches w) !! f = None) as Hmiss.
  { destruct (document2Library (caches w) !! f) as [cached|] eqn:Hcached;
      [|done].
    destruct (H2 f cached Hcached) as (q & Hq & Hlibrary). congruence. }
  rewrite runTSLint_stages. fold f.
  rewrite decide_False by (intros Hn; by apply Hn).
  rewrite Hmiss, loadLibrary_run. cbv zeta.
  rewrite Hp, decide_False by done. rewrite Hfree, Hfailed.
  pose proof (path_found_frame env (path_dirname env f) p w)
    as (Hcaches & _ & Hrequire & _).
  revert Hcaches Hrequire.
  generalize (path_found env (path_dirname env f) p w).
  intros w1 Hcaches Hrequire.
  cbn [fst snd]. simpl. by rewrite Hcaches, Hrequire.
Qed.

(** X5. As long as the world outside stays as it is, the caches never
    change an answer.  In any state the server can have reached by messages
    served against a file system, a module resolution and modules that are
    those the request is then served against, and with no message served
    while the library is awaited, a lint run gives the outcome it would give
    with all three caches emptied: the caches save calls, never results.
    (Against a world that has changed in between they can: the library
    caches are never emptied.) *)
Theorem caches_do_not_change_the_answer
  (env : Env) (ms : list Message) (uri : string) :
  let w := after env ms in
  whileSuspended env (documents w) = documents w →
  (runTSLint env uri w).1 = (runTSLint env uri (uncached w)).1.
Proof.
  intros w Hquiet.
  rewrite (runTSLint_answer_coherent env uri w (after_coherent env ms) Hquiet).
  by rewrite (runTSLint_answer_uncached env uri w Hquiet).
Qed.

Lemma caches_do_not_change_the_answer_witness :
  let ms := [DidOpenOrChange Demo.uri_a (TextDocument.mk 7 "var x = 1;");
             RunTSLint Demo.uri_a; RunTSLint Demo.uri_b] in
  whileSuspended Demo.env (documents (after Demo.env ms)) =
    documents (after Demo.env ms) ∧
  (runTSLint Demo.env Demo.uri_a (after Demo.env ms)).1 =
    (runTSLint Demo.env Demo.uri_a (uncached (after Demo.env ms))).1.
Proof.
  intros ms.
  assert (whileSuspended Demo.env (documents (after Demo.env ms)) =
            documents (after Demo.env ms)) as Hquiet by reflexivity.
  split; [exact Hquiet|].
  exact (caches_do_not_change_the_answer Demo.env ms Demo.uri_a Hquiet).
Defined.

(** ** One lint run and the caches *)

Section GrowthFacts.
Variable env : Env.

Lemma configurationStage_grows (uri f : string) (library : Library)
  (w : World) :
  let w' := (configurationStage env uri f library w).2 in
  document2Library (caches w') = document2Library (caches w) ∧
  path2Library (caches w') = path2Library (caches w) ∧
  document2Configuration (caches w) ⊆ document2Configuration (caches w') ∧
  ∀ g, g ≠ f →
    document2Configuration (caches w') !! g =
      document2Configuration (caches w) !! g.
Proof.
  intros w'.
  destruct (configurationStage_frame env uri f library w) as (Hd2l & Hp2l & _).
  destruct (configurationStage_configurations env uri f library w)
    as [Hsame|(Hfree & configuration & Hinsert)]; fold w' in Hd2l, Hp2l |- *.
  - fold w' in Hsame. rewrite Hsame. by split_and!.
  - fold w' in Hinsert. rewrite Hinsert. split_and!; [done|done| |].
    + by apply insert_subseteq.
    + intros g Hg. by rewrite lookup_insert_ne.
Qed.

Lemma loadLibrary_grows (f : string) (w : World) :
  let w' := (loadLibrary env f w).2 in
  document2Library (caches w') = document2Library (caches w) ∧
  document2Configuration (caches w') = document2Configuration (caches w) ∧
  path2Library (caches w) ⊆ path2Library (caches w').
Proof.
  intros w'. destruct (loadLibrary_frame env f w) as (Hd2l & Hd2c & _).
  fold w' in Hd2l, Hd2c. split_and!; [done|done|].
  subst w'. destruct (loadLibrary env f w) as [out w1] eqn:Hload.
  cbn [snd]. destruct out as [[library|]| |].
  - destruct (loadLibrary_loaded env f w w1 library Hload)
      as (p & _ & _ & _ & _ & _ & _ & Hhow).
    destruct Hhow as [(_ & -> & _)|(Hfree & _ & -> & _)]; [done|].
    by apply insert_subseteq.
  - destruct (loadLibrary_not_loaded env f w) as [Hcaches _].
    { intros library. by rewrite Hload. }
    rewrite Hload in Hcaches. simpl in *. by rewrite Hcaches.
  - destruct (loadLibrary_not_loaded env f w) as [Hcaches _].
    { intros library. by rewrite Hload. }
    rewrite Hload in Hcaches. simpl in *. by rewrite Hcaches.
  - destruct (loadLibrary_not_loaded env f w) as [Hcaches _].
    { intros library. by rewrite Hload. }
    rewrite Hload in Hcaches. simpl in *. by rewrite Hcaches.
Qed.

End GrowthFacts.

(** Every entry of the caches outlives a lint run. *)
Lemma runTSLint_grows (env : Env) (uri : string) (w : World) :
  let f := Uri.fsPath (Uri_parse env uri) in
  let w' := (runTSLint env uri w).2 in
  document2Library (caches w) ⊆ document2Library (caches w') ∧
  path2Library (caches w) ⊆ path2Library (caches w') ∧
  document2Configuration (caches w) ⊆ document2Configuration (caches w') ∧
  ∀ g, g ≠ f →
    document2Library (caches w') !! g = document2Library (caches w) !! g ∧
    document2Configuration (caches w') !! g =
      document2Configuration (caches w) !! g.
Proof.
  intros f w'. subst w'. rewrite runTSLint_stages. fold f.
  destruct (decide _) as [Hscheme|Hscheme]; [by split_and!|].
  destruct (document2Library (caches w) !! f) as [library|] eqn:Hlibrary.
  - destruct (configurationStage_grows env uri f library w)
      as (Hd2l & Hp2l & Hd2c & Hothers).
    rewrite Hd2l, Hp2l. split_and!; try done.
    intros g Hg. split; [done|by apply Hothers].
  - destruct (loadLibrary_grows env f w) as (Hd2l & Hd2c & Hp2l).
    destruct (loadLibrary env f w) as [[[library|]| |] w1]; simpl in *;
      try (rewrite Hd2l, Hd2c; by split_and!).
    destruct (configurationStage_grows env uri f library
                (library_cached f library w1))
      as (Hd2l' & Hp2l' & Hd2c' & Hothers).
    rewrite Hd2l', Hp2l'. simpl in *. rewrite Hd2l. rewrite Hd2c in Hd2c'.
    split_and!; try done.
    + by apply insert_subseteq.
    + intros g Hg. split; [by rewrite lookup_insert_ne|].
      rewrite Hothers by done. by rewrite Hd2c.
Qed.

(** X6. A lint run only adds to the caches: every entry of the three
    caches is still there afterwards with the same value, however the run
    ends, and the entries of the two per-document caches for files other
    than the requested one are exactly as before. *)
Theorem runTSLint_caches_only_grow (env : Env) (uri : string) (w : World) :
  let f := Uri.fsPath (Uri_parse env uri) in
  let w' := (runTSLint env uri w).2 in
  document2Library (caches w) ⊆ document2Library (caches w') ∧
  path2Library (caches w) ⊆ path2Library (caches w') ∧
  document2Configuration (caches w) ⊆ document2Configuration (caches w') ∧
  ∀ g, g ≠ f →
    document2Library (caches w') !! g = document2Library (caches w) !! g ∧
    document2Configuration (caches w') !! g =
      document2Configuration (caches w) !! g.
Proof. apply runTSLint_grows. Qed.

(** X7. The library of a file is cached as soon as it is loaded, before
    anything is done about the configuration: when a run for a file without
    a cached library gets a library from [loadLibrary], the file's library
    is cached afterwards however the run ends (no configuration file, a
    loader or lint pass that throws, a document that is not open), and the
    next run for the file asks neither [Files.resolve] nor [require]. *)
Theorem library_cached_before_the_configuration
  (env : Env) (uri : string) (w w1 : World) (library : Library) :
  let f := Uri.fsPath (Uri_parse env uri) in
  Uri.scheme (Uri_parse env uri) = "file" →
  document2Library (caches w) !! f = None →
  loadLibrary env f w = (Returned (Some library), w1) →
  let w' := (runTSLint env uri w).2 in
  document2Library (caches w') !! f = Some library ∧
  resolve_calls (calls (runTSLint env uri w').2) = resolve_calls (calls w') ∧
  require_calls (calls (runTSLint env uri w').2) = require_calls (calls w').
Proof.
  intros f Hscheme Hmiss Hload w'.
  assert (document2Library (caches w') !! f = Some library) as Hcached.
  { subst w'. rewrite runTSLint_stages. fold f.
    rewrite decide_False by (intros Hne; by apply Hne).
    rewrite Hmiss, Hload.
    destruct (configurationStage_frame env uri f library
                (library_cached f library w1)) as (Hd2l & _).
    rewrite Hd2l. simpl. apply lookup_insert_eq. }
  split; [done|].
  destruct (runTSLint_cached_library env uri w' library Hcached)
    as (Hresolve & Hrequire & _).
  done.
Qed.

Lemma library_cached_before_the_configuration_witness :
  let f := Uri.fsPath (Uri_parse Bare.env Demo.uri_a) in
  let w' := (runTSLint Bare.env Demo.uri_a Demo.fresh).2 in
  Uri.scheme (Uri_parse Bare.env Demo.uri_a) = "file" ∧
  document2Library (caches Demo.fresh) !! f = None ∧
  loadLibrary Bare.env f Demo.fresh =
    (Returned (Some (Demo.tslint_5_8 Demo.tslint_module)),
     (loadLibrary Bare.env f Demo.fresh).2) ∧
  (runTSLint Bare.env Demo.uri_a Demo.fresh).1 = Returned None ∧
  document2Library (caches w') !! f =
    Some (Demo.tslint_5_8 Demo.tslint_module) ∧
  resolve_calls (calls (runTSLint Bare.env Demo.uri_a w').2) =
    resolve_calls (calls w') ∧
  require_calls (calls (runTSLint Bare.env Demo.uri_a w').2) =
    require_calls (calls w').
Proof.
  intros f w'.
  assert (Uri.scheme (Uri_parse Bare.env Demo.uri_a) = "file") as Hscheme
    by reflexivity.
  assert (document2Library (caches Demo.fresh) !! f = None) as Hmiss
    by reflexivity.
  assert (loadLibrary Bare.env f Demo.fresh =
            (Returned (Some (Demo.tslint_5_8 Demo.tslint_module)),
             (loadLibrary Bare.env f Demo.fresh).2)) as Hload
    by (vm_compute; reflexivity).
  split; [exact Hscheme|]. split; [exact Hmiss|]. split; [exact Hload|].
  split; [vm_compute; reflexivity|].
  exact (library_cached_before_the_configuration Bare.env Demo.uri_a
           Demo.fresh _ _ Hscheme Hmiss Hload).
Defined.

(** X8. That no configuration file exists is not remembered.  For a file
    with a cached library and no cached configuration, in a directory none
    of whose levels holds a configuration file, a run looks at every level
    from the deepest to the first, writes the error line, returns nothing
    and leaves the caches as they were; so the next run for the file does
    all of it again. *)
Theorem missing_configuration_is_looked_for_again
  (env : Env) (uri : string) (w : World) (library : Library) :
  let f := Uri.fsPath (Uri_parse env uri) in
  let pieces := pieces_of env f in
  let failed (w0 : World) : World :=
    error_logged "Failed to run tslint. No tslint configuration file."
      (probe_all (candidate env pieces <$> reverse (seq 1 (length pieces)))
         w0) in
  Uri.scheme (Uri_parse env uri) = "file" →
  document2Library (caches w) !! f = Some library →
  document2Configuration (caches w) !! f = None →
  (∀ j, 1 ≤ j ≤ length pieces →
        fs_existsSync env (candidate env pieces j) = false) →
  runTSLint env uri w = (Returned None, failed w) ∧
  caches (failed w) = caches w ∧
  runTSLint env uri (failed w) = (Returned None, failed (failed w)).
Proof.
  intros f pieces failed Hscheme Hlibrary Hmiss Hnowhere.
  assert (∀ w0, document2Library (caches w0) !! f = Some library →
                document2Configuration (caches w0) !! f = None →
                runTSLint env uri w0 = (Returned None, failed w0)) as Hrun.
  { intros w0 Hl Hc. rewrite runTSLint_stages. fold f.
    rewrite decide_False by (intros Hne; by apply Hne).
    rewrite Hl. unfold configurationStage. rewrite Hc, getConfiguration_run.
    fold pieces. rewrite (nearest_none_of env pieces _ Hnowhere).
    by rewrite (probed_levels_none env pieces _
                  (nearest_none_of env pieces _ Hnowhere)). }
  split_and!; [by apply Hrun|done|by apply Hrun].
Qed.

Lemma missing_configuration_is_looked_for_again_witness :
  let w := (runTSLint Bare.env Demo.uri_a Demo.fresh).2 in
  let f := Uri.fsPath (Uri_parse Bare.env Demo.uri_a) in
  let failed (w0 : World) : World :=
    error_logged "Failed to run tslint. No tslint configuration file."
      (probe_all
         (candidate Bare.env (pieces_of Bare.env f)
            <$> reverse (seq 1 (length (pieces_of Bare.env f)))) w0) in
  Uri.scheme (Uri_parse Bare.env Demo.uri_a) = "file" ∧
  document2Library (caches w) !! f =
    Some (Demo.tslint_5_8 Demo.tslint_module) ∧
  document2Configuration (caches w) !! f = None ∧
  (∀ j, 1 ≤ j ≤ length (pieces_of Bare.env f) →
        fs_existsSync Bare.env (candidate Bare.env (pieces_of Bare.env f) j)
          = false) ∧
  runTSLint Bare.env Demo.uri_a w = (Returned None, failed w) ∧
  caches (failed w) = caches w ∧
  runTSLint Bare.env Demo.uri_a (failed w) = (Returned None, failed (failed w)).
Proof.
  intros w f failed.
  assert (Uri.scheme (Uri_parse Bare.env Demo.uri_a) = "file") as Hscheme
    by reflexivity.
  assert (document2Library (caches w) !! f =
            Some (Demo.tslint_5_8 Demo.tslint_module)) as Hlibrary
    by (vm_compute; reflexivity).
  assert (document2Configuration (caches w) !! f = None) as Hmiss
    by (vm_compute; reflexivity).
  assert (∀ j, 1 ≤ j ≤ length (pieces_of Bare.env f) →
               fs_existsSync Bare.env
                 (candidate Bare.env (pieces_of Bare.env f) j) = false)
    as Hnowhere by (intros j _; reflexivity).
  split; [exact Hscheme|]. split; [exact Hlibrary|]. split; [exact Hmiss|].
  split; [exact Hnowhere|].
  exact (missing_configuration_is_looked_for_again Bare.env Demo.uri_a w
           (Demo.tslint_5_8 Demo.tslint_module) Hscheme Hlibrary Hmiss
           Hnowhere).
Defined.

(** ** What is linted *)

Section LintedFacts.
Variable env : Env.

Lemma configurationStage_linted (uri f : string) (library : Library)
  (w w' : World) (result : LintResult) :
  configurationStage env uri f library w = (Returned (Some result), w') →
  ∃ document configuration isTsLint4,
    documents w !! uri = Some document ∧
    document2Configuration (caches w') !! f = Some configuration ∧
    isTsLintVersion4 env library = Some isTsLint4 ∧
    lint env (handleOf library isTsLint4) isTsLint4 f
      (TextDocument.getText document) configuration = Some result ∧
    lint_calls (calls w') = lint_calls (calls w) ++ [f].
Proof.
  unfold configurationStage.
  destruct (document2Configuration (caches w) !! f) as [found|] eqn:Hfound.
  - unfold lintStage. intros Hrun. repeat case_match; simplify_eq/=.
    by eexists _, _, _.
  - rewrite getConfiguration_run. unfold lintStage. intros Hrun.
    repeat case_match; simplify_eq/=.
    eexists _, _, _. split_and!; [done|apply lookup_insert_eq|done|done|done].
Qed.

End LintedFacts.

(** X9. A lint result is the result of one lint pass over the text the
    document manager holds for the URI when the run gets to the lint pass:
    the text as it was at the request where the file's library was cached,
    and the text after whatever the manager was told while the library was
    being resolved where it was not.  The pass goes through the library and
    the configuration that are in the caches for the file afterwards, with
    the handle and the calling convention that the version probe, which did
    not throw, picks for that library.  No result is returned for a URI the
    manager holds no document for. *)
Theorem lint_pass_reads_the_text_held_then
  (env : Env) (uri : string) (w : World) (result : LintResult) :
  let f := Uri.fsPath (Uri_parse env uri) in
  let w' := (runTSLint env uri w).2 in
  (runTSLint env uri w).1 = Returned (Some result) →
  ∃ document library configuration isTsLint4,
    documents w' !! uri = Some document ∧
    documents w' =
      match document2Library (caches w) !! f with
      | Some _ => documents w
      | None => whileSuspended env (documents w)
      end ∧
    document2Library (caches w') !! f = Some library ∧
    document2Configuration (caches w') !! f = Some configuration ∧
    isTsLintVersion4 env library = Some isTsLint4 ∧
    lint env (handleOf library isTsLint4) isTsLint4 f
      (TextDocument.getText document) configuration = Some result ∧
    lint_calls (calls w') = lint_calls (calls w) ++ [f].
Proof.
  intros f w'. subst w'. rewrite runTSLint_stages. fold f.
  destruct (decide _) as [Hscheme|Hscheme]; [done|].
  destruct (document2Library (caches w) !! f) as [library|] eqn:Hlibrary.
  - destruct (configurationStage env uri f library w) as [out w'] eqn:Hstage.
    cbn [fst snd]. intros ->.
    destruct (configurationStage_linted env uri f library w w' result Hstage)
      as (document & configuration & isTsLint4 & Hdocument & Hconfiguration
          & Hprobe & Hlint & Hcall).
    pose proof (configurationStage_frame env uri f library w) as Hframe.
    rewrite Hstage in Hframe. cbn [snd] in Hframe.
    destruct Hframe as (Hd2l & _ & Hdocuments & _).
    exists document, library, configuration, isTsLint4.
    rewrite Hdocuments, Hd2l. by split_and!.
  - pose proof (loadLibrary_frame env f w) as Hframe.
    destruct (loadLibrary env f w) as [[[library|]| |] w1] eqn:Hload;
      try done.
    destruct (loadLibrary_loaded env f w w1 library Hload)
      as (_ & _ & _ & _ & _ & _ & Hdocuments1 & _).
    cbn [snd] in Hframe.
    destruct Hframe as (_ & _ & _ & _ & _ & Hlints & _).
    destruct (configurationStage env uri f library
                (library_cached f library w1)) as [out w'] eqn:Hstage.
    cbn [fst snd]. intros ->.
    destruct (configurationStage_linted env uri f library _ w' result Hstage)
      as (document & configuration & isTsLint4 & Hdocument & Hconfiguration
          & Hprobe & Hlint & Hcall).
    pose proof (configurationStage_frame env uri f library
                  (library_cached f library w1)) as Hstageframe.
    rewrite Hstage in Hstageframe. cbn [snd] in Hstageframe.
    destruct Hstageframe as (Hd2l & _ & Hdocuments & _).
    exists document, library, configuration, isTsLint4.
    rewrite Hdocuments, Hd2l. simpl in *.
    rewrite <- Hdocuments1, <- Hlints.
    split_and!; try done. apply lookup_insert_eq.
Qed.

Lemma lint_pass_reads_the_text_held_then_witness :
  let env := Demo.env_with Demo.resolve_installed Demo.lint_pass
               Demo.user_edits in
  let f := Uri.fsPath (Uri_parse env Demo.uri_a) in
  let w' := (runTSLint env Demo.uri_a Demo.fresh).2 in
  (runTSLint env Demo.uri_a Demo.fresh).1 = Returned (Some {| failures := [] |}) ∧
  ∃ document library configuration isTsLint4,
    documents w' !! Demo.uri_a = Some document ∧
    documents w' =
      match document2Library (caches Demo.fresh) !! f with
      | Some _ => documents Demo.fresh
      | None => whileSuspended env (documents Demo.fresh)
      end ∧
    document2Library (caches w') !! f = Some library ∧
    document2Configuration (caches w') !! f = Some configuration ∧
    isTsLintVersion4 env library = Some isTsLint4 ∧
    lint env (handleOf library isTsLint4) isTsLint4 f
      (TextDocument.getText document) configuration =
      Some {| failures := [] |} ∧
    lint_calls (calls w') = lint_calls (calls Demo.fresh) ++ [f].
Proof.
  intros env f w'.
  assert ((runTSLint env Demo.uri_a Demo.fresh).1 =
            Returned (Some {| failures := [] |})) as Hrun
    by (vm_compute; reflexivity).
  split; [exact Hrun|].
  exact (lint_pass_reads_the_text_held_then env Demo.uri_a Demo.fresh
           {| failures := [] |} Hrun).
Defined.

(** ** The handlers side by side *)

(** X10. The fix request never publishes diagnostics: it leaves the record
    of diagnostics events as it found it, and otherwise leaves the world its
    lint run leaves (the world as it is where the document is not open), so
    the same caches as a run request would; refreshing the diagnostics after
    a fix takes a run request. *)
Theorem fix_request_sends_no_diagnostics
  (env : Env) (uri : string) (w : World) :
  sendDiagnostics_calls (calls (onFixTSLintRequest env uri w).2) =
    sendDiagnostics_calls (calls w) ∧
  (onFixTSLintRequest env uri w).2 =
    match documents w !! uri with
    | Some _ => (runTSLint env uri w).2
    | None => w
    end ∧
  (is_Some (documents w !! uri) →
   caches (onFixTSLintRequest env uri w).2 =
     caches (onRunTSLintRequest env uri w).2).
Proof.
  pose proof (runTSLint_sendDiagnostics env uri w) as Hsent.
  rewrite onFixTSLintRequest_run, onRunTSLintRequest_run.
  destruct (documents w !! uri) as [document|].
  - destruct (runTSLint env uri w) as [[[result|]| |] w1]; simpl in *;
      split_and!; done.
  - split_and!; [done|done|]. by intros [? ?].
Qed.

(** X11. The run request of the earlier server and that of the later one
    go through the same lint run and differ in one case only: where the run
    returns nothing (a URI that is not a file, no tslint module, no
    configuration file), the earlier server sends no diagnostics event and
    the later one sends an empty list.  Where the run returns a result both
    send its diagnostics; where it throws both end with the exception. *)
Theorem earlier_server_is_silent_where_nothing_was_linted
  (env : Env) (uri : string) (w : World) :
  match runTSLint env uri w with
  | (Returned (Some result), w1) =>
      onRunTSLintRequest_earlier env uri w =
        (Returned (), diagnostics_sent uri (makeDiagnostic <$> failures result) w1) ∧
      onRunTSLintRequest env uri w = onRunTSLintRequest_earlier env uri w
  | (Returned None, w1) =>
      onRunTSLintRequest_earlier env uri w = (Returned (), w1) ∧
      onRunTSLintRequest env uri w = (Returned (), diagnostics_sent uri [] w1)
  | (Threw e, w1) =>
      onRunTSLintRequest_earlier env uri w = (Threw e, w1) ∧
      onRunTSLintRequest env uri w = (Threw e, w1)
  | (Diverged, w1) =>
      onRunTSLintRequest env uri w = onRunTSLintRequest_earlier env uri w
  end.
Proof.
  rewrite onRunTSLintRequest_earlier_run, onRunTSLintRequest_run.
  destruct (runTSLint env uri w) as [[[result|]| |] w1]; try done.
  by rewrite diagnosticsOf_fmap.
Qed.

(** ** The directory ascent *)

Section AscentMoreFacts.
Variable env : Env.

Lemma probed_levels_last (pieces : list string) (k j : nat) :
  nearest env pieces k = Some j →
  last (probed_levels env pieces k) = Some j.
Proof.
  induction k as [|k IH]; [done|]. cbn [nearest probed_levels].
  destruct (fs_existsSync env (candidate env pieces (S k))) eqn:Hpresent.
  - by intros [= <-].
  - intros Hsome. specialize (IH Hsome).
    destruct (probed_levels env pieces k) as [|level levels]; [done|].
    by rewrite last_cons, IH.
Qed.

End AscentMoreFacts.

(** X19. The configuration resolver always comes to an end.  With the
    directory [path.parse(filePath).dir] cut at [path.sep], it asks
    [fs.existsSync] about one candidate per prefix of the pieces, the whole
    directory first and one piece less each time, and stops at the first
    candidate that exists or after the prefix of one piece.  It answers "not
    found" exactly when no prefix has a candidate that exists (every prefix
    was then asked about); otherwise its outcome is that of the version
    probe followed by the loader on the candidate of the longest prefix
    that has one: the loaded configuration, or what the probe or the loader
    throws. *)
Theorem getConfiguration_by_levels
  (env : Env) (filePath : string) (library : Library) (w : World) :
  let pieces := pieces_of env filePath in
  let depth := length pieces in
  let out := (getConfiguration env filePath library w).1 in
  let w' := (getConfiguration env filePath library w).2 in
  ∃ levels : list nat,
    existsSync_calls (calls w') =
      existsSync_calls (calls w) ++ (candidate env pieces <$> levels) ∧
    1 ≤ length levels ≤ depth ∧
    (∀ i, i < length levels → levels !! i = Some (depth - i)) ∧
    out ≠ Diverged ∧
    (out = Returned None ↔
     ∀ j, 1 ≤ j ≤ depth → fs_existsSync env (candidate env pieces j) = false) ∧
    (out = Returned None → length levels = depth) ∧
    (∀ j, 1 ≤ j ≤ depth →
          fs_existsSync env (candidate env pieces j) = true →
          (∀ j', j < j' ≤ depth →
                 fs_existsSync env (candidate env pieces j') = false) →
          length levels = depth - j + 1 ∧
          out = match linterOf env library with
                | None => Threw "TypeError: Invalid Version"
                | Some linter =>
                    match loadConfigurationFromPath env linter
                            (candidate env pieces j) with
                    | Some configuration => Returned (Some configuration)
                    | None => Threw "loadConfigurationFromPath failed"
                    end
                end).
Proof.
  intros pieces depth out w'. subst out w'.
  rewrite getConfiguration_run. fold pieces. fold depth.
  pose proof (split_length_pos (path_sep env) (path_parse_dir env filePath))
    as Hdepth.
  fold (pieces_of env filePath) in Hdepth. fold pieces depth in Hdepth.
  exists (probed_levels env pieces depth).
  assert (1 ≤ length (probed_levels env pieces depth)) as Hsome_level.
  { destruct depth; [lia|]. simpl. lia. }
  pose proof (probed_levels_length env pieces depth) as Hatmost.
  pose proof (probed_levels_descend env pieces depth) as Hdescend.
  destruct (nearest env pieces depth) as [j|] eqn:Hnearest.
  - destruct (nearest_Some env pieces _ _ Hnearest) as (Hj & Hpresent & Habove).
    pose proof (probed_levels_stop env pieces _ _ Hnearest) as Hstop.
    assert (∀ j0, 1 ≤ j0 ≤ depth →
              fs_existsSync env (candidate env pieces j0) = true →
              (∀ j', j0 < j' ≤ depth →
                     fs_existsSync env (candidate env pieces j') = false) →
              j0 = j) as Hsame.
    { intros j0 Hj0 Hp0 Habove0.
      destruct (Nat.lt_trichotomy j0 j) as [?|[?|?]]; [|done|].
      - specialize (Habove0 j). rewrite Habove0 in Hpresent by lia. done.
      - specialize (Habove j0). rewrite Habove in Hp0 by lia. done. }
    assert (¬ ∀ j0, 1 ≤ j0 ≤ depth →
                fs_existsSync env (candidate env pieces j0) = false)
      as Hsomewhere.
    { intros Hnone. specialize (Hnone j Hj). congruence. }
    destruct (linterOf env library) as [linter|] eqn:Hlinter;
      [destruct (loadConfigurationFromPath env linter
                   (candidate env pieces j)) as [configuration|] eqn:Hload|];
      cbn [fst snd];
      (split_and!;
       [done|lia|lia|done|done|by split|done|]);
      intros j0 Hj0 Hp0 Habove0;
      rewrite (Hsame j0 Hj0 Hp0 Habove0), ?Hload; by split.
  - pose proof (nearest_None env pieces _ Hnearest) as Hnone.
    pose proof (probed_levels_all env pieces _ Hnearest) as Hall.
    cbn [fst snd]. split_and!; [done|lia|lia|done|done|done|done|].
    intros j Hj Hp _. rewrite Hnone in Hp by done. done.
Qed.

(** X12. The configuration resolver looks at the file's path through
    [path.parse(filePath).dir] only: for two files with the same directory,
    and the same library, it gives the same outcome after looking at the
    same candidates, whatever the two worlds it is run in. *)
Theorem getConfiguration_by_directory
  (env : Env) (filePath another : string) (library : Library)
  (w1 w2 : World) :
  path_parse_dir env filePath = path_parse_dir env another →
  (getConfiguration env filePath library w1).1 =
    (getConfiguration env another library w2).1 ∧
  ∃ looked,
    existsSync_calls (calls (getConfiguration env filePath library w1).2) =
      existsSync_calls (calls w1) ++ looked ∧
    existsSync_calls (calls (getConfiguration env another library w2).2) =
      existsSync_calls (calls w2) ++ looked.
Proof.
  intros Hsame. rewrite !getConfiguration_run. cbv zeta.
  assert (pieces_of env another = pieces_of env filePath) as ->
    by (unfold pieces_of; by rewrite Hsame).
  split.
  - destruct (nearest env (pieces_of env filePath) _) as [j|]; [|done].
    destruct (linterOf env library) as [linter|]; [|done].
    by destruct (loadConfigurationFromPath env _ _).
  - exists (candidate env (pieces_of env filePath)
              <$> probed_levels env (pieces_of env filePath)
                    (length (pieces_of env filePath))).
    destruct (nearest env (pieces_of env filePath) _) as [j|]; [|done].
    destruct (linterOf env library) as [linter|]; [|done].
    by destruct (loadConfigurationFromPath env _ _).
Qed.

Lemma getConfiguration_by_directory_witness :
  path_parse_dir Demo.env Demo.path_a = path_parse_dir Demo.env Demo.path_b ∧
  (getConfiguration Demo.env Demo.path_a (Demo.tslint_5_8 Demo.tslint_module)
     Demo.fresh).1 =
    (getConfiguration Demo.env Demo.path_b (Demo.tslint_5_8 Demo.tslint_module)
       started).1.
Proof.
  assert (path_parse_dir Demo.env Demo.path_a =
            path_parse_dir Demo.env Demo.path_b) as Hsame by reflexivity.
  split; [exact Hsame|].
  exact (proj1 (getConfiguration_by_directory Demo.env Demo.path_a Demo.path_b
                  (Demo.tslint_5_8 Demo.tslint_module) Demo.fresh started
                  Hsame)).
Defined.

(** X13. One step up in the ascent takes off the last piece of the current
    directory and the separator before it: where the directory has more
    than one piece, the directory the loop goes on with, followed by a
    separator and a piece without separators, is the current directory; so
    it is a proper prefix of it and strictly shorter. *)
Theorem ascent_takes_off_the_last_piece (sep : ascii)
  (currentDirectory : string) :
  let splits := JsString.split sep currentDirectory in
  let parent := JsString.join sep (JsString.slice_init splits) in
  length splits ≠ 1 →
  (∃ piece, JsString.free_of sep piece ∧ last splits = Some piece ∧
            currentDirectory = parent +:+ String sep piece) ∧
  String.length parent < String.length currentDirectory ∧
  length (JsString.split sep parent) = length splits - 1.
Proof.
  intros splits parent Hdeep.
  pose proof (split_pieces_free sep currentDirectory) as Hfree.
  pose proof (split_length_pos sep currentDirectory) as Hpos.
  pose proof (join_split sep currentDirectory) as Hjoin.
  fold splits in Hfree, Hpos, Hjoin.
  destruct (exists_last (l := splits)) as (init & piece & Hsplits).
  { intros Hnil. rewrite Hnil in Hpos. simpl in Hpos. lia. }
  assert (JsString.slice_init splits = init) as Hinit.
  { unfold JsString.slice_init. rewrite Hsplits, length_app. simpl.
    replace (length init + 1 - 1) with (length init) by lia.
    by rewrite take_app_length. }
  assert (init ≠ []) as Hne.
  { intros ->. rewrite Hsplits in Hdeep. done. }
  assert (JsString.free_of sep piece ∧ Forall (JsString.free_of sep) init)
    as [Hpiece Hinitfree].
  { rewrite Hsplits in Hfree. apply Forall_app in Hfree as [? Hlast].
    by inversion Hlast. }
  assert (currentDirectory = parent +:+ String sep piece) as Hcurrent.
  { subst parent. rewrite Hinit, <- Hjoin, Hsplits. by apply join_snoc. }
  split_and!.
  - exists piece. split_and!; [done| |done].
    rewrite Hsplits. apply last_snoc.
  - pose proof (f_equal String.length Hcurrent) as Hlength.
    rewrite length_append in Hlength. simpl in Hlength. lia.
  - subst parent. rewrite Hinit, split_join by done.
    rewrite Hsplits, length_app. simpl. lia.
Qed.

Lemma ascent_takes_off_the_last_piece_witness :
  let splits := JsString.split Demo.backslash "c:\proj\src" in
  length splits ≠ 1 ∧
  (∃ piece, JsString.free_of Demo.backslash piece ∧
            last splits = Some piece ∧
            "c:\proj\src" =
              JsString.join Demo.backslash (JsString.slice_init splits)
              +:+ String Demo.backslash piece) ∧
  JsString.join Demo.backslash (JsString.slice_init splits) = "c:\proj".
Proof.
  intros splits.
  assert (length splits ≠ 1) as Hdeep by (vm_compute; lia).
  split; [exact Hdeep|]. split; [|reflexivity].
  exact (proj1 (ascent_takes_off_the_last_piece Demo.backslash "c:\proj\src"
                  Hdeep)).
Defined.

(** X14. The configuration resolver touches the library and the loader
    only after it has found a file, the library first: either it answers
    "not found" having asked neither the version probe nor the loader; or
    it has asked the version probe once and that threw, and the loader was
    not asked; or it has asked the version probe once and then the loader
    once, for the candidate that [fs.existsSync] was asked about last and
    answered yes to. *)
Theorem configuration_loaded_only_where_found
  (env : Env) (filePath : string) (library : Library) (w : World) :
  let out := (getConfiguration env filePath library w).1 in
  let w' := (getConfiguration env filePath library w).2 in
  (out = Returned None ∧
   loadConfiguration_calls (calls w') = loadConfiguration_calls (calls w) ∧
   isTsLintVersion4_calls (calls w') = isTsLintVersion4_calls (calls w)) ∨
  (∃ p,
     out = Threw "TypeError: Invalid Version" ∧
     isTsLintVersion4 env library = None ∧
     loadConfiguration_calls (calls w') = loadConfiguration_calls (calls w) ∧
     isTsLintVersion4_calls (calls w') = S (isTsLintVersion4_calls (calls w)) ∧
     last (existsSync_calls (calls w')) = Some p ∧
     fs_existsSync env p = true) ∨
  (∃ p linter,
     linterOf env library = Some linter ∧
     out = match loadConfigurationFromPath env linter p with
           | Some configuration => Returned (Some configuration)
           | None => Threw "loadConfigurationFromPath failed"
           end ∧
     loadConfiguration_calls (calls w') =
       loadConfiguration_calls (calls w) ++ [p] ∧
     isTsLintVersion4_calls (calls w') = S (isTsLintVersion4_calls (calls w)) ∧
     last (existsSync_calls (calls w')) = Some p ∧
     fs_existsSync env p = true).
Proof.
  intros out w'. subst out w'. rewrite getConfiguration_run.
  destruct (nearest env (pieces_of env filePath) _) as [j|] eqn:Hnearest.
  - right.
    destruct (nearest_Some env _ _ _ Hnearest) as (_ & Hpresent & _).
    pose proof (probed_levels_last env _ _ _ Hnearest) as Hlast.
    assert (last (existsSync_calls (calls w) ++
                  (candidate env (pieces_of env filePath)
                     <$> probed_levels env (pieces_of env filePath)
                           (length (pieces_of env filePath)))) =
            Some (candidate env (pieces_of env filePath) j)) as Hlooked.
    { destruct (probed_levels env (pieces_of env filePath) _)
        as [|level levels] using rev_ind; [done|].
      rewrite fmap_app, app_assoc. cbn [fmap list_fmap].
      rewrite last_snoc. rewrite last_snoc in Hlast. by injection Hlast as ->. }
    destruct (linterOf env library) as [linter|] eqn:Hlinter.
    + right. exists (candidate env (pieces_of env filePath) j), linter.
      destruct (loadConfigurationFromPath env _ _); simpl; by split_and!.
    + left. exists (candidate env (pieces_of env filePath) j). simpl.
      split_and!; try done. unfold linterOf in Hlinter.
      by destruct (isTsLintVersion4 env library).
  - left. by split_and!.
Qed.

(** * The client *)

Section ClientFacts.
Import Client.
Variable env : Client.Env.

Lemma replacesOf_fmap (edits : list TextEdit.t) :
  replacesOf edits =
    (λ edit, (TextEdit.range edit, TextEdit.newText edit)) <$> edits.
Proof.
  unfold replacesOf.
  assert (∀ sofar,
            foldl (λ replaces edit,
                     replaces ++ [(TextEdit.range edit, TextEdit.newText edit)])
                  sofar edits
            = sofar ++
              ((λ edit, (TextEdit.range edit, TextEdit.newText edit)) <$> edits))
    as Hpush.
  { induction edits as [|edit more IH]; intros sofar; simpl.
    - by rewrite app_nil_r.
    - rewrite IH. by rewrite <- app_assoc. }
  apply Hpush.
Qed.

Lemma added_app (s s' : State) (new : list Event) :
  events s' = events s ++ new → added s s' = new.
Proof. intros Hnew. unfold added. rewrite Hnew. apply drop_app_length. Qed.

Ltac members He :=
  repeat match type of He with
         | _ ∈ _ :: _ => apply elem_of_cons in He as [->|He]
         | _ ∈ [] => by apply elem_of_nil in He
         | _ ∈ _ ++ _ => apply elem_of_app in He as [He|He]
         end.

(** What sending the run request adds. *)
Lemma sendRunTSLintRequest_events (uri : string) (s : State) :
  ∃ shown,
    events (sendRunTSLintRequest env uri s) =
      events s ++ RunTSLintRequested uri :: shown ∧
    ∀ e, e ∈ shown → about e = None.
Proof.
  unfold sendRunTSLintRequest.
  destruct (runTSLint_answer env _ uri) as [[]|error]; simpl.
  - exists []. split; [done|]. intros e He. by apply elem_of_nil in He.
  - eexists [_]. rewrite <- app_assoc. split; [done|].
    intros e He. by members He.
Qed.

(** What [applyTextEdits] adds. *)
Lemma applyTextEdits_events (uri : string) (documentVersion : Z)
  (edits : list TextEdit.t) (s : State) :
  ∃ new,
    events (applyTextEdits env uri documentVersion edits s).2 =
      events s ++ new ∧
    ∀ e u, e ∈ new → about e = Some u → u = uri.
Proof.
  unfold applyTextEdits.
  destruct (activeTextEditor s) as [textEditor|].
  2:{ exists []. rewrite app_nil_r. split; [done|].
      intros e u He. by apply elem_of_nil in He. }
  destruct (decide (Client.uri textEditor = uri)) as [Huri|Huri].
  2:{ exists []. rewrite app_nil_r. split; [done|].
      intros e u He. by apply elem_of_nil in He. }
  cbv zeta.
  destruct (decide (version textEditor ≠ documentVersion));
    destruct (edit_answer env _ textEditor _) as [[]|error]; simpl;
    rewrite <- ?app_assoc; simpl;
    (eexists; split; [reflexivity|]);
    intros e u He Habout; members He; simpl in Habout; by simplify_eq.
Qed.

End ClientFacts.

(** X15. [applyTextEdits] submits the edits whatever the version.  Where
    the active editor shows the document the fixes were made for, in
    another version than the one they were made for, the user is told that
    the fixes are outdated and cannot be applied, and right after that the
    edit is submitted to the editor all the same, with one replacement per
    text edit in the order of the edits. *)
Theorem outdated_fixes_are_submitted_all_the_same
  (env : Client.Env) (uri : string) (documentVersion : Z)
  (edits : list TextEdit.t) (s : Client.State)
  (textEditor : Client.TextEditor) :
  Client.activeTextEditor s = Some textEditor →
  Client.uri textEditor = uri →
  Client.version textEditor ≠ documentVersion →
  ∃ more,
    Client.events (Client.applyTextEdits env uri documentVersion edits s).2 =
      Client.events s ++
      [Client.InformationMessageShown
         "TSLint fixes are outdated and can't be applied to the document.";
       Client.EditSubmitted uri
         ((λ edit, (TextEdit.range edit, TextEdit.newText edit)) <$> edits)]
      ++ more.
Proof.
  intros Heditor Huri Hversion. unfold Client.applyTextEdits.
  rewrite Heditor, decide_True by done. cbv zeta.
  rewrite decide_True by done. rewrite replacesOf_fmap, Huri.
  destruct (Client.edit_answer env _ textEditor _) as [[]|error]; simpl;
    rewrite <- ?app_assoc; simpl; by eexists.
Qed.

Lemma outdated_fixes_are_submitted_all_the_same_witness :
  let textEditor : Client.TextEditor :=
    {| Client.uri := Demo.uri_a; Client.version := 8 |} in
  let typed : Client.State :=
    {| Client.activeTextEditor := Some textEditor; Client.events := [] |} in
  Client.activeTextEditor typed = Some textEditor ∧
  Client.uri textEditor = Demo.uri_a ∧
  Client.version textEditor ≠ 7%Z ∧
  ∃ more,
    Client.events
      (Client.applyTextEdits (Client.env_with id) Demo.uri_a 7
         (edits Client.one_fix) typed).2 =
      Client.events typed ++
      [Client.InformationMessageShown
         "TSLint fixes are outdated and can't be applied to the document.";
       Client.EditSubmitted Demo.uri_a
         ((λ edit, (TextEdit.range edit, TextEdit.newText edit))
            <$> edits Client.one_fix)]
      ++ more.
Proof.
  intros textEditor typed.
  assert (Client.version textEditor ≠ 7%Z) as Hversion by (simpl; lia).
  split; [reflexivity|]. split; [reflexivity|]. split; [exact Hversion|].
  exact (outdated_fixes_are_submitted_all_the_same (Client.env_with id)
           Demo.uri_a 7 (edits Client.one_fix) typed textEditor
           eq_refl eq_refl Hversion).
Defined.

(** X16. The fix command keeps to one document.  Without an active editor
    it does nothing at all.  With one, it first sends the fix request for
    the editor's document, and every request it sends and every edit it
    submits after that is for that same document, whatever the requests
    answer and whatever editor is active by then. *)
Theorem fix_command_keeps_to_one_document
  (env : Client.Env) (s : Client.State) :
  let s' := Client.fixTSLintError env s in
  let new := Client.added s s' in
  Client.events s' = Client.events s ++ new ∧
  match Client.activeTextEditor s with
  | None => s' = s
  | Some textEditor =>
      head new = Some (Client.FixTSLintRequested (Client.uri textEditor)) ∧
      ∀ e u, e ∈ new → Client.about e = Some u → u = Client.uri textEditor
  end.
Proof.
  intros s' new.
  assert (∃ added,
            Client.events s' = Client.events s ++ added ∧
            match Client.activeTextEditor s with
            | None => s' = s
            | Some textEditor =>
                head added =
                  Some (Client.FixTSLintRequested (Client.uri textEditor)) ∧
                ∀ e u, e ∈ added → Client.about e = Some u →
                       u = Client.uri textEditor
            end) as (added & Hadded & Hshape).
  { subst s' new. unfold Client.fixTSLintError.
    destruct (Client.activeTextEditor s) as [textEditor|].
    2:{ exists []. by rewrite app_nil_r. }
    cbv zeta.
    set (uri := Client.uri textEditor).
    set (s1 := Client.recorded (Client.FixTSLintRequested uri) s).
    destruct (Client.fixTSLint_answer env (Client.events s1) uri)
      as [[result|]|error].
    - destruct (applyTextEdits_events env uri (documentVersion result)
                  (edits result) (Client.awaited env s1))
        as (applied & Happlied & Happlied_about).
      destruct (Client.applyTextEdits env uri (documentVersion result)
                  (edits result) (Client.awaited env s1)) as [[[]|error] s2];
        cbn [snd] in Happlied.
      + destruct (sendRunTSLintRequest_events env uri s2)
          as (shown & Hsent & Hshown).
        exists (Client.FixTSLintRequested uri :: applied
                ++ Client.RunTSLintRequested uri :: shown).
        split_and!.
        * rewrite Hsent, Happlied. simpl. by rewrite <- !app_assoc.
        * done.
        * intros e u He Habout.
          apply elem_of_cons in He as [->|He]; [by injection Habout|].
          apply elem_of_app in He as [He|He]; [by eapply Happlied_about|].
          apply elem_of_cons in He as [->|He]; [by injection Habout|].
          rewrite (Hshown e He) in Habout. done.
      + exists (Client.FixTSLintRequested uri :: applied). split_and!.
        * rewrite Happlied. simpl. by rewrite <- !app_assoc.
        * done.
        * intros e u He Habout.
          apply elem_of_cons in He as [->|He]; [by injection Habout|].
          by eapply Happlied_about.
    - exists [Client.FixTSLintRequested uri]. split_and!; [done|done|].
      intros e u He Habout.
      apply list_elem_of_singleton in He as ->. by injection Habout.
    - eexists [Client.FixTSLintRequested uri; _]. split_and!.
      + simpl. by rewrite <- app_assoc.
      + done.
      + intros e u He Habout.
        apply elem_of_cons in He as [->|He]; [by injection Habout|].
        apply list_elem_of_singleton in He as ->. done. }
  subst new. by rewrite (added_app s s' added Hadded).
Qed.

(** X17. Turning to another editor drops the fix without a word.  Where
    the fix request is fulfilled with a result and, by then, no editor is
    active or the active editor shows another document, the fix command
    submits no edit and shows nothing about it, and still sends the run
    request for the document it was invoked on. *)
Theorem fix_is_dropped_when_the_editor_has_changed
  (env : Client.Env) (s : Client.State) (textEditor : Client.TextEditor)
  (result : FixTSLintResult) :
  let uri := Client.uri textEditor in
  let asked := Client.events s ++ [Client.FixTSLintRequested uri] in
  Client.activeTextEditor s = Some textEditor →
  Client.fixTSLint_answer env asked uri = Client.Fulfilled (Some result) →
  (∀ now, Client.whileAwaiting env asked (Some textEditor) = Some now →
          Client.uri now ≠ uri) →
  Client.events (Client.fixTSLintError env s) =
    asked ++
    Client.RunTSLintRequested uri ::
    match Client.runTSLint_answer env
            (asked ++ [Client.RunTSLintRequested uri]) uri with
    | Client.Fulfilled _ => []
    | Client.Rejected error =>
        [Client.ErrorMessageShown ("Failed to run tslint. " +:+ error)]
    end.
Proof.
  intros uri asked Heditor Hanswer Hchanged.
  unfold Client.fixTSLintError. rewrite Heditor. cbv zeta. fold uri.
  change (Client.events (Client.recorded (Client.FixTSLintRequested uri) s))
    with asked.
  rewrite Hanswer. unfold Client.applyTextEdits.
  change (Client.activeTextEditor
            (Client.awaited env
               (Client.recorded (Client.FixTSLintRequested uri) s)))
    with (Client.whileAwaiting env asked (Client.activeTextEditor s)).
  rewrite Heditor.
  destruct (Client.whileAwaiting env asked (Some textEditor)) as [now|]
    eqn:Hnow.
  - rewrite decide_False by (by apply Hchanged).
    unfold Client.sendRunTSLintRequest. simpl. fold asked.
    destruct (Client.runTSLint_answer env _ uri) as [[]|error]; subst asked;
      simpl; by rewrite <- ?app_assoc.
  - unfold Client.sendRunTSLintRequest. simpl. fold asked.
    destruct (Client.runTSLint_answer env _ uri) as [[]|error]; subst asked;
      simpl; by rewrite <- ?app_assoc.
Qed.

Lemma fix_is_dropped_when_the_editor_has_changed_witness :
  let env := Client.env_with
               (λ _, Some {| Client.uri := Demo.uri_b; Client.version := 1 |}) in
  let textEditor : Client.TextEditor :=
    {| Client.uri := Demo.uri_a; Client.version := 7 |} in
  let asked := Client.events Client.on_a
               ++ [Client.FixTSLintRequested Demo.uri_a] in
  Client.activeTextEditor Client.on_a = Some textEditor ∧
  Client.fixTSLint_answer env asked Demo.uri_a =
    Client.Fulfilled (Some Client.one_fix) ∧
  (∀ now, Client.whileAwaiting env asked (Some textEditor) = Some now →
          Client.uri now ≠ Demo.uri_a) ∧
  Client.events (Client.fixTSLintError env Client.on_a) =
    [Client.FixTSLintRequested Demo.uri_a;
     Client.RunTSLintRequested Demo.uri_a].
Proof.
  intros env textEditor asked.
  assert (∀ now, Client.whileAwaiting env asked (Some textEditor) = Some now →
                 Client.uri now ≠ Demo.uri_a) as Hchanged
    by (intros now [= <-]; done).
  split; [reflexivity|]. split; [reflexivity|]. split; [exact Hchanged|].
  exact (fix_is_dropped_when_the_editor_has_changed env Client.on_a textEditor
           Client.one_fix eq_refl eq_refl Hchanged).
Defined.

(** * The caches over a session *)

Section SessionFacts.
Variable env : Env.

Lemma serve_grows (m : Message) (w : World) :
  document2Library (caches w) ⊆ document2Library (caches (serve env m w)) ∧
  path2Library (caches w) ⊆ path2Library (caches (serve env m w)) ∧
  ((∀ changes, m ≠ DidChangeWatchedFiles changes) →
   document2Configuration (caches w) ⊆
     document2Configuration (caches (serve env m w))).
Proof.
  destruct m as [uri|uri|changes|uri document|uri]; simpl.
  - rewrite onRunTSLintRequest_run.
    destruct (runTSLint_grows env uri w) as (Hd2l & Hp2l & Hd2c & _).
    by destruct (runTSLint env uri w) as [[lintErrors| |] w1].
  - rewrite onFixTSLintRequest_run.
    destruct (runTSLint_grows env uri w) as (Hd2l & Hp2l & Hd2c & _).
    destruct (documents w !! uri) as [document|]; [|done].
    by destruct (runTSLint env uri w) as [[[result|]| |] w1].
  - rewrite onDidChangeWatchedFiles_run. simpl. split_and!; [done|done|].
    intros Hnot. by destruct (Hnot changes).
  - done.
  - done.
Qed.

Lemma after_app (ms more : list Message) :
  after env (ms ++ more) = foldl (λ w m, serve env m w) (after env ms) more.
Proof. unfold after. by rewrite foldl_app. Qed.

Lemma session_grows (more : list Message) (w : World) :
  let w' := foldl (λ w m, serve env m w) w more in
  document2Library (caches w) ⊆ document2Library (caches w') ∧
  path2Library (caches w) ⊆ path2Library (caches w') ∧
  ((∀ changes, DidChangeWatchedFiles changes ∉ more) →
   document2Configuration (caches w) ⊆ document2Configuration (caches w')).
Proof.
  revert w. induction more as [|m more IH]; intros w; [done|].
  cbn [foldl]. cbv zeta.
  destruct (serve_grows m w) as (Hd2l & Hp2l & Hd2c).
  destruct (IH (serve env m w)) as (Hd2l' & Hp2l' & Hd2c').
  split_and!.
  - by etrans.
  - by etrans.
  - intros Hnone. etrans.
    + apply Hd2c. intros changes ->. apply (Hnone changes). by left.
    + apply Hd2c'. intros changes Hin. apply (Hnone changes). by right.
Qed.

End SessionFacts.

(** X18. Libraries are never evicted.  Over any further messages, every
    entry of the two library caches stays what it is, so the library a file
    was first served with is the one it is served with for the rest of the
    session; and entries of the configuration cache go away at a
    configuration-change notification only: they stay over any messages
    with no such notification among them. *)
Theorem libraries_are_never_evicted (env : Env) (ms more : list Message) :
  let w := after env ms in
  let w' := after env (ms ++ more) in
  (∀ f library, document2Library (caches w) !! f = Some library →
                document2Library (caches w') !! f = Some library) ∧
  (∀ p library, path2Library (caches w) !! p = Some library →
                path2Library (caches w') !! p = Some library) ∧
  ((∀ changes, DidChangeWatchedFiles changes ∉ more) →
   ∀ f configuration,
     document2Configuration (caches w) !! f = Some configuration →
     document2Configuration (caches w') !! f = Some configuration).
Proof.
  intros w w'. subst w'. rewrite after_app. fold w.
  destruct (session_grows env more w) as (Hd2l & Hp2l & Hd2c).
  split_and!.
  - intros f library Hf. by eapply lookup_weaken.
  - intros p library Hp. by eapply lookup_weaken.
  - intros Hnone f configuration Hf. eapply lookup_weaken; [done|].
    by apply Hd2c.
Qed.
